(** * glancebar: aggregation, selection, caching and token refresh

    A shallow embedding of the calendar/task aggregation layer, the usage
    limits cache and the Zoho token refresh of glancebar (TypeScript), with
    the properties its specification states about them; and of the token
    paths, the formatting of times, the configuration file and the commands
    that change it, with further properties of the code.

    Conventions of the embedding.
    - A JavaScript [Date] is represented by its time value: the number of
      milliseconds since the epoch, an integer of [Z].  Invalid dates (time
      value NaN) are left out, but in module [TimeValues], which follows the
      sort of the events when a date is invalid.
    - [Date.now()] and [new Date()] read a clock; the functions below take the
      instant they read as an argument, or read it from the world they run in.
    - A call that may throw, and a promise that may reject, is a value of
      [result]; [try { ... } catch { ... }] is [try_catch].
    - The file system and the network are an explicit world that is threaded
      through the calls that touch them. *)

From Stdlib Require Import ZArith List Bool String Ascii Lia.
From Stdlib Require Import Sorting.Sorted Sorting.Permutation.
From Stdlib Require Decimal DecimalString DecimalZ.
Import ListNotations.

Local Open Scope Z_scope.

(** ** Exceptions and promises *)

Inductive result (A : Type) : Type :=
| Ok (a : A)
| Throw.

Arguments Ok {A} a.
Arguments Throw {A}.

Definition rbind {A B} (r : result A) (k : A -> result B) : result B :=
  match r with
  | Ok a => k a
  | Throw => Throw
  end.

Notation "x <- c ;; k" := (rbind c (fun x => k))
  (at level 61, c at next level, right associativity).

(** [try { body } catch { handler }] for a body without effects on the world. *)
Definition try_catch {A} (body : result A) (handler : A) : result A :=
  match body with
  | Ok a => Ok a
  | Throw => Ok handler
  end.

(** [Promise.all]: fulfilled with all the values, rejected as soon as one of
    the promises is. *)
Fixpoint Promise_all {A} (ps : list (result A)) : result (list A) :=
  match ps with
  | [] => Ok []
  | p :: rest =>
      v <- p ;;
      vs <- Promise_all rest ;;
      Ok (v :: vs)
  end.

(** [Array.prototype.flat] on an array of arrays. *)
Definition flat {A} (xss : list (list A)) : list A := List.concat xss.

(** [xs.map((x, idx) => f(x, idx))]. *)
Fixpoint mapi_from {A B} (i : Z) (f : A -> Z -> B) (xs : list A) : list B :=
  match xs with
  | [] => []
  | x :: rest => f x i :: mapi_from (i + 1) f rest
  end.

Definition mapi {A B} (f : A -> Z -> B) (xs : list A) : list B :=
  mapi_from 0 f xs.

(** ** [Array.prototype.sort]

    ECMAScript requires the sort to be stable; with a consistent comparator
    the result is then determined, and an insertion sort that puts an element
    before the first later element it does not exceed computes it.  The
    comparator returns a number whose sign decides. *)

Section ArraySort.
Context {A : Type} (cmp : A -> A -> Z).

Fixpoint sort_insert (x : A) (l : list A) : list A :=
  match l with
  | [] => [x]
  | y :: rest =>
      if cmp x y <=? 0 then x :: y :: rest else y :: sort_insert x rest
  end.

Fixpoint Array_sort (l : list A) : list A :=
  match l with
  | [] => []
  | x :: rest => sort_insert x (Array_sort rest)
  end.

End ArraySort.

(** [xs.slice(0, n)] for a number [n]: a negative [n] counts from the end. *)
Definition slice0 {A} (n : Z) (xs : list A) : list A :=
  if n <? 0
  then firstn (Z.to_nat (Z.max 0 (Z.of_nat (List.length xs) + n))) xs
  else firstn (Z.to_nat n) xs.

(** ** Calendar events *)

Inductive Provider := google | zoho.

Record CalendarEvent := mkEvent {
  id : string;
  title : string;
  start : Z;
  end_ : Z;
  isAllDay : bool;
  account : string;
  accountEmail : string;
  accountIndex : Z;
  provider : Provider
}.

(** *** [getCurrentOrNextEvent]

    Two loops over the same array; [now] is the instant [new Date()] reads.
    [inProgress] and [upcoming] are the tests of the two loops. *)

Definition inProgress (now : Z) (event : CalendarEvent) : bool :=
  (start event <=? now) && (end_ event >? now).

Definition upcoming (now : Z) (event : CalendarEvent) : bool :=
  start event >? now.

Fixpoint firstInProgress (now : Z) (events : list CalendarEvent)
  : option CalendarEvent :=
  match events with
  | [] => None
  | event :: rest =>
      if (start event <=? now) && (end_ event >? now) then Some event
      else firstInProgress now rest
  end.

Fixpoint firstUpcoming (now : Z) (events : list CalendarEvent)
  : option CalendarEvent :=
  match events with
  | [] => None
  | event :: rest =>
      if start event >? now then Some event
      else firstUpcoming now rest
  end.

Definition getCurrentOrNextEvent (now : Z) (events : list CalendarEvent)
  : option CalendarEvent :=
  match firstInProgress now events with
  | Some event => Some event
  | None => firstUpcoming now events
  end.

(** ** Dates

    The time arithmetic of ECMAScript (MakeDay, MakeTime, MakeDate), on the
    proleptic Gregorian calendar.  Months are counted from 0. *)

Definition msPerSecond : Z := 1000.
Definition msPerMinute : Z := 60000.
Definition msPerHour : Z := 3600000.
Definition msPerDay : Z := 86400000.

Definition DayFromYear (y : Z) : Z :=
  365 * (y - 1970) + (y - 1969) / 4 - (y - 1901) / 100 + (y - 1601) / 400.

Definition InLeapYear (y : Z) : bool :=
  ((y mod 4 =? 0) && negb (y mod 100 =? 0)) || (y mod 400 =? 0).

(** Day within the year of the first day of month [mn], [0 <= mn < 12]. *)
Definition DayWithinYear (leap : bool) (mn : Z) : Z :=
  let l := if leap then 1 else 0 in
  match mn with
  | 0 => 0
  | 1 => 31
  | 2 => 59 + l
  | 3 => 90 + l
  | 4 => 120 + l
  | 5 => 151 + l
  | 6 => 181 + l
  | 7 => 212 + l
  | 8 => 243 + l
  | 9 => 273 + l
  | 10 => 304 + l
  | _ => 334 + l
  end.

Definition MakeDay (year month date : Z) : Z :=
  let ym := year + month / 12 in
  let mn := month mod 12 in
  DayFromYear ym + DayWithinYear (InLeapYear ym) mn + date - 1.

Definition MakeTime (hour min sec ms : Z) : Z :=
  hour * msPerHour + min * msPerMinute + sec * msPerSecond + ms.

Definition MakeDate (day time : Z) : Z := day * msPerDay + time.

(** Years 0 to 99 given to [Date.UTC] and to the [Date] constructor mean
    1900 to 1999. *)
Definition MakeFullYear (year : Z) : Z :=
  if (0 <=? year) && (year <=? 99) then 1900 + year else year.

(** [Date.UTC(year, month, date, hours, minutes, seconds)]. *)
Definition Date_UTC (year month date hours minutes seconds : Z) : Z :=
  MakeDate (MakeDay (MakeFullYear year) month date)
           (MakeTime hours minutes seconds 0).

(** What the program takes from the platform it runs on: the offset of the
    local time zone at a local time value ([LocalTZA]), and [new Date(v)] for
    [v] a string or [undefined].  A date is its time value, and is taken to
    be valid: module [TimeValues] below has the dates that are not. *)
Class Platform := {
  LocalTZA : Z -> Z;
  newDate : option string -> Z
}.

(** [new Date(year, month, date, hours, minutes, seconds)]: the fields are
    local wall time. *)
Definition Date_local `{Platform}
  (year month date hours minutes seconds : Z) : Z :=
  let t := MakeDate (MakeDay (MakeFullYear year) month date)
                    (MakeTime hours minutes seconds 0) in
  t - LocalTZA t.

(** ** Strings and JavaScript values *)

(** Truthiness of a value that is a string or [undefined]. *)
Definition truthy (o : option string) : bool :=
  match o with
  | Some s => negb (String.eqb s "")
  | None => false
  end.

(** [o || d] for such a value. *)
Definition orElse (o : option string) (d : string) : string :=
  match o with
  | Some s => if String.eqb s "" then d else s
  | None => d
  end.

(** [o === s] for such a value. *)
Definition strictEq (o : option string) (s : string) : bool :=
  match o with
  | Some v => String.eqb v s
  | None => false
  end.

Definition isDigit (c : ascii) : bool :=
  let n := nat_of_ascii c in (48 <=? n)%nat && (n <=? 57)%nat.

Definition digitValue (c : ascii) : Z := Z.of_nat (nat_of_ascii c) - 48.

(** Unary [+] on a string of decimal digits. *)
Fixpoint ToNumber_from (acc : Z) (s : string) : Z :=
  match s with
  | EmptyString => acc
  | String c rest => ToNumber_from (10 * acc + digitValue c) rest
  end.

Definition ToNumber (s : string) : Z := ToNumber_from 0 s.

(** [\d{n}] at the head of [s]: the digits matched and what follows them. *)
Fixpoint digits (n : nat) (s : string) : option (string * string) :=
  match n with
  | O => Some (EmptyString, s)
  | S n' =>
      match s with
      | EmptyString => None
      | String c rest =>
          if isDigit c then
            match digits n' rest with
            | Some (ds, tl) => Some (String c ds, tl)
            | None => None
            end
          else None
      end
  end.

(** *** [parseZohoDate]

    The capture groups of
    [/^(\d{4})(\d{2})(\d{2})T(\d{2})(\d{2})(\d{2})([Z]|([+-])(\d{2})(\d{2}))?$/]:
    a group that did not take part in the match is [undefined]. *)

Record ZohoDateMatch := mkMatch {
  m_year : string;
  m_month : string;
  m_day : string;
  m_hour : string;
  m_min : string;
  m_sec : string;
  m_tz : option string;
  m_sign : option string;
  m_tzHour : option string;
  m_tzMin : option string
}.

(** The optional seventh group and the end of the string. *)
Definition matchZone (s : string)
  : option (option string * option string * option string * option string) :=
  match s with
  | EmptyString => Some (None, None, None, None)
  | String c rest =>
      if Ascii.eqb c "Z" then
        match rest with
        | EmptyString => Some (Some "Z"%string, None, None, None)
        | _ => None
        end
      else if Ascii.eqb c "+" || Ascii.eqb c "-" then
        match digits 2 rest with
        | Some (tzHour, rest1) =>
            match digits 2 rest1 with
            | Some (tzMin, EmptyString) =>
                Some (Some s, Some (String c EmptyString),
                      Some tzHour, Some tzMin)
            | _ => None
            end
        | None => None
        end
      else None
  end.

Definition matchZohoDate (dateStr : string) : option ZohoDateMatch :=
  match digits 4 dateStr with
  | None => None
  | Some (year, s1) =>
  match digits 2 s1 with
  | None => None
  | Some (month, s2) =>
  match digits 2 s2 with
  | None => None
  | Some (day, s3) =>
  match s3 with
  | EmptyString => None
  | String t s4 =>
  if negb (Ascii.eqb t "T") then None else
  match digits 2 s4 with
  | None => None
  | Some (hour, s5) =>
  match digits 2 s5 with
  | None => None
  | Some (min, s6) =>
  match digits 2 s6 with
  | None => None
  | Some (sec, s7) =>
  match matchZone s7 with
  | None => None
  | Some (tz, sign, tzHour, tzMin) =>
      Some (mkMatch year month day hour min sec tz sign tzHour tzMin)
  end end end end end end end end.

Definition parseZohoDate `{Platform} (dateStr : string) : Z :=
  match matchZohoDate dateStr with
  | Some m =>
      let year := ToNumber (m_year m) in
      let month := ToNumber (m_month m) in
      let day := ToNumber (m_day m) in
      let hour := ToNumber (m_hour m) in
      let min := ToNumber (m_min m) in
      let sec := ToNumber (m_sec m) in
      if strictEq (m_tz m) "Z" then
        Date_UTC year (month - 1) day hour min sec
      else
        match m_sign m, m_tzHour m, m_tzMin m with
        | Some sign, Some tzHour, Some tzMin =>
            if truthy (Some sign) && truthy (Some tzHour)
               && truthy (Some tzMin)
            then
              let offsetMinutes :=
                (ToNumber tzHour * 60 + ToNumber tzMin)
                * (if String.eqb sign "+" then -1 else 1) in
              let utc := Date_UTC year (month - 1) day hour min sec in
              utc + offsetMinutes * 60000
            else Date_local year (month - 1) day hour min sec
        | _, _, _ => Date_local year (month - 1) day hour min sec
        end
  | None => newDate (Some dateStr)
  end.

(** ** Effects on a world

    A computation runs in a world [W] (files, network, clock), may change it,
    and completes with a value or throws.  What it did to the world before it
    threw stays done. *)

Definition M (W A : Type) : Type := W -> result A * W.

Definition ret {W A} (a : A) : M W A := fun w => (Ok a, w).

Definition throw {W A} : M W A := fun w => (Throw, w).

Definition bind {W A B} (m : M W A) (k : A -> M W B) : M W B :=
  fun w =>
    match m w with
    | (Ok a, w') => k a w'
    | (Throw, w') => (Throw, w')
    end.

Notation "x <~ c ;; k" := (bind c (fun x => k))
  (at level 61, c at next level, right associativity).

Definition gets {W A} (f : W -> A) : M W A := fun w => (Ok (f w), w).

Definition lift {W A} (r : result A) : M W A := fun w => (r, w).

(** [try { body } catch { handler }]. *)
Definition try_ {W A} (body handler : M W A) : M W A :=
  fun w =>
    match body w with
    | (Ok a, w') => (Ok a, w')
    | (Throw, w') => handler w'
    end.

(** A file holding JSON of type [A]: absent, present but not readable as
    such ([readFileSync] or [JSON.parse] throws), or holding a value. *)
Inductive File (A : Type) : Type :=
| Missing
| Unreadable
| Stored (a : A).

Arguments Missing {A}.
Arguments Unreadable {A}.
Arguments Stored {A} a.

Definition existsSync {A} (f : File A) : bool :=
  match f with
  | Missing => false
  | _ => true
  end.

(** [JSON.parse(readFileSync(path, "utf-8"))]. *)
Definition readJson {A} (f : File A) : result A :=
  match f with
  | Stored a => Ok a
  | _ => Throw
  end.

(** A [fetch] response: its [ok] flag and what [response.json()] gives. *)
Record Response (A : Type) : Type := mkResponse {
  ok : bool;
  json : result A
}.

Arguments mkResponse {A} ok json.
Arguments ok {A} r.
Arguments json {A} r.

(** ** Configuration *)

Record ZohoAccount := mkZohoAccount {
  email : string;
  datacenter : string
}.

(** The fields of [Config] that the modelled functions read. *)
Record Config := mkConfig {
  accounts : list string;
  gmailAccounts : list string;
  zohoAccounts : list ZohoAccount;
  lookaheadHours : Z;
  showZohoTasks : bool;
  maxTasksToShow : Z;
  usageLimitsCacheTTL : Z
}.

Definition DEFAULT_CONFIG : Config :=
  {| accounts := [];
     gmailAccounts := [];
     zohoAccounts := [];
     lookaheadHours := 8;
     showZohoTasks := true;
     maxTasksToShow := 3;
     usageLimitsCacheTTL := 120 |}.

(** ** Usage limits and their cache *)

Record Limit := mkLimit {
  utilization : Z;
  resets_at : string
}.

Record UsageLimits := mkUsageLimits {
  five_hour : Limit;
  seven_day : Limit
}.

Record UsageLimitsCache := mkCache {
  data : option UsageLimits;
  fetchedAt : Z;
  ttl : Z
}.

(** The body of the usage response as the code reads it; a field that is
    absent or falsy is [None]. *)
Record RawLimit := mkRawLimit {
  raw_utilization : option Z;
  raw_resets_at : option string
}.

Record UsageBody := mkUsageBody {
  body_five_hour : option RawLimit;
  body_seven_day : option RawLimit
}.

(** The world of the usage limits: the cache file, whether the configuration
    directory can be written, the access token of the Claude credentials file
    (if the file has one), and the usage endpoint, which answers the [n]-th
    request made with a bearer token; a rejected [fetch] (network error, abort
    after 5000 ms) is [Throw]. *)
Record UsageWorld := mkUsageWorld {
  cacheFile : File UsageLimitsCache;
  configDirWritable : bool;
  claudeCredentials : File (option string);
  usageEndpoint : nat -> string -> result (Response UsageBody);
  requests : nat
}.

Definition emptyCache : UsageLimitsCache :=
  {| data := None; fetchedAt := 0; ttl := 120000 |}.

Definition loadClaudeCredentials : M UsageWorld (option (option string)) :=
  try_
    (credFile <~ gets claudeCredentials ;;
     if negb (existsSync credFile) then ret None
     else
       creds <~ lift (readJson credFile) ;;
       ret (Some creds))
    (ret None).

Definition loadUsageLimitsCache : M UsageWorld UsageLimitsCache :=
  try_
    (file <~ gets cacheFile ;;
     if negb (existsSync file) then ret emptyCache
     else lift (readJson file))
    (ret emptyCache).

Definition writeCacheFile (cache : UsageLimitsCache) : M UsageWorld unit :=
  fun w =>
    if configDirWritable w
    then (Ok tt,
          {| cacheFile := Stored cache;
             configDirWritable := configDirWritable w;
             claudeCredentials := claudeCredentials w;
             usageEndpoint := usageEndpoint w;
             requests := requests w |})
    else (Throw, w).

Definition saveUsageLimitsCache (cache : UsageLimitsCache)
  : M UsageWorld unit :=
  try_ (writeCacheFile cache) (ret tt).

(** [fetch("https://api.anthropic.com/api/oauth/usage", ...)]: one request. *)
Definition fetchUsage (accessToken : string)
  : M UsageWorld (Response UsageBody) :=
  fun w =>
    (usageEndpoint w (requests w) accessToken,
     {| cacheFile := cacheFile w;
        configDirWritable := configDirWritable w;
        claudeCredentials := claudeCredentials w;
        usageEndpoint := usageEndpoint w;
        requests := S (requests w) |}).

(** [n || 0] for a number or [undefined]. *)
Definition orZero (o : option Z) : Z :=
  match o with
  | Some n => n
  | None => 0
  end.

Definition readLimit (l : RawLimit) : Limit :=
  {| utilization := orZero (raw_utilization l);
     resets_at := orElse (raw_resets_at l) "" |}.

Definition fetchUsageLimitsFromAPI : M UsageWorld (option UsageLimits) :=
  try_
    (creds <~ loadClaudeCredentials ;;
     match creds with
     | Some (Some accessToken) =>
         if negb (truthy (Some accessToken)) then ret None
         else
           response <~ fetchUsage accessToken ;;
           if negb (ok response) then ret None
           else
             body <~ lift (json response) ;;
             match body_five_hour body, body_seven_day body with
             | Some five, Some seven =>
                 ret (Some {| five_hour := readLimit five;
                              seven_day := readLimit seven |})
             | _, _ => ret None
             end
     | _ => ret None
     end)
    (ret None).

(** Truthiness of an object or [null]. *)
Definition present {A} (o : option A) : bool :=
  match o with
  | Some _ => true
  | None => false
  end.

(** [getUsageLimits(config)]; [now] is what [Date.now()] reads. *)
Definition getUsageLimits (config : Config) (now : Z)
  : M UsageWorld (option UsageLimits) :=
  cache <~ loadUsageLimitsCache ;;
  let ttlMs := usageLimitsCacheTTL config * 1000 in
  if present (data cache) && (now - fetchedAt cache <? ttlMs)
  then ret (data cache)
  else
    freshData <~ fetchUsageLimitsFromAPI ;;
    match freshData with
    | Some fresh =>
        _ <~ saveUsageLimitsCache
               {| data := Some fresh; fetchedAt := now; ttl := ttlMs |} ;;
        ret (Some fresh)
    | None => ret (data cache)
    end.

(** ** Zoho tokens *)

Record ZohoCredentials := mkZohoCredentials {
  client_id : string;
  client_secret : string
}.

(** A token record.  [access_token] is [None] when the property is
    [undefined]; [expires_at] is [None] when it is not a number: [NaN] in
    memory, which [JSON.stringify] writes as [null]. *)
Record ZohoToken := mkZohoToken {
  access_token : option string;
  refresh_token : string;
  expires_at : option Z;
  api_domain : option string
}.

Record Datacenter := mkDatacenter {
  dc_accounts : string;
  dc_calendar : string;
  dc_mail : string
}.

Definition ZOHO_DATACENTERS (key : string) : option Datacenter :=
  if String.eqb key "com" then
    Some (mkDatacenter "https://accounts.zoho.com"
            "https://calendar.zoho.com" "https://mail.zoho.com")
  else if String.eqb key "eu" then
    Some (mkDatacenter "https://accounts.zoho.eu"
            "https://calendar.zoho.eu" "https://mail.zoho.eu")
  else if String.eqb key "in" then
    Some (mkDatacenter "https://accounts.zoho.in"
            "https://calendar.zoho.in" "https://mail.zoho.in")
  else if String.eqb key "com.au" then
    Some (mkDatacenter "https://accounts.zoho.com.au"
            "https://calendar.zoho.com.au" "https://mail.zoho.com.au")
  else if String.eqb key "com.cn" then
    Some (mkDatacenter "https://accounts.zoho.com.cn"
            "https://calendar.zoho.com.cn" "https://mail.zoho.com.cn")
  else if String.eqb key "jp" then
    Some (mkDatacenter "https://accounts.zoho.jp"
            "https://calendar.zoho.jp" "https://mail.zoho.jp")
  else if String.eqb key "zohocloud.ca" then
    Some (mkDatacenter "https://accounts.zohocloud.ca"
            "https://calendar.zohocloud.ca" "https://mail.zohocloud.ca")
  else None.

(** [account.replace(/[^a-zA-Z0-9@.-]/g, "_")]. *)
Definition safeChar (c : ascii) : ascii :=
  let n := nat_of_ascii c in
  if ((97 <=? n) && (n <=? 122) || (65 <=? n) && (n <=? 90)
      || (48 <=? n) && (n <=? 57)
      || (n =? 64) || (n =? 46) || (n =? 45))%nat
  then c else "_"%char.

Fixpoint safeAccount (account : string) : string :=
  match account with
  | EmptyString => EmptyString
  | String c rest => String (safeChar c) (safeAccount rest)
  end.

(** The path of the token file, below the tokens directory. *)
Definition getZohoTokenPath (account : string) : string :=
  String.append "zoho_" (String.append (safeAccount account) ".json").

(** The refresh exchange: the POST to [dc.accounts + "/oauth/v2/token"] with
    grant type [refresh_token]. *)
Record TokenRequest := mkTokenRequest {
  req_url : string;
  req_client_id : string;
  req_client_secret : string;
  req_refresh_token : string
}.

(** The body of the answer as the code reads it; [body_refresh_token] is
    there for a provider that sends a new one. *)
Record TokenBody := mkTokenBody {
  body_access_token : option string;
  body_expires_in : option Z;
  body_refresh_token : option string
}.

(** The world of the Zoho tokens: the token files by path, whether they can
    be written, the client credentials file, the token endpoint, the clock
    [Date.now()] reads, the time an exchange takes, and the number of
    exchanges made. *)
Record ZohoWorld := mkZohoWorld {
  tokenFiles : string -> File ZohoToken;
  tokensWritable : bool;
  zohoCredentialsFile : File ZohoCredentials;
  tokenEndpoint : TokenRequest -> result (Response TokenBody);
  clock : Z;
  latency : Z;
  exchanges : nat
}.

Definition loadZohoCredentials : M ZohoWorld ZohoCredentials :=
  file <~ gets zohoCredentialsFile ;;
  if negb (existsSync file) then throw
  else lift (readJson file).

Definition Date_now : M ZohoWorld Z := gets clock.

Definition fetchToken (request : TokenRequest)
  : M ZohoWorld (Response TokenBody) :=
  fun w =>
    (tokenEndpoint w request,
     {| tokenFiles := tokenFiles w;
        tokensWritable := tokensWritable w;
        zohoCredentialsFile := zohoCredentialsFile w;
        tokenEndpoint := tokenEndpoint w;
        clock := clock w + latency w;
        latency := latency w;
        exchanges := S (exchanges w) |}).

Definition writeTokenFile (path : string) (token : ZohoToken)
  : M ZohoWorld unit :=
  fun w =>
    if tokensWritable w
    then (Ok tt,
          {| tokenFiles :=
               fun p => if String.eqb p path then Stored token
                        else tokenFiles w p;
             tokensWritable := tokensWritable w;
             zohoCredentialsFile := zohoCredentialsFile w;
             tokenEndpoint := tokenEndpoint w;
             clock := clock w;
             latency := latency w;
             exchanges := exchanges w |})
    else (Throw, w).

(** [token.expires_at > t] for an [expires_at] read from a token file, where
    what is not a number is [null] and counts as 0. *)
Definition expiresAfter (expires : option Z) (t : Z) : bool :=
  match expires with
  | Some e => e >? t
  | None => 0 >? t
  end.

Definition refreshZohoToken (account : ZohoAccount)
  : M ZohoWorld (option ZohoToken) :=
  let tokenPath := getZohoTokenPath (email account) in
  file <~ gets (fun w => tokenFiles w tokenPath) ;;
  if negb (existsSync file) then ret None
  else
    token <~ lift (readJson file) ;;
    now <~ Date_now ;;
    if expiresAfter (expires_at token) (now + 300000) then ret (Some token)
    else
      try_
        (credentials <~ loadZohoCredentials ;;
         match ZOHO_DATACENTERS (datacenter account) with
         | None => throw
         | Some dc =>
             response <~ fetchToken
               {| req_url := String.append (dc_accounts dc) "/oauth/v2/token";
                  req_client_id := client_id credentials;
                  req_client_secret := client_secret credentials;
                  req_refresh_token := refresh_token token |} ;;
             if negb (ok response) then ret None
             else
               body <~ lift (json response) ;;
               now' <~ Date_now ;;
               let updatedToken :=
                 {| access_token := body_access_token body;
                    refresh_token := refresh_token token;
                    expires_at :=
                      match body_expires_in body with
                      | Some expires_in => Some (now' + expires_in * 1000)
                      | None => None
                      end;
                    api_domain := api_domain token |} in
               _ <~ writeTokenFile tokenPath updatedToken ;;
               ret (Some updatedToken)
         end)
        (ret None).

(** ** Fetching events *)

(** [xs.indexOf(x)] on an array of strings. *)
Fixpoint indexOf_from (i : Z) (xs : list string) (x : string) : Z :=
  match xs with
  | [] => -1
  | y :: rest => if String.eqb y x then i else indexOf_from (i + 1) rest x
  end.

Definition indexOf (xs : list string) (x : string) : Z := indexOf_from 0 xs x.

Definition extractAccountName (email : string) : string :=
  match String.index 0 "@" email with
  | None => email
  | Some atIndex =>
      let domain :=
        String.substring (S atIndex) (String.length email - S atIndex) email in
      if String.eqb domain "gmail.com" then String.substring 0 atIndex email
      else
        match String.index 0 "." domain with
        | Some dot => String.substring 0 dot domain
        | None => domain
        end
  end.

Definition getAllAccounts (config : Config) : list string :=
  let gmail :=
    if (0 <? List.length (gmailAccounts config))%nat
    then gmailAccounts config else accounts config in
  let zohoEmails := map email (zohoAccounts config) in
  gmail ++ zohoEmails.

(** *** Google *)

Record GoogleEventTime := mkGoogleEventTime {
  dateTime : option string;
  date : option string
}.

Record GoogleRawEvent := mkGoogleRawEvent {
  g_id : option string;
  g_summary : option string;
  g_start : option GoogleEventTime;
  g_end : option GoogleEventTime
}.

(** What one Google account meets: [authClient] is the call of
    [getGoogleAuthenticatedClient], which throws without credentials or on an
    unreadable token file and returns [null] ([false]) without a token file;
    [eventsList timeMin timeMax] is [response.data.items] of the list call,
    which rejects on a network error or an error status. *)
Record GoogleFetch := mkGoogleFetch {
  authClient : result bool;
  eventsList : Z -> Z -> result (option (list GoogleRawEvent))
}.

(** [s + "T00:00:00"] for [s] a string or [undefined]. *)
Definition midnightOf (s : option string) : string :=
  String.append (match s with Some d => d | None => "undefined" end)
                "T00:00:00".

Definition googleEvent `{Platform} (account : string) (accountIndex : Z)
  (event : GoogleRawEvent) : CalendarEvent :=
  let startDateTime :=
    match g_start event with Some t => dateTime t | None => None end in
  let endDateTime :=
    match g_end event with Some t => dateTime t | None => None end in
  let startDate :=
    match g_start event with Some t => date t | None => None end in
  let endDate :=
    match g_end event with Some t => date t | None => None end in
  let isAllDay := negb (truthy startDateTime) in
  {| id := orElse (g_id event) "";
     title := orElse (g_summary event) "(No title)";
     start := if isAllDay then newDate (Some (midnightOf startDate))
              else newDate startDateTime;
     end_ := if isAllDay then newDate (Some (midnightOf endDate))
             else newDate endDateTime;
     isAllDay := isAllDay;
     account := extractAccountName account;
     accountEmail := account;
     accountIndex := accountIndex;
     provider := google |}.

(** The body of the [try] of one Google account. *)
Definition googleAccountEvents `{Platform} (fetch : GoogleFetch)
  (now timeMax : Z) (account : string) (accountIndex : Z)
  : result (list CalendarEvent) :=
  auth <- authClient fetch ;;
  if negb auth then Ok []
  else
    items <- eventsList fetch now timeMax ;;
    let events := match items with Some l => l | None => [] end in
    Ok (map (googleEvent account accountIndex) events).

(** [getGoogleEvents]; [env i] is what the account at position [i] of the
    Google accounts meets. *)
Definition getGoogleEvents `{Platform} (env : Z -> GoogleFetch)
  (config : Config) (now timeMax : Z) : result (list CalendarEvent) :=
  let gmail :=
    if (0 <? List.length (gmailAccounts config))%nat
    then gmailAccounts config else accounts config in
  let allAccounts := getAllAccounts config in
  let eventPromises :=
    mapi (fun account i =>
            let accountIndex := indexOf allAccounts account in
            try_catch
              (googleAccountEvents (env i) now timeMax account accountIndex)
              [])
         gmail in
  results <- Promise_all eventPromises ;;
  Ok (flat results).

(** *** Zoho *)

Record ZohoDateAndTime := mkZohoDateAndTime {
  dt_start : option string;
  dt_end : option string
}.

Record ZohoRawEvent := mkZohoRawEvent {
  z_uid : option string;
  z_title : option string;
  z_isallday : bool;
  z_dateandtime : option ZohoDateAndTime;
  z_start : option string;
  z_end : option string
}.

Record ZohoCalendar := mkZohoCalendar {
  cal_uid : option string;
  cal_isdefault : bool
}.

(** What one Zoho account meets: the world its token refresh runs in, the
    answer to the calendars request ([calendarsData.calendars]), and the
    answer to the events request for a calendar uid and a time range
    ([eventsData.events]). *)
Record ZohoFetch := mkZohoFetch {
  tokenWorld : ZohoWorld;
  calendarsResponse : result (Response (option (list ZohoCalendar)));
  eventsResponse :
    option string -> Z -> Z -> result (Response (option (list ZohoRawEvent)))
}.

(** [parseZohoDate(v)] for [v] a string or [undefined]: [undefined.match]
    is a TypeError. *)
Definition callParseZohoDate `{Platform} (v : option string) : result Z :=
  match v with
  | Some dateStr => Ok (parseZohoDate dateStr)
  | None => Throw
  end.

Definition zohoEvent `{Platform} (account : ZohoAccount) (accountIndex : Z)
  (event : ZohoRawEvent) : result CalendarEvent :=
  let isAllDay := z_isallday event in
  times <-
    match z_dateandtime event with
    | Some dateandtime =>
        start <- callParseZohoDate (dt_start dateandtime) ;;
        end_ <- callParseZohoDate (dt_end dateandtime) ;;
        Ok (start, end_)
    | None =>
        start <- callParseZohoDate (z_start event) ;;
        end_ <- callParseZohoDate (z_end event) ;;
        Ok (start, end_)
    end ;;
  Ok {| id := orElse (z_uid event) "";
        title := orElse (z_title event) "(No title)";
        start := fst times;
        end_ := snd times;
        isAllDay := isAllDay;
        account := extractAccountName (email account);
        accountEmail := email account;
        accountIndex := accountIndex;
        provider := zoho |}.

(** [events.map(f)] for an [f] that may throw. *)
Fixpoint mapResult {A B} (f : A -> result B) (xs : list A)
  : result (list B) :=
  match xs with
  | [] => Ok []
  | x :: rest =>
      y <- f x ;;
      ys <- mapResult f rest ;;
      Ok (y :: ys)
  end.

(** The body of the [try] of one Zoho account. *)
Definition zohoAccountEvents `{Platform} (fetch : ZohoFetch)
  (now timeMax : Z) (account : ZohoAccount) (accountIndex : Z)
  : result (list CalendarEvent) :=
  token <- fst (refreshZohoToken account (tokenWorld fetch)) ;;
  match token with
  | None => Ok []
  | Some _ =>
      match ZOHO_DATACENTERS (datacenter account) with
      | None => Throw
      | Some dc =>
          calendarsResponse <- calendarsResponse fetch ;;
          if negb (ok calendarsResponse) then Ok []
          else
            calendarsData <- json calendarsResponse ;;
            let calendars :=
              match calendarsData with Some l => l | None => [] end in
            match calendars with
            | [] => Ok []
            | first :: _ =>
                let primaryCalendar :=
                  match find cal_isdefault calendars with
                  | Some c => c
                  | None => first
                  end in
                let calendarUid := cal_uid primaryCalendar in
                eventsResponse <-
                  eventsResponse fetch calendarUid now timeMax ;;
                if negb (ok eventsResponse) then Ok []
                else
                  eventsData <- json eventsResponse ;;
                  let events :=
                    match eventsData with Some l => l | None => [] end in
                  mapResult (zohoEvent account accountIndex) events
            end
      end
  end.

(** [getZohoEvents]; [env i] is what the account at position [i] of the
    Zoho accounts meets. *)
Definition getZohoEvents `{Platform} (env : Z -> ZohoFetch)
  (config : Config) (now timeMax : Z) : result (list CalendarEvent) :=
  if (List.length (zohoAccounts config) =? 0)%nat then Ok []
  else
    let gmailCount :=
      Z.of_nat (List.length
                  (if (0 <? List.length (gmailAccounts config))%nat
                   then gmailAccounts config else accounts config)) in
    let eventPromises :=
      mapi (fun account idx =>
              let accountIndex := gmailCount + idx in
              try_catch
                (zohoAccountEvents (env idx) now timeMax account accountIndex)
                [])
           (zohoAccounts config) in
    results <- Promise_all eventPromises ;;
    Ok (flat results).

(** The comparator of the event sort: the difference of the time values,
    of which the sort reads the sign.  Both dates are valid here; in module
    [TimeValues] the difference can be NaN. *)
Definition byStart (a b : CalendarEvent) : Z := start a - start b.

(** [getUpcomingEvents(config)]; [now] is the instant [new Date()] reads. *)
Definition getUpcomingEvents `{Platform} (genv : Z -> GoogleFetch)
  (zenv : Z -> ZohoFetch) (config : Config) (now : Z)
  : result (list CalendarEvent) :=
  let timeMax := now + lookaheadHours config * 60 * 60 * 1000 in
  both <- Promise_all [getGoogleEvents genv config now timeMax;
                       getZohoEvents zenv config now timeMax] ;;
  match both with
  | [googleEvents; zohoEvents] =>
      Ok (Array_sort byStart (googleEvents ++ zohoEvents))
  | _ => Throw
  end.

(** ** Zoho tasks *)

(** A task as the API gives it.  A string field that is absent is [None].
    [t_dueDate] is [None] when the due date is absent or empty, and otherwise
    the numbers unary [+] reads from the parts of [dueDate.split("/")], each
    part taken to be the writing of an integer. *)
Record RawTask := mkRawTask {
  t_id : option string;
  t_title : option string;
  t_description : option string;
  t_dueDate : option (list Z);
  t_priority : option string;
  t_status : option string
}.

Record ZohoTask := mkZohoTask {
  task_id : string;
  task_title : string;
  description : string;
  dueDate : option Z;
  priority : string;
  status : string;
  isOverdue : bool
}.

(** What one Zoho account meets when its tasks are fetched: the world its
    token refresh runs in, the answer to the tasks request, and the instant
    [new Date()] reads after it.

    The body of the answer is [data.data?.tasks]: [None] when it is absent,
    and the body cannot be had ([Throw]) also when the loop cannot iterate
    it.  An entry of the array is [Ok task], or [Throw] when the body of the
    loop throws on it: the entry is [null] or [undefined], so that reading
    [task.status] throws, or it is a task that is not completed and whose
    [dueDate] is truthy and no string, so that [task.dueDate.split] is no
    function. *)
Record TaskFetch := mkTaskFetch {
  taskTokenWorld : ZohoWorld;
  tasksResponse : result (Response (option (list (result RawTask))));
  tasksNow : Z
}.

Definition zohoTask `{Platform} (now : Z) (task : RawTask) : ZohoTask :=
  let dueDate :=
    match t_dueDate task with
    | Some [day; month; year] => Some (Date_local year (month - 1) day 0 0 0)
    | _ => None
    end in
  let isOverdue :=
    match dueDate with
    | Some due => due <? now
    | None => false
    end in
  {| task_id := orElse (t_id task) "";
     task_title := orElse (t_title task) "(No title)";
     description := orElse (t_description task) "";
     dueDate := dueDate;
     priority := orElse (t_priority task) "Normal";
     status := orElse (t_status task) "Open";
     isOverdue := isOverdue |}.

Definition isCompleted (task : RawTask) : bool :=
  strictEq (t_status task) "Completed" || strictEq (t_status task) "completed".

(** [allTasks.push(task)]. *)
Definition push {A} (x : A) : M (list A) unit :=
  fun xs => (Ok tt, xs ++ [x]).

(** The loop over the tasks of one answer.  The state is [allTasks]: a task
    is pushed as soon as it is read, so that a throw on a later entry leaves
    the tasks pushed before it in the array. *)
Fixpoint pushTasks `{Platform} (now : Z) (tasks : list (result RawTask))
  : M (list ZohoTask) unit :=
  match tasks with
  | [] => ret tt
  | entry :: rest =>
      task <~ lift entry ;;
      _ <~ (if isCompleted task then ret tt else push (zohoTask now task)) ;;
      pushTasks now rest
  end.

(** The body of the [try] of one account. *)
Definition zohoAccountTasks `{Platform} (fetch : TaskFetch)
  (account : ZohoAccount) : M (list ZohoTask) unit :=
  token <~ lift (fst (refreshZohoToken account (taskTokenWorld fetch))) ;;
  match token with
  | None => ret tt
  | Some _ =>
      match ZOHO_DATACENTERS (datacenter account) with
      | None => throw
      | Some dc =>
          response <~ lift (tasksResponse fetch) ;;
          if negb (ok response) then ret tt
          else
            body <~ lift (json response) ;;
            let tasks := match body with Some l => l | None => [] end in
            let now := tasksNow fetch in
            pushTasks now tasks
      end
  end.

(** [priorityOrder[p]] for [priorityOrder = { High: 0, Normal: 1, Low: 2 }],
    for a priority [p] that names no property every object inherits (as
    [constructor] does). *)
Definition priorityOrder (p : string) : option Z :=
  if String.eqb p "High" then Some 0
  else if String.eqb p "Normal" then Some 1
  else if String.eqb p "Low" then Some 2
  else None.

(** [n || 1] for a number or [undefined]: 0 is falsy. *)
Definition orOne (o : option Z) : Z :=
  match o with
  | Some n => if n =? 0 then 1 else n
  | None => 1
  end.

(** The comparator of the task sort. *)
Definition compareTasks (a b : ZohoTask) : Z :=
  if isOverdue a && negb (isOverdue b) then -1
  else if negb (isOverdue a) && isOverdue b then 1
  else
    match dueDate a, dueDate b with
    | Some da, Some db => da - db
    | Some _, None => -1
    | None, Some _ => 1
    | None, None =>
        orOne (priorityOrder (priority a)) - orOne (priorityOrder (priority b))
    end.

(** The loop over the Zoho accounts, from the account at position [i] on:
    [env i] is what the account at position [i] meets, and what its body
    throws is caught and dropped. *)
Fixpoint forZohoAccounts `{Platform} (env : Z -> TaskFetch) (i : Z)
  (accounts : list ZohoAccount) : M (list ZohoTask) unit :=
  match accounts with
  | [] => ret tt
  | account :: rest =>
      _ <~ try_ (zohoAccountTasks (env i) account) (ret tt) ;;
      forZohoAccounts env (i + 1) rest
  end.

(** [getZohoTasks(config)]; [env i] is what the account at position [i]
    meets. *)
Definition getZohoTasks `{Platform} (env : Z -> TaskFetch) (config : Config)
  : list ZohoTask :=
  if (List.length (zohoAccounts config) =? 0)%nat then []
  else if negb (showZohoTasks config) then []
  else
    let allTasks := snd (forZohoAccounts env 0 (zohoAccounts config) []) in
    slice0 (maxTasksToShow config) (Array_sort compareTasks allTasks).

(** ** The first version of the calendar module

    [getUpcomingEvents] and [getCurrentOrNextEvent] as they stand in the
    module that knows Google accounts only. *)

Module Legacy.

Record CalendarEvent := mkEvent {
  id : string;
  title : string;
  start : Z;
  end_ : Z;
  isAllDay : bool;
  account : string;
  accountEmail : string;
  accountIndex : Z
}.

Record Config := mkConfig {
  accounts : list string;
  lookaheadHours : Z
}.

Definition parseEvent `{Platform} (event : GoogleRawEvent) (account : string)
  (accountIndex : Z) : CalendarEvent :=
  let startDateTime :=
    match g_start event with Some t => dateTime t | None => None end in
  let endDateTime :=
    match g_end event with Some t => dateTime t | None => None end in
  let startDate :=
    match g_start event with Some t => date t | None => None end in
  let endDate :=
    match g_end event with Some t => date t | None => None end in
  let isAllDay := negb (truthy startDateTime) in
  {| id := orElse (g_id event) "";
     title := orElse (g_summary event) "(No title)";
     start := if isAllDay then newDate (Some (midnightOf startDate))
              else newDate startDateTime;
     end_ := if isAllDay then newDate (Some (midnightOf endDate))
             else newDate endDateTime;
     isAllDay := isAllDay;
     account := extractAccountName account;
     accountEmail := account;
     accountIndex := accountIndex |}.

(** The body of the [try] of one account. *)
Definition accountEvents `{Platform} (fetch : GoogleFetch) (now timeMax : Z)
  (account : string) (accountIndex : Z) : result (list CalendarEvent) :=
  auth <- authClient fetch ;;
  if negb auth then Ok []
  else
    items <- eventsList fetch now timeMax ;;
    let events := match items with Some l => l | None => [] end in
    Ok (map (fun event => parseEvent event account accountIndex) events).

Definition byStart (a b : CalendarEvent) : Z := start a - start b.

Definition getUpcomingEvents `{Platform} (env : Z -> GoogleFetch)
  (config : Config) (now : Z) : result (list CalendarEvent) :=
  let timeMax := now + lookaheadHours config * 60 * 60 * 1000 in
  let eventPromises :=
    mapi (fun account accountIndex =>
            try_catch
              (accountEvents (env accountIndex) now timeMax account
                 accountIndex)
              [])
         (accounts config) in
  results <- Promise_all eventPromises ;;
  let allEvents := flat results in
  Ok (Array_sort byStart allEvents).

Fixpoint firstInProgress (now : Z) (events : list CalendarEvent)
  : option CalendarEvent :=
  match events with
  | [] => None
  | event :: rest =>
      if (start event <=? now) && (end_ event >? now) then Some event
      else firstInProgress now rest
  end.

Fixpoint firstUpcoming (now : Z) (events : list CalendarEvent)
  : option CalendarEvent :=
  match events with
  | [] => None
  | event :: rest =>
      if start event >? now then Some event
      else firstUpcoming now rest
  end.

Definition getCurrentOrNextEvent (now : Z) (events : list CalendarEvent)
  : option CalendarEvent :=
  match firstInProgress now events with
  | Some event => Some event
  | None => firstUpcoming now events
  end.

End Legacy.

(** ** The other token paths

    [getGoogleTokenPath] and [getLegacyTokenPath], below the tokens
    directory as [getZohoTokenPath] is; [getLegacyTokenPath] is also the
    [getTokenPath] of the first version. *)

Definition getGoogleTokenPath (account : string) : string :=
  String.append "google_" (String.append (safeAccount account) ".json").

Definition getLegacyTokenPath (account : string) : string :=
  String.append (safeAccount account) ".json".

(** ** Formatting

    The settings of [Config] that the functions above do not read, beside
    those they read. *)

Record FullConfig := mkFullConfig {
  base : Config;
  showCalendarName : bool;
  countdownThresholdMinutes : Z;
  maxTitleLength : Z;
  waterReminderEnabled : bool;
  stretchReminderEnabled : bool;
  eyeReminderEnabled : bool;
  showCpuUsage : bool;
  showMemoryUsage : bool;
  showUsageLimits : bool;
  show5HourLimit : bool;
  show7DayLimit : bool
}.

Definition DEFAULT_FULL_CONFIG : FullConfig :=
  {| base := DEFAULT_CONFIG;
     showCalendarName := true;
     countdownThresholdMinutes := 60;
     maxTitleLength := 120;
     waterReminderEnabled := true;
     stretchReminderEnabled := true;
     eyeReminderEnabled := true;
     showCpuUsage := false;
     showMemoryUsage := false;
     showUsageLimits := true;
     show5HourLimit := true;
     show7DayLimit := true |}.

(** The escape character of the ANSI color codes. *)
Definition esc : ascii := "027"%char.

Definition code (s : string) : option string :=
  Some (String esc (String "[" s)).

Definition COLORS (name : string) : option string :=
  if String.eqb name "reset" then code "0m"
  else if String.eqb name "red" then code "31m"
  else if String.eqb name "green" then code "32m"
  else if String.eqb name "yellow" then code "33m"
  else if String.eqb name "blue" then code "34m"
  else if String.eqb name "magenta" then code "35m"
  else if String.eqb name "cyan" then code "36m"
  else if String.eqb name "white" then code "37m"
  else if String.eqb name "brightRed" then code "91m"
  else if String.eqb name "brightGreen" then code "92m"
  else if String.eqb name "brightYellow" then code "93m"
  else if String.eqb name "brightBlue" then code "94m"
  else if String.eqb name "brightMagenta" then code "95m"
  else if String.eqb name "brightCyan" then code "96m"
  else if String.eqb name "orange" then code "38;5;208m"
  else if String.eqb name "pink" then code "38;5;213m"
  else if String.eqb name "purple" then code "38;5;141m"
  else None.

(** [COLORS.name] for a name of the table. *)
Definition color (name : string) : string := orElse (COLORS name) "".

(** An integer in a template literal: its decimal digits, with [-] before
    them when it is negative. *)
Definition numberToString (n : Z) : string :=
  DecimalString.NilZero.string_of_int (Z.to_int n).

(** [Math.round(ms / 60000)]: the nearest integer, a half rounded up. *)
Definition roundedMinutes (ms : Z) : Z := (ms + 30000) / 60000.

Definition formatCountdown (minutes : Z) : string :=
  if minutes <? 60 then
    String.append "In " (String.append (numberToString minutes) "m")
  else
    let hours := minutes / 60 in
    let mins := Z.rem minutes 60 in
    if mins =? 0 then
      String.append "In " (String.append (numberToString hours) "h")
    else
      String.append "In "
        (String.append (numberToString hours)
           (String.append "h" (String.append (numberToString mins) "m"))).

(** [getHours()] and [getMinutes()] of a [Date], in the local time zone of
    the platform. *)
Class LocalTime := {
  getHours : Z -> Z;
  getMinutes : Z -> Z
}.

(** [s.padStart(2, "0")]. *)
Definition padStart2 (s : string) : string :=
  match s with
  | EmptyString => "00"
  | String c EmptyString => String "0" s
  | _ => s
  end.

Definition formatTime `{LocalTime} (date : Z) : string :=
  let hours := getHours date in
  let minutes := getMinutes date in
  let isPM := hours >=? 12 in
  let hour12 := if Z.rem hours 12 =? 0 then 12 else Z.rem hours 12 in
  String.append (numberToString hour12)
    (String.append ":"
       (String.append (padStart2 (numberToString minutes))
          (String.append " " (if isPM then "PM" else "AM")))).

(** The time string of [formatEvent]: [now] is the instant [new Date()]
    reads. *)
Definition eventTimeStr `{LocalTime} (event : CalendarEvent)
  (config : FullConfig) (now : Z) : string :=
  let isHappening := (start event <=? now) && (end_ event >? now) in
  let minutesUntil := roundedMinutes (start event - now) in
  if isHappening then "Now"
  else if (minutesUntil <=? countdownThresholdMinutes config)
          && (minutesUntil >? 0)
  then formatCountdown minutesUntil
  else formatTime (start event).

Definition getMeetingWarning (now : Z) (event : option CalendarEvent)
  : option string :=
  match event with
  | None => None
  | Some event =>
      let minutesUntil := roundedMinutes (start event - now) in
      if (minutesUntil >? 0) && (minutesUntil <=? 5) then
        Some (String.append (color "brightRed")
                (String.append "Meeting in "
                   (String.append (numberToString minutesUntil)
                      (String.append "m - wrap up!" (color "reset")))))
      else None
  end.

(** ** The configuration file and the [config] command

    [loadConfig], [saveConfig], [handleConfig] and [handleAuth], with its
    block that serves [--remove].  What the commands print is not modelled.

    A string is the sequence of its code units, taken below 256.  A number
    of the configuration is an integer. *)

(** What [JSON.parse] reads in [config.json]: an object in which any key may
    be absent; a key that is there has the type [Config] gives it. *)
Record UserConfig := mkUserConfig {
  u_accounts : option (list string);
  u_gmailAccounts : option (list string);
  u_zohoAccounts : option (list ZohoAccount);
  u_lookaheadHours : option Z;
  u_showCalendarName : option bool;
  u_countdownThresholdMinutes : option Z;
  u_maxTitleLength : option Z;
  u_waterReminderEnabled : option bool;
  u_stretchReminderEnabled : option bool;
  u_eyeReminderEnabled : option bool;
  u_showCpuUsage : option bool;
  u_showMemoryUsage : option bool;
  u_showZohoTasks : option bool;
  u_maxTasksToShow : option Z;
  u_showUsageLimits : option bool;
  u_show5HourLimit : option bool;
  u_show7DayLimit : option bool;
  u_usageLimitsCacheTTL : option Z
}.

(** The value of a key in [{ ...defaults, ...userConfig }]. *)
Definition spreadKey {A} (default : A) (user : option A) : A :=
  match user with
  | Some a => a
  | None => default
  end.

(** [{ ...defaults, ...userConfig }]. *)
Definition spread (defaults : FullConfig) (userConfig : UserConfig)
  : FullConfig :=
  {| base :=
       {| accounts :=
            spreadKey (accounts (base defaults)) (u_accounts userConfig);
          gmailAccounts :=
            spreadKey (gmailAccounts (base defaults))
                      (u_gmailAccounts userConfig);
          zohoAccounts :=
            spreadKey (zohoAccounts (base defaults))
                      (u_zohoAccounts userConfig);
          lookaheadHours :=
            spreadKey (lookaheadHours (base defaults))
                      (u_lookaheadHours userConfig);
          showZohoTasks :=
            spreadKey (showZohoTasks (base defaults))
                      (u_showZohoTasks userConfig);
          maxTasksToShow :=
            spreadKey (maxTasksToShow (base defaults))
                      (u_maxTasksToShow userConfig);
          usageLimitsCacheTTL :=
            spreadKey (usageLimitsCacheTTL (base defaults))
                      (u_usageLimitsCacheTTL userConfig) |};
     showCalendarName :=
       spreadKey (showCalendarName defaults) (u_showCalendarName userConfig);
     countdownThresholdMinutes :=
       spreadKey (countdownThresholdMinutes defaults)
                 (u_countdownThresholdMinutes userConfig);
     maxTitleLength :=
       spreadKey (maxTitleLength defaults) (u_maxTitleLength userConfig);
     waterReminderEnabled :=
       spreadKey (waterReminderEnabled defaults)
                 (u_waterReminderEnabled userConfig);
     stretchReminderEnabled :=
       spreadKey (stretchReminderEnabled defaults)
                 (u_stretchReminderEnabled userConfig);
     eyeReminderEnabled :=
       spreadKey (eyeReminderEnabled defaults)
                 (u_eyeReminderEnabled userConfig);
     showCpuUsage :=
       spreadKey (showCpuUsage defaults) (u_showCpuUsage userConfig);
     showMemoryUsage :=
       spreadKey (showMemoryUsage defaults) (u_showMemoryUsage userConfig);
     showUsageLimits :=
       spreadKey (showUsageLimits defaults) (u_showUsageLimits userConfig);
     show5HourLimit :=
       spreadKey (show5HourLimit defaults) (u_show5HourLimit userConfig);
     show7DayLimit :=
       spreadKey (show7DayLimit defaults) (u_show7DayLimit userConfig) |}.

(** What [JSON.stringify(config, null, 2)] puts in the file, as
    [JSON.parse] reads it back. *)
Definition stringify (config : FullConfig) : UserConfig :=
  {| u_accounts := Some (accounts (base config));
     u_gmailAccounts := Some (gmailAccounts (base config));
     u_zohoAccounts := Some (zohoAccounts (base config));
     u_lookaheadHours := Some (lookaheadHours (base config));
     u_showCalendarName := Some (showCalendarName config);
     u_countdownThresholdMinutes := Some (countdownThresholdMinutes config);
     u_maxTitleLength := Some (maxTitleLength config);
     u_waterReminderEnabled := Some (waterReminderEnabled config);
     u_stretchReminderEnabled := Some (stretchReminderEnabled config);
     u_eyeReminderEnabled := Some (eyeReminderEnabled config);
     u_showCpuUsage := Some (showCpuUsage config);
     u_showMemoryUsage := Some (showMemoryUsage config);
     u_showZohoTasks := Some (showZohoTasks (base config));
     u_maxTasksToShow := Some (maxTasksToShow (base config));
     u_showUsageLimits := Some (showUsageLimits config);
     u_show5HourLimit := Some (show5HourLimit config);
     u_show7DayLimit := Some (show7DayLimit config);
     u_usageLimitsCacheTTL := Some (usageLimitsCacheTTL (base config)) |}.

(** *** Assignments to a key of the configuration *)

Definition withBase (f : Config -> Config) (config : FullConfig)
  : FullConfig :=
  {| base := f (base config);
     showCalendarName := showCalendarName config;
     countdownThresholdMinutes := countdownThresholdMinutes config;
     maxTitleLength := maxTitleLength config;
     waterReminderEnabled := waterReminderEnabled config;
     stretchReminderEnabled := stretchReminderEnabled config;
     eyeReminderEnabled := eyeReminderEnabled config;
     showCpuUsage := showCpuUsage config;
     showMemoryUsage := showMemoryUsage config;
     showUsageLimits := showUsageLimits config;
     show5HourLimit := show5HourLimit config;
     show7DayLimit := show7DayLimit config |}.

Definition set_accounts (value : list string) : FullConfig -> FullConfig :=
  withBase (fun b =>
    {| accounts := value;
       gmailAccounts := gmailAccounts b;
       zohoAccounts := zohoAccounts b;
       lookaheadHours := lookaheadHours b;
       showZohoTasks := showZohoTasks b;
       maxTasksToShow := maxTasksToShow b;
       usageLimitsCacheTTL := usageLimitsCacheTTL b |}).

Definition set_gmailAccounts (value : list string)
  : FullConfig -> FullConfig :=
  withBase (fun b =>
    {| accounts := accounts b;
       gmailAccounts := value;
       zohoAccounts := zohoAccounts b;
       lookaheadHours := lookaheadHours b;
       showZohoTasks := showZohoTasks b;
       maxTasksToShow := maxTasksToShow b;
       usageLimitsCacheTTL := usageLimitsCacheTTL b |}).

Definition set_zohoAccounts (value : list ZohoAccount)
  : FullConfig -> FullConfig :=
  withBase (fun b =>
    {| accounts := accounts b;
       gmailAccounts := gmailAccounts b;
       zohoAccounts := value;
       lookaheadHours := lookaheadHours b;
       showZohoTasks := showZohoTasks b;
       maxTasksToShow := maxTasksToShow b;
       usageLimitsCacheTTL := usageLimitsCacheTTL b |}).

Definition set_lookaheadHours (value : Z) : FullConfig -> FullConfig :=
  withBase (fun b =>
    {| accounts := accounts b;
       gmailAccounts := gmailAccounts b;
       zohoAccounts := zohoAccounts b;
       lookaheadHours := value;
       showZohoTasks := showZohoTasks b;
       maxTasksToShow := maxTasksToShow b;
       usageLimitsCacheTTL := usageLimitsCacheTTL b |}).

Definition set_showZohoTasks (value : bool) : FullConfig -> FullConfig :=
  withBase (fun b =>
    {| accounts := accounts b;
       gmailAccounts := gmailAccounts b;
       zohoAccounts := zohoAccounts b;
       lookaheadHours := lookaheadHours b;
       showZohoTasks := value;
       maxTasksToShow := maxTasksToShow b;
       usageLimitsCacheTTL := usageLimitsCacheTTL b |}).

Definition set_maxTasksToShow (value : Z) : FullConfig -> FullConfig :=
  withBase (fun b =>
    {| accounts := accounts b;
       gmailAccounts := gmailAccounts b;
       zohoAccounts := zohoAccounts b;
       lookaheadHours := lookaheadHours b;
       showZohoTasks := showZohoTasks b;
       maxTasksToShow := value;
       usageLimitsCacheTTL := usageLimitsCacheTTL b |}).

Definition set_usageLimitsCacheTTL (value : Z) : FullConfig -> FullConfig :=
  withBase (fun b =>
    {| accounts := accounts b;
       gmailAccounts := gmailAccounts b;
       zohoAccounts := zohoAccounts b;
       lookaheadHours := lookaheadHours b;
       showZohoTasks := showZohoTasks b;
       maxTasksToShow := maxTasksToShow b;
       usageLimitsCacheTTL := value |}).

Definition set_showCalendarName (value : bool) (config : FullConfig)
  : FullConfig :=
  {| base := base config;
     showCalendarName := value;
     countdownThresholdMinutes := countdownThresholdMinutes config;
     maxTitleLength := maxTitleLength config;
     waterReminderEnabled := waterReminderEnabled config;
     stretchReminderEnabled := stretchReminderEnabled config;
     eyeReminderEnabled := eyeReminderEnabled config;
     showCpuUsage := showCpuUsage config;
     showMemoryUsage := showMemoryUsage config;
     showUsageLimits := showUsageLimits config;
     show5HourLimit := show5HourLimit config;
     show7DayLimit := show7DayLimit config |}.

Definition set_countdownThresholdMinutes (value : Z) (config : FullConfig)
  : FullConfig :=
  {| base := base config;
     showCalendarName := showCalendarName config;
     countdownThresholdMinutes := value;
     maxTitleLength := maxTitleLength config;
     waterReminderEnabled := waterReminderEnabled config;
     stretchReminderEnabled := stretchReminderEnabled config;
     eyeReminderEnabled := eyeReminderEnabled config;
     showCpuUsage := showCpuUsage config;
     showMemoryUsage := showMemoryUsage config;
     showUsageLimits := showUsageLimits config;
     show5HourLimit := show5HourLimit config;
     show7DayLimit := show7DayLimit config |}.

Definition set_maxTitleLength (value : Z) (config : FullConfig)
  : FullConfig :=
  {| base := base config;
     showCalendarName := showCalendarName config;
     countdownThresholdMinutes := countdownThresholdMinutes config;
     maxTitleLength := value;
     waterReminderEnabled := waterReminderEnabled config;
     stretchReminderEnabled := stretchReminderEnabled config;
     eyeReminderEnabled := eyeReminderEnabled config;
     showCpuUsage := showCpuUsage config;
     showMemoryUsage := showMemoryUsage config;
     showUsageLimits := showUsageLimits config;
     show5HourLimit := show5HourLimit config;
     show7DayLimit := show7DayLimit config |}.

Definition set_waterReminderEnabled (value : bool) (config : FullConfig)
  : FullConfig :=
  {| base := base config;
     showCalendarName := showCalendarName config;
     countdownThresholdMinutes := countdownThresholdMinutes config;
     maxTitleLength := maxTitleLength config;
     waterReminderEnabled := value;
     stretchReminderEnabled := stretchReminderEnabled config;
     eyeReminderEnabled := eyeReminderEnabled config;
     showCpuUsage := showCpuUsage config;
     showMemoryUsage := showMemoryUsage config;
     showUsageLimits := showUsageLimits config;
     show5HourLimit := show5HourLimit config;
     show7DayLimit := show7DayLimit config |}.

Definition set_stretchReminderEnabled (value : bool) (config : FullConfig)
  : FullConfig :=
  {| base := base config;
     showCalendarName := showCalendarName config;
     countdownThresholdMinutes := countdownThresholdMinutes config;
     maxTitleLength := maxTitleLength config;
     waterReminderEnabled := waterReminderEnabled config;
     stretchReminderEnabled := value;
     eyeReminderEnabled := eyeReminderEnabled config;
     showCpuUsage := showCpuUsage config;
     showMemoryUsage := showMemoryUsage config;
     showUsageLimits := showUsageLimits config;
     show5HourLimit := show5HourLimit config;
     show7DayLimit := show7DayLimit config |}.

Definition set_eyeReminderEnabled (value : bool) (config : FullConfig)
  : FullConfig :=
  {| base := base config;
     showCalendarName := showCalendarName config;
     countdownThresholdMinutes := countdownThresholdMinutes config;
     maxTitleLength := maxTitleLength config;
     waterReminderEnabled := waterReminderEnabled config;
     stretchReminderEnabled := stretchReminderEnabled config;
     eyeReminderEnabled := value;
     showCpuUsage := showCpuUsage config;
     showMemoryUsage := showMemoryUsage config;
     showUsageLimits := showUsageLimits config;
     show5HourLimit := show5HourLimit config;
     show7DayLimit := show7DayLimit config |}.

Definition set_showCpuUsage (value : bool) (config : FullConfig)
  : FullConfig :=
  {| base := base config;
     showCalendarName := showCalendarName config;
     countdownThresholdMinutes := countdownThresholdMinutes config;
     maxTitleLength := maxTitleLength config;
     waterReminderEnabled := waterReminderEnabled config;
     stretchReminderEnabled := stretchReminderEnabled config;
     eyeReminderEnabled := eyeReminderEnabled config;
     showCpuUsage := value;
     showMemoryUsage := showMemoryUsage config;
     showUsageLimits := showUsageLimits config;
     show5HourLimit := show5HourLimit config;
     show7DayLimit := show7DayLimit config |}.

Definition set_showMemoryUsage (value : bool) (config : FullConfig)
  : FullConfig :=
  {| base := base config;
     showCalendarName := showCalendarName config;
     countdownThresholdMinutes := countdownThresholdMinutes config;
     maxTitleLength := maxTitleLength config;
     waterReminderEnabled := waterReminderEnabled config;
     stretchReminderEnabled := stretchReminderEnabled config;
     eyeReminderEnabled := eyeReminderEnabled config;
     showCpuUsage := showCpuUsage config;
     showMemoryUsage := value;
     showUsageLimits := showUsageLimits config;
     show5HourLimit := show5HourLimit config;
     show7DayLimit := show7DayLimit config |}.

Definition set_showUsageLimits (value : bool) (config : FullConfig)
  : FullConfig :=
  {| base := base config;
     showCalendarName := showCalendarName config;
     countdownThresholdMinutes := countdownThresholdMinutes config;
     maxTitleLength := maxTitleLength config;
     waterReminderEnabled := waterReminderEnabled config;
     stretchReminderEnabled := stretchReminderEnabled config;
     eyeReminderEnabled := eyeReminderEnabled config;
     showCpuUsage := showCpuUsage config;
     showMemoryUsage := showMemoryUsage config;
     showUsageLimits := value;
     show5HourLimit := show5HourLimit config;
     show7DayLimit := show7DayLimit config |}.

Definition set_show5HourLimit (value : bool) (config : FullConfig)
  : FullConfig :=
  {| base := base config;
     showCalendarName := showCalendarName config;
     countdownThresholdMinutes := countdownThresholdMinutes config;
     maxTitleLength := maxTitleLength config;
     waterReminderEnabled := waterReminderEnabled config;
     stretchReminderEnabled := stretchReminderEnabled config;
     eyeReminderEnabled := eyeReminderEnabled config;
     showCpuUsage := showCpuUsage config;
     showMemoryUsage := showMemoryUsage config;
     showUsageLimits := showUsageLimits config;
     show5HourLimit := value;
     show7DayLimit := show7DayLimit config |}.

Definition set_show7DayLimit (value : bool) (config : FullConfig)
  : FullConfig :=
  {| base := base config;
     showCalendarName := showCalendarName config;
     countdownThresholdMinutes := countdownThresholdMinutes config;
     maxTitleLength := maxTitleLength config;
     waterReminderEnabled := waterReminderEnabled config;
     stretchReminderEnabled := stretchReminderEnabled config;
     eyeReminderEnabled := eyeReminderEnabled config;
     showCpuUsage := showCpuUsage config;
     showMemoryUsage := showMemoryUsage config;
     showUsageLimits := showUsageLimits config;
     show5HourLimit := show5HourLimit config;
     show7DayLimit := value |}.

(** *** The files

    The world of the commands: [config.json], the names of the files of the
    tokens directory, and whether the configuration directory and what is
    below it can be written; [writeFileSync], [mkdirSync] and [unlinkSync]
    throw when it cannot. *)
Record ConfigWorld := mkConfigWorld {
  configFile : File UserConfig;
  tokenExists : string -> bool;
  writable : bool
}.

Definition loadConfig : M ConfigWorld FullConfig :=
  file <~ gets configFile ;;
  if negb (existsSync file) then ret DEFAULT_FULL_CONFIG
  else
    try_
      (userConfig <~ lift (readJson file) ;;
       let config := spread DEFAULT_FULL_CONFIG userConfig in
       if (0 <? List.length (accounts (base config)))%nat
          && (List.length (gmailAccounts (base config)) =? 0)%nat
       then ret (set_gmailAccounts (accounts (base config)) config)
       else ret config)
      (ret DEFAULT_FULL_CONFIG).

Definition saveConfig (config : FullConfig) : M ConfigWorld unit :=
  fun w =>
    if writable w
    then (Ok tt,
          {| configFile := Stored (stringify config);
             tokenExists := tokenExists w;
             writable := writable w |})
    else (Throw, w).

(** [if (existsSync(path)) unlinkSync(path)]. *)
Definition unlinkIfExists (path : string) : M ConfigWorld unit :=
  fun w =>
    if tokenExists w path then
      if writable w
      then (Ok tt,
            {| configFile := configFile w;
               tokenExists :=
                 fun p => if String.eqb p path then false
                          else tokenExists w p;
               writable := writable w |})
      else (Throw, w)
    else (Ok tt, w).

(** *** The arguments of a command *)

(** How a command ends when it does not throw: it returns, or it calls
    [process.exit] with a code. *)
Inductive Status :=
| Returned
| Exited (code : Z).

(** [args.includes(x)]. *)
Definition includes (args : list string) (x : string) : bool :=
  existsb (fun y => String.eqb y x) args.

(** [args[index + 1]] for an [index] that [indexOf] found. *)
Definition argAfter (args : list string) (index : Z) : option string :=
  nth_error args (Z.to_nat (index + 1)).

(** White space and line terminators, as [parseInt] skips them. *)
Definition isWhiteSpace (c : ascii) : bool :=
  let n := nat_of_ascii c in
  ((9 <=? n) && (n <=? 13) || (n =? 32) || (n =? 160))%nat.

Fixpoint trimStart (s : string) : string :=
  match s with
  | EmptyString => EmptyString
  | String c rest => if isWhiteSpace c then trimStart rest else s
  end.

(** The longest prefix of decimal digits. *)
Fixpoint leadingDigits (s : string) : string :=
  match s with
  | EmptyString => EmptyString
  | String c rest =>
      if isDigit c then String c (leadingDigits rest) else EmptyString
  end.

(** [parseInt(input, 10)], [None] for [NaN].  The integer is the exact one:
    where the double [parseInt] returns is another, both are above every
    bound the commands compare it with. *)
Definition parseInt (input : option string) : option Z :=
  let inputString :=
    match input with
    | Some s => s
    | None => "undefined"%string
    end in
  let trimmed := trimStart inputString in
  let '(sign, rest) :=
    match trimmed with
    | String c rest =>
        if Ascii.eqb c "-" then (-1, rest)
        else if Ascii.eqb c "+" then (1, rest)
        else (1, trimmed)
    | EmptyString => (1, trimmed)
    end in
  let digits := leadingDigits rest in
  match digits with
  | EmptyString => None
  | _ => Some (sign * ToNumber digits)
  end.

(** [toLowerCase] on the letters A to Z; no other code unit below 256
    becomes one of the letters of [true] and [false]. *)
Definition lowerChar (c : ascii) : ascii :=
  let n := nat_of_ascii c in
  if ((65 <=? n) && (n <=? 90))%nat then ascii_of_nat (n + 32) else c.

Fixpoint toLowerCase (s : string) : string :=
  match s with
  | EmptyString => EmptyString
  | String c rest => String (lowerChar c) (toLowerCase rest)
  end.

(** *** [handleConfig]

    The blocks of [handleConfig] after [--reset] have two shapes: one for a
    number between two bounds, one for [true] or [false]. *)

Definition numberOption (args : list string) (flag : string) (lo hi : Z)
  (assign : Z -> FullConfig -> FullConfig) (config : FullConfig)
  (otherwise : M ConfigWorld Status) : M ConfigWorld Status :=
  let index := indexOf args flag in
  if negb (index =? -1) then
    match parseInt (argAfter args index) with
    | None => ret (Exited 1)
    | Some value =>
        if (value <? lo) || (value >? hi) then ret (Exited 1)
        else
          _ <~ saveConfig (assign value config) ;;
          ret Returned
    end
  else otherwise.

Definition booleanOption (args : list string) (flag : string)
  (assign : bool -> FullConfig -> FullConfig) (config : FullConfig)
  (otherwise : M ConfigWorld Status) : M ConfigWorld Status :=
  let index := indexOf args flag in
  if negb (index =? -1) then
    let value := option_map toLowerCase (argAfter args index) in
    if negb (strictEq value "true") && negb (strictEq value "false")
    then ret (Exited 1)
    else
      _ <~ saveConfig (assign (strictEq value "true") config) ;;
      ret Returned
  else otherwise.

(** [{ ...DEFAULT_CONFIG, accounts, gmailAccounts, zohoAccounts }]. *)
Definition resetConfig (config : FullConfig) : FullConfig :=
  set_zohoAccounts (zohoAccounts (base config))
    (set_gmailAccounts (gmailAccounts (base config))
       (set_accounts (accounts (base config)) DEFAULT_FULL_CONFIG)).

Definition handleConfig (args : list string) : M ConfigWorld Status :=
  config <~ loadConfig ;;
  if includes args "--reset" then
    _ <~ saveConfig (resetConfig config) ;;
    ret Returned
  else
  numberOption args "--lookahead" 1 168 set_lookaheadHours config (
  numberOption args "--countdown-threshold" 0 1440
    set_countdownThresholdMinutes config (
  numberOption args "--max-title" 10 500 set_maxTitleLength config (
  booleanOption args "--show-calendar" set_showCalendarName config (
  booleanOption args "--water-reminder" set_waterReminderEnabled config (
  booleanOption args "--stretch-reminder" set_stretchReminderEnabled config (
  booleanOption args "--eye-reminder" set_eyeReminderEnabled config (
  booleanOption args "--cpu-usage" set_showCpuUsage config (
  booleanOption args "--memory-usage" set_showMemoryUsage config (
  booleanOption args "--zoho-tasks" set_showZohoTasks config (
  numberOption args "--max-tasks" 1 10 set_maxTasksToShow config (
  booleanOption args "--show-usage-limits" set_showUsageLimits config (
  booleanOption args "--show-5hour-limit" set_show5HourLimit config (
  booleanOption args "--show-7day-limit" set_show7DayLimit config (
  numberOption args "--usage-cache-ttl" 60 3600
    set_usageLimitsCacheTTL config (
  ret Returned))))))))))))))).

(** *** The [--remove] block of [handleAuth] *)

(** [xs.splice(start, 1)]: what is left in [xs]. *)
Definition splice1 {A} (start : Z) (xs : list A) : list A :=
  let len := Z.of_nat (List.length xs) in
  let from :=
    if start <? 0 then Z.max (len + start) 0 else Z.min start len in
  firstn (Z.to_nat from) xs ++ skipn (S (Z.to_nat from)) xs.

(** [xs.findIndex(p)]. *)
Fixpoint findIndex_from {A} (i : Z) (p : A -> bool) (xs : list A) : Z :=
  match xs with
  | [] => -1
  | x :: rest => if p x then i else findIndex_from (i + 1) p rest
  end.

Definition findIndex {A} (p : A -> bool) (xs : list A) : Z :=
  findIndex_from 0 p xs.

(** [s.startsWith(p)]. *)
Definition startsWith (s p : string) : bool := String.prefix p s.

(** The block of [handleAuth] that serves [--remove]: [handleAuth] below
    enters it when the arguments hold neither [--list] nor [--add] and
    [args.indexOf("--remove")] is not -1. *)
Definition handleRemove (args : list string) : M ConfigWorld Status :=
  let removeIndex := indexOf args "--remove" in
  let arg := argAfter args removeIndex in
  if negb (truthy arg) || startsWith (orElse arg "") "--"
  then ret (Exited 1)
  else
    let address := orElse arg "" in
    config <~ loadConfig ;;
    let gmail :=
      if (0 <? List.length (gmailAccounts (base config)))%nat
      then gmailAccounts (base config) else accounts (base config) in
    let googleIdx := indexOf gmail address in
    if negb (googleIdx =? -1) then
      let config' :=
        if (0 <? List.length (gmailAccounts (base config)))%nat
        then set_gmailAccounts
               (splice1 googleIdx (gmailAccounts (base config))) config
        else set_accounts (splice1 googleIdx (accounts (base config))) config
      in
      _ <~ saveConfig config' ;;
      _ <~ unlinkIfExists (getGoogleTokenPath address) ;;
      _ <~ unlinkIfExists (getLegacyTokenPath address) ;;
      ret Returned
    else
      let zohoIdx :=
        findIndex (fun z => String.eqb (email z) address)
                  (zohoAccounts (base config)) in
      if negb (zohoIdx =? -1) then
        _ <~ saveConfig
               (set_zohoAccounts (splice1 zohoIdx (zohoAccounts (base config)))
                  config) ;;
        _ <~ unlinkIfExists (getZohoTokenPath address) ;;
        ret Returned
      else ret (Exited 1).

(** *** [handleAuth]

    [handleAuth] looks for [--list], then for [--add], then for [--remove],
    and otherwise authenticates every account.  [--list] loads the
    configuration, looks which token files exist, and prints.  The two
    blocks that prompt the user and run the OAuth flow in a browser are not
    modelled: they are the parameters [addAccount], with the arguments and
    the index of [--add], and [authenticateAll]. *)
Definition handleAuth
  (addAccount : list string -> Z -> M ConfigWorld Status)
  (authenticateAll : M ConfigWorld Status)
  (args : list string) : M ConfigWorld Status :=
  if includes args "--list" then
    config <~ loadConfig ;;
    ret Returned
  else
    let addIndex := indexOf args "--add" in
    if negb (addIndex =? -1) then addAccount args addIndex
    else
      let removeIndex := indexOf args "--remove" in
      if negb (removeIndex =? -1) then handleRemove args
      else authenticateAll.

(** ** Notions the properties are stated with *)

(** [e] is the first element of [l], in list order, that satisfies [p]. *)
Definition FirstWith {E} (p : E -> bool) (l : list E) (e : E) : Prop :=
  exists pre post,
    l = pre ++ e :: post /\ Forall (fun x => p x = false) pre /\ p e = true.

Definition NoneWith {E} (p : E -> bool) (l : list E) : Prop :=
  Forall (fun x => p x = false) l.

(** The selection rule of the specification: the first element of the first
    class if there is one; only otherwise the first element of the second
    class; nothing only when both classes are empty. *)
Definition SelectionRule {E} (current next : E -> bool) (l : list E)
  (r : option E) : Prop :=
  (exists e, FirstWith current l e /\ r = Some e)
  \/ (NoneWith current l /\ exists e, FirstWith next l e /\ r = Some e)
  \/ (NoneWith current l /\ NoneWith next l /\ r = None).

(** [a] does not come after [b] by the key [key]. *)
Definition OrderedBy {A} (key : A -> Z) (a b : A) : Prop := key a <= key b.

(** [a] does not come after [b] by the comparator [cmp]. *)
Definition NotAfter {A} (cmp : A -> A -> Z) (a b : A) : Prop := cmp a b <= 0.

(** The instants a [Date] can hold: [TimeClip] is the identity on them. *)
Definition InTimeRange (t : Z) : Prop :=
  -8640000000000000 <= t <= 8640000000000000.

(** What a fetch contributes: its events, or nothing when it throws. *)
Definition caught {A} (r : result (list A)) : list A :=
  match r with
  | Ok l => l
  | Throw => []
  end.

(** The Google accounts the functions iterate over. *)
Definition gmailOf (config : Config) : list string :=
  if (0 <? List.length (gmailAccounts config))%nat
  then gmailAccounts config else accounts config.

(** What each account contributes, in configuration order: the events of
    its fetch, or nothing when the fetch throws. *)
Definition googleSlots `{Platform} (genv : Z -> GoogleFetch)
  (config : Config) (now timeMax : Z) : list (list CalendarEvent) :=
  mapi (fun account i =>
          caught (googleAccountEvents (genv i) now timeMax account
                    (indexOf (getAllAccounts config) account)))
       (gmailOf config).

Definition zohoSlots `{Platform} (zenv : Z -> ZohoFetch)
  (config : Config) (now timeMax : Z) : list (list CalendarEvent) :=
  mapi (fun account idx =>
          caught (zohoAccountEvents (zenv idx) now timeMax account
                    (Z.of_nat (List.length (gmailOf config)) + idx)))
       (zohoAccounts config).

(** All events in account-configuration order: the Google accounts in
    configured order, then the Zoho accounts in configured order. *)
Definition configurationOrder `{Platform} (genv : Z -> GoogleFetch)
  (zenv : Z -> ZohoFetch) (config : Config) (now : Z) : list CalendarEvent :=
  let timeMax := now + lookaheadHours config * 60 * 60 * 1000 in
  flat (googleSlots genv config now timeMax)
  ++ flat (zohoSlots zenv config now timeMax).

Definition startsAt (t : Z) (e : CalendarEvent) : bool := start e =? t.

(** The body of the fetch of the Google account at position [i] completes
    as [r]: [Throw] when it throws, [Ok []] when it returns no events. *)
Definition GoogleFetchGives `{Platform} (genv : Z -> GoogleFetch)
  (config : Config) (now timeMax : Z) (i : Z)
  (r : result (list CalendarEvent)) : Prop :=
  0 <= i /\
  exists account,
    nth_error (gmailOf config) (Z.to_nat i) = Some account
    /\ googleAccountEvents (genv i) now timeMax account
         (indexOf (getAllAccounts config) account) = r.

(** The same for the Zoho account at position [i]. *)
Definition ZohoFetchGives `{Platform} (zenv : Z -> ZohoFetch)
  (config : Config) (now timeMax : Z) (i : Z)
  (r : result (list CalendarEvent)) : Prop :=
  0 <= i /\
  exists account,
    nth_error (zohoAccounts config) (Z.to_nat i) = Some account
    /\ zohoAccountEvents (zenv i) now timeMax account
         (Z.of_nat (List.length (gmailOf config)) + i) = r.

(** The environment [env] with what position [i] meets replaced by [f]. *)
Definition override {A} (env : Z -> A) (i : Z) (f : A) : Z -> A :=
  fun j => if j =? i then f else env j.

(** The entry the cache file holds, as [loadUsageLimitsCache] reads it: the
    empty entry when the file is absent or unreadable. *)
Definition persistedEntry (w : UsageWorld) : UsageLimitsCache :=
  match cacheFile w with
  | Stored c => c
  | _ => emptyCache
  end.

(** The access token the local credentials provide, if they provide one. *)
Definition bearer (w : UsageWorld) : option string :=
  match claudeCredentials w with
  | Stored (Some accessToken) =>
      if String.eqb accessToken "" then None else Some accessToken
  | _ => None
  end.

(** The ways the fetch of the usage limits fails: no local credential; the
    request rejected (network error, timeout); a status that is not 2xx; a
    body that cannot be parsed; a body without a required field. *)
Inductive FetchFails (w : UsageWorld) : Prop :=
| NoCredential :
    bearer w = None -> FetchFails w
| Rejected accessToken :
    bearer w = Some accessToken ->
    usageEndpoint w (requests w) accessToken = Throw ->
    FetchFails w
| BadStatus accessToken response :
    bearer w = Some accessToken ->
    usageEndpoint w (requests w) accessToken = Ok response ->
    ok response = false ->
    FetchFails w
| MalformedBody accessToken response :
    bearer w = Some accessToken ->
    usageEndpoint w (requests w) accessToken = Ok response ->
    ok response = true ->
    json response = Throw ->
    FetchFails w
| MissingField accessToken response body :
    bearer w = Some accessToken ->
    usageEndpoint w (requests w) accessToken = Ok response ->
    ok response = true ->
    json response = Ok body ->
    body_five_hour body = None \/ body_seven_day body = None ->
    FetchFails w.

(** The persisted entry is not a fresh one at [now]: it has no data, or its
    age has reached the configured TTL. *)
Definition Stale (config : Config) (now : Z) (w : UsageWorld) : Prop :=
  data (persistedEntry w) = None
  \/ now - fetchedAt (persistedEntry w) >= usageLimitsCacheTTL config * 1000.

(** The world [w] with its cache file replaced. *)
Definition withCacheFile (w : UsageWorld) (file : File UsageLimitsCache)
  : UsageWorld :=
  {| cacheFile := file;
     configDirWritable := configDirWritable w;
     claudeCredentials := claudeCredentials w;
     usageEndpoint := usageEndpoint w;
     requests := requests w |}.

(** The world [w] after one more request to the usage endpoint. *)
Definition afterRequest (w : UsageWorld) : UsageWorld :=
  {| cacheFile := cacheFile w;
     configDirWritable := configDirWritable w;
     claudeCredentials := claudeCredentials w;
     usageEndpoint := usageEndpoint w;
     requests := S (requests w) |}.

(** The request of the refresh exchange for a stored token. *)
Definition refreshRequest (credentials : ZohoCredentials) (dc : Datacenter)
  (token : ZohoToken) : TokenRequest :=
  {| req_url := String.append (dc_accounts dc) "/oauth/v2/token";
     req_client_id := client_id credentials;
     req_client_secret := client_secret credentials;
     req_refresh_token := refresh_token token |}.

(** The world [w] after one refresh exchange. *)
Definition afterExchange (w : ZohoWorld) : ZohoWorld :=
  {| tokenFiles := tokenFiles w;
     tokensWritable := tokensWritable w;
     zohoCredentialsFile := zohoCredentialsFile w;
     tokenEndpoint := tokenEndpoint w;
     clock := clock w + latency w;
     latency := latency w;
     exchanges := S (exchanges w) |}.

(** The world [w] with the token file at [path] holding [token]. *)
Definition withTokenFile (w : ZohoWorld) (path : string) (token : ZohoToken)
  : ZohoWorld :=
  {| tokenFiles :=
       fun p => if String.eqb p path then Stored token else tokenFiles w p;
     tokensWritable := tokensWritable w;
     zohoCredentialsFile := zohoCredentialsFile w;
     tokenEndpoint := tokenEndpoint w;
     clock := clock w;
     latency := latency w;
     exchanges := exchanges w |}.

(** The stored record with [access_token] and [expires_at] overwritten from
    the body of the answer, read at the instant [now]. *)
Definition refreshed (token : ZohoToken) (body : TokenBody) (now : Z)
  : ZohoToken :=
  {| access_token := body_access_token body;
     refresh_token := refresh_token token;
     expires_at :=
       match body_expires_in body with
       | Some expires_in => Some (now + expires_in * 1000)
       | None => None
       end;
     api_domain := api_domain token |}.

(** The token of [account] is valid beyond the 5 minute buffer in [w]. *)
Definition beyondBuffer (token : ZohoToken) (w : ZohoWorld) : bool :=
  expiresAfter (expires_at token) (clock w + 300000).

(** Well-formed Zoho date strings: the fields written with leading zeros,
    [YYYYMMDD'T'HHmmss], followed by a zone indicator. *)
Definition digitChar (k : Z) : ascii := ascii_of_N (Z.to_N (48 + k)).

Definition pad2 (n : Z) : string :=
  String (digitChar (n / 10)) (String (digitChar (n mod 10)) EmptyString).

Definition pad4 (n : Z) : string :=
  String (digitChar (n / 1000))
    (String (digitChar (n / 100 mod 10))
       (String (digitChar (n / 10 mod 10))
          (String (digitChar (n mod 10)) EmptyString))).

Definition zohoDateString (year month day hour min sec : Z) (zone : string)
  : string :=
  String.append (pad4 year)
    (String.append (pad2 month)
       (String.append (pad2 day)
          (String "T"
             (String.append (pad2 hour)
                (String.append (pad2 min)
                   (String.append (pad2 sec) zone)))))).

(** A signed 4-digit zone offset, [+HHMM] or [-HHMM]. *)
Definition zoneOffset (sign : ascii) (tzHour tzMin : Z) : string :=
  String sign (String.append (pad2 tzHour) (pad2 tzMin)).

(** The fields of a wall time are in the range their digits allow. *)
Definition InDigits (year month day hour min sec : Z) : Prop :=
  0 <= year < 10000 /\ 0 <= month < 100 /\ 0 <= day < 100
  /\ 0 <= hour < 100 /\ 0 <= min < 100 /\ 0 <= sec < 100.

(** *** Wall time

    The instant at which the clocks of UTC show a wall time, counted from
    the epoch on the Gregorian calendar day by day: it does not go through
    the arithmetic of [Date.UTC]. *)










(** The same notions for the first version of the calendar module. *)
Definition legacyInProgress (now : Z) (event : Legacy.CalendarEvent) : bool :=
  (Legacy.start event <=? now) && (Legacy.end_ event >? now).

Definition legacyUpcoming (now : Z) (event : Legacy.CalendarEvent) : bool :=
  Legacy.start event >? now.

Definition legacyOrder `{Platform} (env : Z -> GoogleFetch)
  (config : Legacy.Config) (now : Z) : list Legacy.CalendarEvent :=
  let timeMax := now + Legacy.lookaheadHours config * 60 * 60 * 1000 in
  flat (mapi (fun account accountIndex =>
                caught (Legacy.accountEvents (env accountIndex) now timeMax
                          account accountIndex))
             (Legacy.accounts config)).

(** ** Concrete worlds, for examples *)

(** A platform in the UTC time zone. *)
Definition utcPlatform : Platform :=
  {| LocalTZA := fun _ => 0;
     newDate := fun _ => 0 |}.


Definition alice : ZohoAccount :=
  {| email := "alice@example.com"; datacenter := "com" |}.

Definition storedToken : ZohoToken :=
  {| access_token := Some "access-1"%string;
     refresh_token := "refresh-1";
     expires_at := Some 1000000;
     api_domain := Some "https://www.zohoapis.com"%string |}.

(** A world at instant 900000 in which the token of [alice] expires at
    1000000, within the buffer, and the token endpoint gives [answer]. *)
Definition aliceWorld (credentials : File ZohoCredentials)
  (answer : result (Response TokenBody)) : ZohoWorld :=
  {| tokenFiles :=
       fun p => if String.eqb p (getZohoTokenPath (email alice))
                then Stored storedToken else Missing;
     tokensWritable := true;
     zohoCredentialsFile := credentials;
     tokenEndpoint := fun _ => answer;
     clock := 900000;
     latency := 250;
     exchanges := 0 |}.

Definition clientCredentials : ZohoCredentials :=
  {| client_id := "client"; client_secret := "secret" |}.

(** A 200 answer with a new access token and no refresh token. *)
Definition goodAnswer : result (Response TokenBody) :=
  Ok (mkResponse true
        (Ok {| body_access_token := Some "access-2"%string;
               body_expires_in := Some 3600;
               body_refresh_token := None |})).

(** A 200 answer whose body is an object without the token fields, as for
    [{"error": "invalid_code"}]. *)
Definition errorAnswer : result (Response TokenBody) :=
  Ok (mkResponse true
        (Ok {| body_access_token := None;
               body_expires_in := None;
               body_refresh_token := None |})).

(** Two open tasks without a due date, the one of priority Normal before
    the one of priority High, and two tasks due on the same day, the one of
    priority Low before the one of priority High. *)
Definition normalTask : RawTask :=
  {| t_id := Some "1"%string;
     t_title := Some "Water the plants"%string;
     t_description := None;
     t_dueDate := None;
     t_priority := Some "Normal"%string;
     t_status := Some "Open"%string |}.

Definition highTask : RawTask :=
  {| t_id := Some "2"%string;
     t_title := Some "Fix the outage"%string;
     t_description := None;
     t_dueDate := None;
     t_priority := Some "High"%string;
     t_status := Some "Open"%string |}.

Definition lowTaskDue : RawTask :=
  {| t_id := Some "3"%string;
     t_title := Some "Tidy the desk"%string;
     t_description := None;
     t_dueDate := Some [10; 1; 2026];
     t_priority := Some "Low"%string;
     t_status := Some "Open"%string |}.

Definition highTaskDue : RawTask :=
  {| t_id := Some "4"%string;
     t_title := Some "Renew the certificate"%string;
     t_description := None;
     t_dueDate := Some [10; 1; 2026];
     t_priority := Some "High"%string;
     t_status := Some "Open"%string |}.

(** The account [alice] with a token that refreshes and a tasks request
    answered with [tasks], at the instant [now]. *)
Definition aliceTasks (tasks : list RawTask) (now : Z) : TaskFetch :=
  {| taskTokenWorld := aliceWorld (Stored clientCredentials) goodAnswer;
     tasksResponse := Ok (mkResponse true (Ok (Some (map Ok tasks))));
     tasksNow := now |}.

Definition aliceConfig : Config :=
  {| accounts := [];
     gmailAccounts := ["bob@gmail.com"%string; "carol@example.org"%string];
     zohoAccounts := [alice];
     lookaheadHours := 8;
     showZohoTasks := true;
     maxTasksToShow := 3;
     usageLimitsCacheTTL := 120 |}.

(** Google accounts: the first without credentials (the client cannot be
    made), the second with one event from 1000 to 2000. *)
Definition standup : GoogleRawEvent :=
  {| g_id := Some "e1"%string;
     g_summary := Some "Standup"%string;
     g_start := Some (mkGoogleEventTime (Some "1000"%string) None);
     g_end := Some (mkGoogleEventTime (Some "2000"%string) None) |}.

Definition googleWorld : Z -> GoogleFetch :=
  fun i =>
    if i =? 0
    then {| authClient := Throw; eventsList := fun _ _ => Throw |}
    else {| authClient := Ok true;
            eventsList := fun _ _ => Ok (Some [standup]) |}.

Definition quietGoogle : GoogleFetch :=
  {| authClient := Ok true;
     eventsList := fun _ _ => Ok (Some []) |}.

(** Zoho accounts: a token file that cannot be read, and one without a
    token file. *)
Definition brokenZoho : ZohoFetch :=
  {| tokenWorld :=
       {| tokenFiles := fun _ => Unreadable;
          tokensWritable := true;
          zohoCredentialsFile := Stored clientCredentials;
          tokenEndpoint := fun _ => goodAnswer;
          clock := 900000;
          latency := 250;
          exchanges := 0 |};
     calendarsResponse := Throw;
     eventsResponse := fun _ _ _ => Throw |}.

Definition quietZoho : ZohoFetch :=
  {| tokenWorld :=
       {| tokenFiles := fun _ => Missing;
          tokensWritable := true;
          zohoCredentialsFile := Stored clientCredentials;
          tokenEndpoint := fun _ => goodAnswer;
          clock := 900000;
          latency := 250;
          exchanges := 0 |};
     calendarsResponse := Throw;
     eventsResponse := fun _ _ _ => Throw |}.

(** Usage worlds: a cache entry fetched at instant 1000, and an endpoint
    that gives [answer]. *)
Definition someLimits : UsageLimits :=
  {| five_hour := mkLimit 40 "2026-01-09T12:00:00Z";
     seven_day := mkLimit 10 "2026-01-12T00:00:00Z" |}.

Definition usageWorld (file : File UsageLimitsCache)
  (answer : result (Response UsageBody)) : UsageWorld :=
  {| cacheFile := file;
     configDirWritable := true;
     claudeCredentials := Stored (Some "token"%string);
     usageEndpoint := fun _ _ => answer;
     requests := 0 |}.



(** ** Notions for the further properties *)

(** An event names its account: its [accountIndex] is a position of the
    combined account list, the account there is its [accountEmail], its
    [account] label is the name extracted from that address, and its title
    is not empty. *)
Definition EventOf (config : Config) (e : CalendarEvent) : Prop :=
  0 <= accountIndex e
  /\ nth_error (getAllAccounts config) (Z.to_nat (accountIndex e))
     = Some (accountEmail e)
  /\ account e = extractAccountName (accountEmail e)
  /\ title e <> EmptyString.

(** What the body of one account pushes, and how it ends, on an empty
    array. *)
Definition tasksPushed `{Platform} (fetch : TaskFetch)
  (account : ZohoAccount) : list ZohoTask :=
  snd (zohoAccountTasks fetch account []).

(** The body of the tasks fetch of the Zoho account at position [i] ends as
    [r], having pushed [pushed] onto the array it found. *)
Definition TaskFetchGives `{Platform} (env : Z -> TaskFetch)
  (config : Config) (i : Z) (r : result unit) (pushed : list ZohoTask)
  : Prop :=
  0 <= i /\
  exists account,
    nth_error (zohoAccounts config) (Z.to_nat i) = Some account
    /\ forall allTasks,
         zohoAccountTasks (env i) account allTasks
         = (r, allTasks ++ pushed).

(** [t] is a task the Zoho account at position [i] pushed. *)
Definition PushedBy `{Platform} (env : Z -> TaskFetch) (config : Config)
  (i : Z) (t : ZohoTask) : Prop :=
  0 <= i /\
  exists account,
    nth_error (zohoAccounts config) (Z.to_nat i) = Some account
    /\ In t (tasksPushed (env i) account).

(** A tasks answer of [alice] whose second entry cannot be read, between
    two tasks that can. *)
Definition partialTasks : TaskFetch :=
  {| taskTokenWorld := aliceWorld (Stored clientCredentials) goodAnswer;
     tasksResponse :=
       Ok (mkResponse true
             (Ok (Some [Ok normalTask; Throw; Ok highTask])));
     tasksNow := 0 |}.

(** The characters the pattern [/[^a-zA-Z0-9@.-]/] keeps, and those a
    token file name can hold. *)
Definition keptChar (c : ascii) : bool :=
  let n := nat_of_ascii c in
  ((97 <=? n) && (n <=? 122) || (65 <=? n) && (n <=? 90)
   || (48 <=? n) && (n <=? 57)
   || (n =? 64) || (n =? 46) || (n =? 45))%nat.

Definition fileNameChar (c : ascii) : bool :=
  keptChar c || Ascii.eqb c "_".

Fixpoint stringForall (p : ascii -> bool) (s : string) : bool :=
  match s with
  | EmptyString => true
  | String c rest => p c && stringForall p rest
  end.

(** [c] occurs in [s]. *)
Fixpoint hasChar (c : ascii) (s : string) : bool :=
  match s with
  | EmptyString => false
  | String x rest => Ascii.eqb x c || hasChar c rest
  end.

(** The warning [getMeetingWarning] gives for [n] minutes. *)
Definition meetingWarningText (n : Z) : string :=
  String.append (color "brightRed")
    (String.append "Meeting in "
       (String.append (numberToString n)
          (String.append "m - wrap up!" (color "reset")))).

(** A local time that reads a time value as milliseconds of a day in UTC. *)
Definition utcLocalTime : LocalTime :=
  {| getHours := fun t => (t / 3600000) mod 24;
     getMinutes := fun t => (t / 60000) mod 60 |}.

(** The hours and minutes of a day, and the test that [f] tells any two of
    them apart. *)
Definition dayMinutes : list (Z * Z) :=
  flat_map (fun h => map (fun m => (Z.of_nat h, Z.of_nat m)) (seq 0 60))
           (seq 0 24).

Definition tellsApart (f : Z * Z -> string) (l : list (Z * Z)) : bool :=
  let written := map (fun p => (p, f p)) l in
  forallb (fun a =>
             forallb (fun b =>
                        implb (String.eqb (snd a) (snd b))
                              ((fst (fst a) =? fst (fst b))
                               && (snd (fst a) =? snd (fst b))))
                     written)
          written.

(** The local time on which every date reads the hours and minutes [p]. *)
Definition fixedLocalTime (p : Z * Z) : LocalTime :=
  {| getHours := fun _ => fst p;
     getMinutes := fun _ => snd p |}.

(** *** Notions for the configuration commands *)

(** The world after [config] was written to [config.json]. *)
Definition withConfigFile (config : FullConfig) (w : ConfigWorld)
  : ConfigWorld :=
  {| configFile := Stored (stringify config);
     tokenExists := tokenExists w;
     writable := writable w |}.

(** The legacy list has been taken over: the list of Google accounts is
    empty only when the legacy list is. *)
Definition Migrated (c : FullConfig) : Prop :=
  gmailAccounts (base c) = [] -> accounts (base c) = [].

(** The numbers [handleConfig] sets, with their bounds, and the flags it
    sets. *)
Definition numberSettings : list (Z * Z * (Z -> FullConfig -> FullConfig)) :=
  [ (1, 168, set_lookaheadHours);
    (0, 1440, set_countdownThresholdMinutes);
    (10, 500, set_maxTitleLength);
    (1, 10, set_maxTasksToShow);
    (60, 3600, set_usageLimitsCacheTTL) ].

Definition booleanSettings : list (bool -> FullConfig -> FullConfig) :=
  [ set_showCalendarName; set_waterReminderEnabled;
    set_stretchReminderEnabled; set_eyeReminderEnabled;
    set_showCpuUsage; set_showMemoryUsage; set_showZohoTasks;
    set_showUsageLimits; set_show5HourLimit; set_show7DayLimit ].

(** [c'] is [c] with one setting assigned, a number within its bounds. *)
Inductive SettingChange (c : FullConfig) : FullConfig -> Prop :=
| change_number lo hi assign v :
    In (lo, hi, assign) numberSettings -> lo <= v <= hi ->
    SettingChange c (assign v c)
| change_boolean assign b :
    In assign booleanSettings ->
    SettingChange c (assign b c).

(** How a call of [handleConfig] on the configuration [c] ends: it exits
    with 1 or returns without writing, or it goes on to write one changed
    configuration. *)
Definition ConfigOutcome (c : FullConfig) (w : ConfigWorld)
  (r : result Status * ConfigWorld) : Prop :=
  r = (Ok (Exited 1), w) \/ r = (Ok Returned, w)
  \/ exists c', SettingChange c c'
                /\ r = (_ <~ saveConfig c' ;; ret Returned) w.

(** The settings of a configuration, beside its accounts. *)
Definition settings (c : FullConfig) : list Z :=
  [ lookaheadHours (base c); countdownThresholdMinutes c; maxTitleLength c;
    Z.b2z (showCalendarName c); Z.b2z (waterReminderEnabled c);
    Z.b2z (stretchReminderEnabled c); Z.b2z (eyeReminderEnabled c);
    Z.b2z (showCpuUsage c); Z.b2z (showMemoryUsage c);
    Z.b2z (showZohoTasks (base c)); maxTasksToShow (base c);
    Z.b2z (showUsageLimits c); Z.b2z (show5HourLimit c);
    Z.b2z (show7DayLimit c); usageLimitsCacheTTL (base c) ].

(** The number of places at which two lists differ. *)
Definition differences (l l' : list Z) : nat :=
  List.length (filter (fun p => negb (fst p =? snd p)) (combine l l')).

Definition SameAccounts (c c' : FullConfig) : Prop :=
  accounts (base c') = accounts (base c)
  /\ gmailAccounts (base c') = gmailAccounts (base c)
  /\ zohoAccounts (base c') = zohoAccounts (base c).

(** The bounds [handleConfig] checks. *)
Definition SettingsInRange (c : FullConfig) : Prop :=
  1 <= lookaheadHours (base c) <= 168
  /\ 0 <= countdownThresholdMinutes c <= 1440
  /\ 10 <= maxTitleLength c <= 500
  /\ 1 <= maxTasksToShow (base c) <= 10
  /\ 60 <= usageLimitsCacheTTL (base c) <= 3600.

(** The two kinds of flags of [handleConfig]: a number with its bounds, or
    [true] or [false]; each with the assignment its block makes. *)
Inductive FlagKind :=
| numberFlag (lo hi : Z) (assign : Z -> FullConfig -> FullConfig)
| booleanFlag (assign : bool -> FullConfig -> FullConfig).

(** The flags in the order in which [handleConfig] looks for them after
    [--reset], each with the place of its setting in [settings]. *)
Definition configFlags : list (string * nat * FlagKind) :=
  [ ("--lookahead"%string, 0%nat, numberFlag 1 168 set_lookaheadHours);
    ("--countdown-threshold"%string, 1%nat,
     numberFlag 0 1440 set_countdownThresholdMinutes);
    ("--max-title"%string, 2%nat, numberFlag 10 500 set_maxTitleLength);
    ("--show-calendar"%string, 3%nat, booleanFlag set_showCalendarName);
    ("--water-reminder"%string, 4%nat,
     booleanFlag set_waterReminderEnabled);
    ("--stretch-reminder"%string, 5%nat,
     booleanFlag set_stretchReminderEnabled);
    ("--eye-reminder"%string, 6%nat, booleanFlag set_eyeReminderEnabled);
    ("--cpu-usage"%string, 7%nat, booleanFlag set_showCpuUsage);
    ("--memory-usage"%string, 8%nat, booleanFlag set_showMemoryUsage);
    ("--zoho-tasks"%string, 9%nat, booleanFlag set_showZohoTasks);
    ("--max-tasks"%string, 10%nat, numberFlag 1 10 set_maxTasksToShow);
    ("--show-usage-limits"%string, 11%nat, booleanFlag set_showUsageLimits);
    ("--show-5hour-limit"%string, 12%nat, booleanFlag set_show5HourLimit);
    ("--show-7day-limit"%string, 13%nat, booleanFlag set_show7DayLimit);
    ("--usage-cache-ttl"%string, 14%nat,
     numberFlag 60 3600 set_usageLimitsCacheTTL) ].

(** The flag a call serves: the first of [configFlags] that the arguments
    hold, wherever it is among them. *)
Definition servedFlag (args : list string)
  : option (string * nat * FlagKind) :=
  find (fun entry => includes args (fst (fst entry))) configFlags.

(** The arguments make [handleAuth] serve [--remove]: they hold that flag
    and neither [--list] nor [--add], which it looks for first. *)
Definition ServesRemove (args : list string) : Prop :=
  includes args "--list" = false
  /\ includes args "--add" = false
  /\ includes args "--remove" = true.

(** [xs] without the first [x] in it. *)
Fixpoint removeFirst (x : string) (xs : list string) : list string :=
  match xs with
  | [] => []
  | y :: rest => if String.eqb y x then rest else y :: removeFirst x rest
  end.

(** A configuration of the first version: two accounts in the legacy list,
    and a world that holds it with the token of the first account. *)
Definition legacyFile : UserConfig :=
  {| u_accounts := Some ["alice@gmail.com"; "bob@work.com"]%string;
     u_gmailAccounts := None;
     u_zohoAccounts := None;
     u_lookaheadHours := Some 12;
     u_showCalendarName := Some false;
     u_countdownThresholdMinutes := Some 30;
     u_maxTitleLength := Some 40;
     u_waterReminderEnabled := None;
     u_stretchReminderEnabled := None;
     u_eyeReminderEnabled := None;
     u_showCpuUsage := None;
     u_showMemoryUsage := None;
     u_showZohoTasks := None;
     u_maxTasksToShow := None;
     u_showUsageLimits := None;
     u_show5HourLimit := None;
     u_show7DayLimit := None;
     u_usageLimitsCacheTTL := None |}.

Definition legacyWorld : ConfigWorld :=
  {| configFile := Stored legacyFile;
     tokenExists := fun p => String.eqb p "alice@gmail.com.json";
     writable := true |}.

(** A configuration of the first version with one account, and a world that
    holds it. *)
Definition soloFile : UserConfig :=
  {| u_accounts := Some ["alice@gmail.com"]%string;
     u_gmailAccounts := None;
     u_zohoAccounts := None;
     u_lookaheadHours := Some 12;
     u_showCalendarName := None;
     u_countdownThresholdMinutes := None;
     u_maxTitleLength := None;
     u_waterReminderEnabled := None;
     u_stretchReminderEnabled := None;
     u_eyeReminderEnabled := None;
     u_showCpuUsage := None;
     u_showMemoryUsage := None;
     u_showZohoTasks := None;
     u_maxTasksToShow := None;
     u_showUsageLimits := None;
     u_show5HourLimit := None;
     u_show7DayLimit := None;
     u_usageLimitsCacheTTL := None |}.

Definition soloWorld : ConfigWorld :=
  {| configFile := Stored soloFile;
     tokenExists := fun p => String.eqb p "google_alice@gmail.com.json";
     writable := true |}.

(** [xs] without the first entry that [p] holds of. *)
Fixpoint removeFirstWith {A} (p : A -> bool) (xs : list A) : list A :=
  match xs with
  | [] => []
  | x :: rest => if p x then rest else x :: removeFirstWith p rest
  end.

(** A configuration with a Google and a Zoho account, and a world that
    holds it with the tokens of both. *)
Definition mixedFile : UserConfig :=
  {| u_accounts := Some [];
     u_gmailAccounts := Some ["alice@gmail.com"]%string;
     u_zohoAccounts := Some [mkZohoAccount "bob@work.com" "eu"];
     u_lookaheadHours := Some 8;
     u_showCalendarName := None;
     u_countdownThresholdMinutes := None;
     u_maxTitleLength := None;
     u_waterReminderEnabled := None;
     u_stretchReminderEnabled := None;
     u_eyeReminderEnabled := None;
     u_showCpuUsage := None;
     u_showMemoryUsage := None;
     u_showZohoTasks := None;
     u_maxTasksToShow := None;
     u_showUsageLimits := None;
     u_show5HourLimit := None;
     u_show7DayLimit := None;
     u_usageLimitsCacheTTL := None |}.

Definition mixedWorld : ConfigWorld :=
  {| configFile := Stored mixedFile;
     tokenExists := fun p =>
       String.eqb p "google_alice@gmail.com.json"
       || String.eqb p "zoho_bob@work.com.json";
     writable := true |}.

(** Two lists that are the same but at place [n]. *)
Fixpoint sameBut (n : nat) (l l' : list Z) : Prop :=
  match l, l' with
  | [], [] => True
  | x :: r, y :: r' =>
      match n with
      | O => r = r'
      | S m => x = y /\ sameBut m r r'
      end
  | _, _ => False
  end.

(** ** Events whose dates can be invalid

    The time value of a [Date] is a number within the range of [TimeClip],
    or NaN: the date is then an Invalid Date.  The definitions above take
    every date to be valid.  This module has the functions that make and
    sort the events once more, on time values that can be NaN, to follow
    [getUpcomingEvents] when [new Date] does not read a string it is given. *)

Module TimeValues.

(** A time value: [None] is NaN. *)
Definition TimeValue : Type := option Z.

Definition TimeClip (t : Z) : TimeValue :=
  if Z.abs t <=? 8640000000000000 then Some t else None.

(** [new Date(value)] for a number [value]. *)
Definition Date_of (value : TimeValue) : TimeValue :=
  match value with
  | Some t => TimeClip t
  | None => None
  end.

(** [value + n] for a number [n] that is not NaN. *)
Definition plus (value : TimeValue) (n : Z) : TimeValue :=
  match value with
  | Some t => Some (t + n)
  | None => None
  end.

(** [Date.UTC(year, month, date, hours, minutes, seconds)]. *)
Definition Date_UTC (year month date hours minutes seconds : Z) : TimeValue :=
  TimeClip (MakeDate (MakeDay (MakeFullYear year) month date)
                     (MakeTime hours minutes seconds 0)).

(** What the program takes from the platform it runs on: the offset of the
    local time zone at a local time value, and the time value of
    [new Date(v)] for [v] a string or [undefined]: NaN when [v] is no date
    the platform reads. *)
Class Platform := {
  LocalTZA : Z -> Z;
  newDate : option string -> TimeValue
}.

(** The time value of [new Date(year, month, date, hours, minutes,
    seconds)]. *)
Definition Date_local `{Platform}
  (year month date hours minutes seconds : Z) : TimeValue :=
  let t := MakeDate (MakeDay (MakeFullYear year) month date)
                    (MakeTime hours minutes seconds 0) in
  TimeClip (t - LocalTZA t).

Record CalendarEvent := mkEvent {
  id : string;
  title : string;
  start : TimeValue;
  end_ : TimeValue;
  isAllDay : bool;
  account : string;
  accountEmail : string;
  accountIndex : Z;
  provider : Provider
}.

(** The time value of the date [parseZohoDate(dateStr)] returns. *)
Definition parseZohoDate `{Platform} (dateStr : string) : TimeValue :=
  match matchZohoDate dateStr with
  | Some m =>
      let year := ToNumber (m_year m) in
      let month := ToNumber (m_month m) in
      let day := ToNumber (m_day m) in
      let hour := ToNumber (m_hour m) in
      let min := ToNumber (m_min m) in
      let sec := ToNumber (m_sec m) in
      if strictEq (m_tz m) "Z" then
        Date_of (Date_UTC year (month - 1) day hour min sec)
      else
        match m_sign m, m_tzHour m, m_tzMin m with
        | Some sign, Some tzHour, Some tzMin =>
            if truthy (Some sign) && truthy (Some tzHour)
               && truthy (Some tzMin)
            then
              let offsetMinutes :=
                (ToNumber tzHour * 60 + ToNumber tzMin)
                * (if String.eqb sign "+" then -1 else 1) in
              let utc := Date_UTC year (month - 1) day hour min sec in
              Date_of (plus utc (offsetMinutes * 60000))
            else Date_local year (month - 1) day hour min sec
        | _, _, _ => Date_local year (month - 1) day hour min sec
        end
  | None => newDate (Some dateStr)
  end.

Definition googleEvent `{Platform} (account : string) (accountIndex : Z)
  (event : GoogleRawEvent) : CalendarEvent :=
  let startDateTime :=
    match g_start event with Some t => dateTime t | None => None end in
  let endDateTime :=
    match g_end event with Some t => dateTime t | None => None end in
  let startDate :=
    match g_start event with Some t => date t | None => None end in
  let endDate :=
    match g_end event with Some t => date t | None => None end in
  let isAllDay := negb (truthy startDateTime) in
  {| id := orElse (g_id event) "";
     title := orElse (g_summary event) "(No title)";
     start := if isAllDay then newDate (Some (midnightOf startDate))
              else newDate startDateTime;
     end_ := if isAllDay then newDate (Some (midnightOf endDate))
             else newDate endDateTime;
     isAllDay := isAllDay;
     account := extractAccountName account;
     accountEmail := account;
     accountIndex := accountIndex;
     provider := google |}.

(** The body of the [try] of one Google account. *)
Definition googleAccountEvents `{Platform} (fetch : GoogleFetch)
  (now timeMax : Z) (account : string) (accountIndex : Z)
  : result (list CalendarEvent) :=
  auth <- authClient fetch ;;
  if negb auth then Ok []
  else
    items <- eventsList fetch now timeMax ;;
    let events := match items with Some l => l | None => [] end in
    Ok (map (googleEvent account accountIndex) events).

Definition getGoogleEvents `{Platform} (env : Z -> GoogleFetch)
  (config : Config) (now timeMax : Z) : result (list CalendarEvent) :=
  let gmail :=
    if (0 <? List.length (gmailAccounts config))%nat
    then gmailAccounts config else accounts config in
  let allAccounts := getAllAccounts config in
  let eventPromises :=
    mapi (fun account i =>
            let accountIndex := indexOf allAccounts account in
            try_catch
              (googleAccountEvents (env i) now timeMax account accountIndex)
              [])
         gmail in
  results <- Promise_all eventPromises ;;
  Ok (flat results).

(** [parseZohoDate(v)] for [v] a string or [undefined]: [undefined.match]
    is a TypeError. *)
Definition callParseZohoDate `{Platform} (v : option string)
  : result TimeValue :=
  match v with
  | Some dateStr => Ok (parseZohoDate dateStr)
  | None => Throw
  end.

Definition zohoEvent `{Platform} (account : ZohoAccount) (accountIndex : Z)
  (event : ZohoRawEvent) : result CalendarEvent :=
  let isAllDay := z_isallday event in
  times <-
    match z_dateandtime event with
    | Some dateandtime =>
        start <- callParseZohoDate (dt_start dateandtime) ;;
        end_ <- callParseZohoDate (dt_end dateandtime) ;;
        Ok (start, end_)
    | None =>
        start <- callParseZohoDate (z_start event) ;;
        end_ <- callParseZohoDate (z_end event) ;;
        Ok (start, end_)
    end ;;
  Ok {| id := orElse (z_uid event) "";
        title := orElse (z_title event) "(No title)";
        start := fst times;
        end_ := snd times;
        isAllDay := isAllDay;
        account := extractAccountName (email account);
        accountEmail := email account;
        accountIndex := accountIndex;
        provider := zoho |}.

(** The body of the [try] of one Zoho account. *)
Definition zohoAccountEvents `{Platform} (fetch : ZohoFetch)
  (now timeMax : Z) (account : ZohoAccount) (accountIndex : Z)
  : result (list CalendarEvent) :=
  token <- fst (refreshZohoToken account (tokenWorld fetch)) ;;
  match token with
  | None => Ok []
  | Some _ =>
      match ZOHO_DATACENTERS (datacenter account) with
      | None => Throw
      | Some dc =>
          calendarsResponse <- calendarsResponse fetch ;;
          if negb (ok calendarsResponse) then Ok []
          else
            calendarsData <- json calendarsResponse ;;
            let calendars :=
              match calendarsData with Some l => l | None => [] end in
            match calendars with
            | [] => Ok []
            | first :: _ =>
                let primaryCalendar :=
                  match find cal_isdefault calendars with
                  | Some c => c
                  | None => first
                  end in
                let calendarUid := cal_uid primaryCalendar in
                eventsResponse <-
                  eventsResponse fetch calendarUid now timeMax ;;
                if negb (ok eventsResponse) then Ok []
                else
                  eventsData <- json eventsResponse ;;
                  let events :=
                    match eventsData with Some l => l | None => [] end in
                  mapResult (zohoEvent account accountIndex) events
            end
      end
  end.

Definition getZohoEvents `{Platform} (env : Z -> ZohoFetch)
  (config : Config) (now timeMax : Z) : result (list CalendarEvent) :=
  if (List.length (zohoAccounts config) =? 0)%nat then Ok []
  else
    let gmailCount :=
      Z.of_nat (List.length
                  (if (0 <? List.length (gmailAccounts config))%nat
                   then gmailAccounts config else accounts config)) in
    let eventPromises :=
      mapi (fun account idx =>
              let accountIndex := gmailCount + idx in
              try_catch
                (zohoAccountEvents (env idx) now timeMax account accountIndex)
                [])
           (zohoAccounts config) in
    results <- Promise_all eventPromises ;;
    Ok (flat results).

(** The comparator of the event sort,
    [a.start.getTime() - b.start.getTime()]: NaN as soon as one of the two
    dates is invalid. *)
Definition byStart (a b : CalendarEvent) : TimeValue :=
  match start a, start b with
  | Some ta, Some tb => Some (ta - tb)
  | _, _ => None
  end.

(** What the sort reads of the number a comparator returns: NaN counts as
    [+0]. *)
Definition sortValue {A} (comparator : A -> A -> TimeValue) (a b : A) : Z :=
  match comparator a b with
  | Some v => v
  | None => 0
  end.

(** [getUpcomingEvents(config)]; [now] is the instant [new Date()] reads.
    With an Invalid Date among the events the comparator is not consistent,
    and ECMAScript leaves the order of the result to the implementation;
    the sort is taken to be [Array_sort] then too. *)
Definition getUpcomingEvents `{Platform} (genv : Z -> GoogleFetch)
  (zenv : Z -> ZohoFetch) (config : Config) (now : Z)
  : result (list CalendarEvent) :=
  let timeMax := now + lookaheadHours config * 60 * 60 * 1000 in
  both <- Promise_all [getGoogleEvents genv config now timeMax;
                       getZohoEvents zenv config now timeMax] ;;
  match both with
  | [googleEvents; zohoEvents] =>
      Ok (Array_sort (sortValue byStart) (googleEvents ++ zohoEvents))
  | _ => Throw
  end.

(** *** Notions *)

(** What each account contributes, in configuration order: the events of
    its fetch, or nothing when the fetch throws. *)
Definition googleSlots `{Platform} (genv : Z -> GoogleFetch)
  (config : Config) (now timeMax : Z) : list (list CalendarEvent) :=
  mapi (fun account i =>
          caught (googleAccountEvents (genv i) now timeMax account
                    (indexOf (getAllAccounts config) account)))
       (gmailOf config).

Definition zohoSlots `{Platform} (zenv : Z -> ZohoFetch)
  (config : Config) (now timeMax : Z) : list (list CalendarEvent) :=
  mapi (fun account idx =>
          caught (zohoAccountEvents (zenv idx) now timeMax account
                    (Z.of_nat (List.length (gmailOf config)) + idx)))
       (zohoAccounts config).

(** All events in account-configuration order: the Google accounts in
    configured order, then the Zoho accounts in configured order. *)
Definition configurationOrder `{Platform} (genv : Z -> GoogleFetch)
  (zenv : Z -> ZohoFetch) (config : Config) (now : Z) : list CalendarEvent :=
  let timeMax := now + lookaheadHours config * 60 * 60 * 1000 in
  flat (googleSlots genv config now timeMax)
  ++ flat (zohoSlots zenv config now timeMax).



Definition startsAt (t : Z) (e : CalendarEvent) : bool :=
  match start e with
  | Some ts => ts =? t
  | None => false
  end.


(** *** Concrete worlds *)

(** A platform in the UTC time zone, whose [new Date(v)] reads none of the
    strings of the examples: [20260109] is no date-time string. *)
Definition utcPlatform : Platform :=
  {| LocalTZA := fun _ => 0;
     newDate := fun _ => None |}.







End TimeValues.

(** * Properties *)

(** ** Selection of the current or next event *)

Lemma firstInProgress_rule now events :
  (exists e, FirstWith (inProgress now) events e
             /\ firstInProgress now events = Some e)
  \/ (NoneWith (inProgress now) events /\ firstInProgress now events = None).
Proof.
  induction events as [|x rest IH]; simpl.
  - right. split; [constructor | reflexivity].
  - destruct ((start x <=? now) && (end_ x >? now)) eqn:Hx.
    + left. exists x. split; [|reflexivity].
      exists [], rest. repeat split; auto.
    + destruct IH as [[e [[pre [post [Hl [Hpre He]]]] Hr]] | [Hnone Hr]].
      * left. exists e. split; [|exact Hr].
        exists (x :: pre), post. subst rest. repeat split; auto.
      * right. split; [constructor; auto | exact Hr].
Qed.

Lemma firstUpcoming_rule now events :
  (exists e, FirstWith (upcoming now) events e
             /\ firstUpcoming now events = Some e)
  \/ (NoneWith (upcoming now) events /\ firstUpcoming now events = None).
Proof.
  induction events as [|x rest IH]; simpl.
  - right. split; [constructor | reflexivity].
  - destruct (start x >? now) eqn:Hx.
    + left. exists x. split; [|reflexivity].
      exists [], rest. repeat split; auto.
    + destruct IH as [[e [[pre [post [Hl [Hpre He]]]] Hr]] | [Hnone Hr]].
      * left. exists e. split; [|exact Hr].
        exists (x :: pre), post. subst rest. repeat split; auto.
      * right. split; [constructor; auto | exact Hr].
Qed.

(** The selection rule, for the lemmas below. *)
Lemma currentOrNext_selection now events :
  SelectionRule (inProgress now) (upcoming now) events
                (getCurrentOrNextEvent now events).
Proof.
  unfold SelectionRule, getCurrentOrNextEvent.
  destruct (firstInProgress_rule now events) as [[e [He Hr]] | [Hnone Hr]];
    rewrite Hr; [left; exists e; auto|].
  right.
  destruct (firstUpcoming_rule now events) as [[e [He Hu]] | [Hno Hu]];
    rewrite Hu; [left | right]; auto.
  split; [exact Hnone|]. exists e. auto.
Qed.

Lemma inProgress_iff now e :
  inProgress now e = true <-> start e <= now /\ now < end_ e.
Proof.
  unfold inProgress. rewrite andb_true_iff, Z.leb_le, Z.gtb_lt. lia.
Qed.

Lemma upcoming_iff now e : upcoming now e = true <-> now < start e.
Proof. unfold upcoming. rewrite Z.gtb_lt. lia. Qed.

(** C1. For every list of events (sorted by start or not) and every instant
    [now], [getCurrentOrNextEvent] returns the first event in list order with
    [start <= now < end] if there is one; only if there is none, the first
    event with [start > now]; and nothing only when there is neither.  So an
    event in progress wins over every upcoming event wherever they stand, and
    events in progress after the first one are ignored. *)
Theorem getCurrentOrNextEvent_rule (now : Z) (events : list CalendarEvent) :
  SelectionRule (inProgress now) (upcoming now) events
                (getCurrentOrNextEvent now events).
Proof.
  unfold SelectionRule, getCurrentOrNextEvent.
  destruct (firstInProgress_rule now events) as [[e [He Hr]] | [Hnone Hr]];
    rewrite Hr.
  - left. exists e. auto.
  - right.
    destruct (firstUpcoming_rule now events) as [[e [He Hu]] | [Hno Hu]];
      rewrite Hu.
    + left. split; [exact Hnone|]. exists e. auto.
    + right. auto.
Qed.

Lemma FirstWith_In {E} (p : E -> bool) l e :
  FirstWith p l e -> In e l /\ p e = true.
Proof.
  intros [pre [post [Hl [_ He]]]]. subst l. split; [|exact He].
  apply in_or_app. right. left. reflexivity.
Qed.

(** C9. An event that [getCurrentOrNextEvent] returns is one of the list and
    is in progress ([start <= now < end]) or upcoming ([start > now]); an
    event that has ended ([start <= now] and [end <= now]) is never returned,
    wherever it stands in the list. *)
Theorem getCurrentOrNextEvent_not_ended (now : Z)
  (events : list CalendarEvent) (e : CalendarEvent) :
  getCurrentOrNextEvent now events = Some e ->
  In e events
  /\ ((start e <= now /\ now < end_ e) \/ start e > now)
  /\ ~ (start e <= now /\ end_ e <= now).
Proof.
  intros Hr.
  assert (Hin : In e events /\ (inProgress now e = true
                                \/ upcoming now e = true)).
  { destruct (currentOrNext_selection now events)
      as [[x [Hx Hs]] | [[_ [x [Hx Hs]]] | [_ [_ Hs]]]];
      rewrite Hr in Hs; try discriminate; injection Hs as <-;
      destruct (FirstWith_In _ _ _ Hx); auto. }
  destruct Hin as [Hin Hclass]. split; [exact Hin|].
  unfold inProgress, upcoming in Hclass.
  destruct Hclass as [H | H].
  - apply andb_prop in H. destruct H as [H1 H2].
    apply Z.leb_le in H1. apply Z.gtb_lt in H2. split; [left|]; lia.
  - apply Z.gtb_lt in H. split; [right|]; lia.
Qed.

(** A past event before an upcoming one: the upcoming one is returned. *)
Lemma getCurrentOrNextEvent_not_ended_witness :
  let past := mkEvent "a" "Past" 10 20 false "w" "w@x.org" 0 google in
  let next := mkEvent "b" "Next" 40 50 false "w" "w@x.org" 0 google in
  In next [past; next]
  /\ ((start next <= 30 /\ 30 < end_ next) \/ start next > 30)
  /\ ~ (start next <= 30 /\ end_ next <= 30).
Proof.
  intros past next.
  apply (getCurrentOrNextEvent_not_ended 30 [past; next] next).
  reflexivity.
Defined.

(** ** Sorting *)

Section SortByKey.
Context {A : Type} (key : A -> Z) (cmp : A -> A -> Z).
Hypothesis cmp_key : forall a b, (cmp a b <=? 0) = (key a <=? key b).

Lemma sort_insert_perm x l : Permutation (x :: l) (sort_insert cmp x l).
Proof.
  induction l as [|y rest IH]; simpl.
  - apply Permutation_refl.
  - destruct (cmp x y <=? 0).
    + apply Permutation_refl.
    + eapply perm_trans; [apply perm_swap|].
      apply perm_skip. exact IH.
Qed.

Lemma Array_sort_perm l : Permutation l (Array_sort cmp l).
Proof.
  induction l as [|x rest IH]; simpl.
  - apply perm_nil.
  - eapply perm_trans; [apply perm_skip; exact IH|].
    apply sort_insert_perm.
Qed.

Lemma sort_insert_sorted x l :
  StronglySorted (OrderedBy key) l ->
  StronglySorted (OrderedBy key) (sort_insert cmp x l).
Proof.
  induction l as [|y rest IH]; simpl; intros Hs.
  - constructor; constructor.
  - inversion Hs as [|? ? Hrest Hall]; subst.
    destruct (cmp x y <=? 0) eqn:Hc.
    + rewrite cmp_key in Hc. apply Z.leb_le in Hc.
      constructor; [exact Hs|].
      constructor; [exact Hc|].
      eapply Forall_impl; [|exact Hall].
      intros z Hz. unfold OrderedBy in *. lia.
    + rewrite cmp_key in Hc. apply Z.leb_gt in Hc.
      constructor; [apply IH; exact Hrest|].
      eapply Permutation_Forall; [apply sort_insert_perm|].
      constructor; [unfold OrderedBy; lia | exact Hall].
Qed.

Lemma Array_sort_sorted l : StronglySorted (OrderedBy key) (Array_sort cmp l).
Proof.
  induction l as [|x rest IH]; simpl.
  - constructor.
  - apply sort_insert_sorted. exact IH.
Qed.

(** Stability: the elements with a given key keep their order. *)
Lemma sort_insert_stable k x l :
  filter (fun a => key a =? k) (sort_insert cmp x l)
  = filter (fun a => key a =? k) (x :: l).
Proof.
  induction l as [|y rest IH]; [reflexivity|].
  simpl sort_insert.
  destruct (cmp x y <=? 0) eqn:Hc; [reflexivity|].
  rewrite cmp_key in Hc. apply Z.leb_gt in Hc.
  simpl. simpl in IH. rewrite IH.
  destruct (key x =? k) eqn:Hx, (key y =? k) eqn:Hy; try reflexivity.
  apply Z.eqb_eq in Hx. apply Z.eqb_eq in Hy. lia.
Qed.

Lemma Array_sort_stable k l :
  filter (fun a => key a =? k) (Array_sort cmp l)
  = filter (fun a => key a =? k) l.
Proof.
  induction l as [|x rest IH]; [reflexivity|].
  simpl Array_sort. rewrite sort_insert_stable.
  simpl. rewrite IH. reflexivity.
Qed.

End SortByKey.

(** ** Accounts that fail *)

Lemma Promise_all_caught {A B} (f : A -> Z -> result (list B)) xs k :
  Promise_all (mapi_from k (fun a i => try_catch (f a i) []) xs)
  = Ok (mapi_from k (fun a i => caught (f a i)) xs).
Proof.
  revert k. induction xs as [|x rest IH]; intros k; simpl.
  - reflexivity.
  - rewrite IH. destruct (f x k); reflexivity.
Qed.

Lemma mapi_from_ext {A B} (f g : A -> Z -> B) xs k :
  (forall a j, k <= j -> nth_error xs (Z.to_nat (j - k)) = Some a ->
               f a j = g a j) ->
  mapi_from k f xs = mapi_from k g xs.
Proof.
  revert k. induction xs as [|x rest IH]; intros k Hfg; simpl.
  - reflexivity.
  - f_equal.
    + apply Hfg; [lia|]. replace (k - k) with 0 by lia. reflexivity.
    + apply IH. intros a j Hj Hn. apply Hfg; [lia|].
      replace (Z.to_nat (j - k)) with (S (Z.to_nat (j - (k + 1)))) by lia.
      exact Hn.
Qed.

Section Aggregation.
Context `{Platform}.

Lemma getGoogleEvents_slots genv config now timeMax :
  getGoogleEvents genv config now timeMax
  = Ok (flat (googleSlots genv config now timeMax)).
Proof.
  unfold getGoogleEvents, googleSlots, gmailOf, mapi.
  rewrite Promise_all_caught. reflexivity.
Qed.

Lemma getZohoEvents_slots zenv config now timeMax :
  getZohoEvents zenv config now timeMax
  = Ok (flat (zohoSlots zenv config now timeMax)).
Proof.
  unfold getZohoEvents, zohoSlots, gmailOf, mapi.
  destruct (zohoAccounts config) as [|a rest] eqn:Hz.
  - reflexivity.
  - change (List.length (a :: rest) =? 0)%nat with false. cbv iota.
    rewrite Promise_all_caught. reflexivity.
Qed.

Lemma getUpcomingEvents_sorted_merge genv zenv config now :
  getUpcomingEvents genv zenv config now
  = Ok (Array_sort byStart (configurationOrder genv zenv config now)).
Proof.
  unfold getUpcomingEvents, configurationOrder. simpl Promise_all.
  rewrite getGoogleEvents_slots, getZohoEvents_slots. reflexivity.
Qed.

End Aggregation.

(** ** Sorting events whose dates can be invalid *)





Section InvalidDates.
Context `{TimeValues.Platform}.








End InvalidDates.



Section Isolation.
Context `{Platform}.

Lemma override_same {A} (env : Z -> A) i f : override env i f i = f.
Proof. unfold override. rewrite Z.eqb_refl. reflexivity. Qed.

Lemma override_other {A} (env : Z -> A) i f j :
  j <> i -> override env i f j = env j.
Proof.
  intros Hj. unfold override.
  destruct (j =? i) eqn:E; [apply Z.eqb_eq in E; contradiction | reflexivity].
Qed.

Lemma googleSlots_override genv config now timeMax i quiet :
  GoogleFetchGives genv config now timeMax i Throw ->
  GoogleFetchGives (override genv i quiet) config now timeMax i (Ok []) ->
  googleSlots genv config now timeMax
  = googleSlots (override genv i quiet) config now timeMax.
Proof.
  intros [Hi [a [Ha Hthrow]]] [_ [a' [Ha' Hquiet]]].
  rewrite Ha in Ha'. injection Ha' as <-.
  unfold googleSlots, mapi. apply mapi_from_ext.
  intros b j Hj Hb. destruct (Z.eq_dec j i) as [-> | Hne].
  - rewrite Z.sub_0_r in Hb. rewrite Ha in Hb. injection Hb as <-.
    rewrite Hthrow, Hquiet. reflexivity.
  - rewrite override_other by exact Hne. reflexivity.
Qed.

Lemma zohoSlots_override zenv config now timeMax i quiet :
  ZohoFetchGives zenv config now timeMax i Throw ->
  ZohoFetchGives (override zenv i quiet) config now timeMax i (Ok []) ->
  zohoSlots zenv config now timeMax
  = zohoSlots (override zenv i quiet) config now timeMax.
Proof.
  intros [Hi [a [Ha Hthrow]]] [_ [a' [Ha' Hquiet]]].
  rewrite Ha in Ha'. injection Ha' as <-.
  unfold zohoSlots, mapi. apply mapi_from_ext.
  intros b j Hj Hb. destruct (Z.eq_dec j i) as [-> | Hne].
  - rewrite Z.sub_0_r in Hb. rewrite Ha in Hb. injection Hb as <-.
    rewrite Hthrow, Hquiet. reflexivity.
  - rewrite override_other by exact Hne. reflexivity.
Qed.

(** C7. Whatever the accounts meet, [getGoogleEvents], [getZohoEvents] and
    [getUpcomingEvents] complete with a list: an exception in the fetch of
    one account does not reach them.  And when the fetch of the account at
    position [i] throws, each of them returns what it returns when that
    account instead returns no events and every other account meets what it
    met. *)
Theorem account_failure_isolated
  (genv : Z -> GoogleFetch) (zenv : Z -> ZohoFetch)
  (config : Config) (now : Z) :
  let timeMax := now + lookaheadHours config * 60 * 60 * 1000 in
  (exists googleEvents zohoEvents events,
     getGoogleEvents genv config now timeMax = Ok googleEvents
     /\ getZohoEvents zenv config now timeMax = Ok zohoEvents
     /\ getUpcomingEvents genv zenv config now = Ok events)
  /\ (forall i quiet,
        GoogleFetchGives genv config now timeMax i Throw ->
        GoogleFetchGives (override genv i quiet) config now timeMax i (Ok []) ->
        getGoogleEvents genv config now timeMax
        = getGoogleEvents (override genv i quiet) config now timeMax
        /\ getUpcomingEvents genv zenv config now
           = getUpcomingEvents (override genv i quiet) zenv config now)
  /\ (forall i quiet,
        ZohoFetchGives zenv config now timeMax i Throw ->
        ZohoFetchGives (override zenv i quiet) config now timeMax i (Ok []) ->
        getZohoEvents zenv config now timeMax
        = getZohoEvents (override zenv i quiet) config now timeMax
        /\ getUpcomingEvents genv zenv config now
           = getUpcomingEvents genv (override zenv i quiet) config now).
Proof.
  intros timeMax. split; [|split].
  - do 3 eexists. split; [apply getGoogleEvents_slots|].
    split; [apply getZohoEvents_slots | apply getUpcomingEvents_sorted_merge].
  - intros i quiet Hthrow Hquiet.
    pose proof (googleSlots_override _ _ _ _ _ _ Hthrow Hquiet) as Hs.
    split.
    + rewrite !getGoogleEvents_slots, Hs. reflexivity.
    + rewrite !getUpcomingEvents_sorted_merge. unfold configurationOrder.
      fold timeMax. rewrite Hs. reflexivity.
  - intros i quiet Hthrow Hquiet.
    pose proof (zohoSlots_override _ _ _ _ _ _ Hthrow Hquiet) as Hs.
    split.
    + rewrite !getZohoEvents_slots, Hs. reflexivity.
    + rewrite !getUpcomingEvents_sorted_merge. unfold configurationOrder.
      fold timeMax. rewrite Hs. reflexivity.
Qed.

End Isolation.

(** ** The usage limits cache *)

Lemma loadUsageLimitsCache_persisted w :
  loadUsageLimitsCache w = (Ok (persistedEntry w), w).
Proof.
  unfold loadUsageLimitsCache, persistedEntry, try_, bind, gets, lift, ret.
  destruct (cacheFile w); reflexivity.
Qed.

Lemma loadClaudeCredentials_eq w :
  loadClaudeCredentials w
  = (Ok match claudeCredentials w with
        | Stored creds => Some creds
        | _ => None
        end, w).
Proof.
  unfold loadClaudeCredentials, try_, bind, gets, lift, ret.
  destruct (claudeCredentials w); reflexivity.
Qed.

(** What the fetch does, case by case. *)
Lemma fetchUsageLimitsFromAPI_eq w :
  fetchUsageLimitsFromAPI w
  = match bearer w with
    | None => (Ok None, w)
    | Some accessToken =>
        match usageEndpoint w (requests w) accessToken with
        | Throw => (Ok None, afterRequest w)
        | Ok response =>
            if ok response then
              match json response with
              | Throw => (Ok None, afterRequest w)
              | Ok body =>
                  match body_five_hour body, body_seven_day body with
                  | Some five, Some seven =>
                      (Ok (Some {| five_hour := readLimit five;
                                   seven_day := readLimit seven |}),
                       afterRequest w)
                  | _, _ => (Ok None, afterRequest w)
                  end
              end
            else (Ok None, afterRequest w)
        end
    end.
Proof.
  unfold fetchUsageLimitsFromAPI, try_, bind.
  rewrite loadClaudeCredentials_eq. unfold bearer.
  destruct (claudeCredentials w) as [| |[t|]]; try reflexivity.
  unfold truthy. destruct (String.eqb t ""); [reflexivity|]. simpl.
  unfold fetchUsage, lift, ret. fold (afterRequest w).
  destruct (usageEndpoint w (requests w) t) as [response|]; [|reflexivity].
  destruct (ok response); [|reflexivity]. simpl.
  destruct (json response) as [body|]; [|reflexivity].
  destruct (body_five_hour body), (body_seven_day body); reflexivity.
Qed.

(** The fetch never throws, leaves the files alone, and makes one request
    when it gives data. *)
Lemma fetchUsageLimitsFromAPI_safe w :
  exists r w',
    fetchUsageLimitsFromAPI w = (Ok r, w')
    /\ (w' = w \/ w' = afterRequest w)
    /\ (r <> None -> w' = afterRequest w).
Proof.
  rewrite fetchUsageLimitsFromAPI_eq.
  destruct (bearer w) as [t|];
    [|exists None, w; repeat split; auto; congruence].
  destruct (usageEndpoint w (requests w) t) as [response|];
    [|eexists; eexists; repeat split; auto].
  destruct (ok response); [|eexists; eexists; repeat split; auto].
  destruct (json response) as [body|];
    [|eexists; eexists; repeat split; auto].
  destruct (body_five_hour body), (body_seven_day body);
    eexists; eexists; repeat split; auto.
Qed.

Lemma fetchUsageLimitsFromAPI_fails w :
  FetchFails w ->
  exists w', fetchUsageLimitsFromAPI w = (Ok None, w')
             /\ cacheFile w' = cacheFile w.
Proof.
  intros Hfail. rewrite fetchUsageLimitsFromAPI_eq.
  destruct Hfail as [Hn | t Ht Hr | t r Ht Hr Hok | t r Ht Hr Hok Hj
                     | t r body Ht Hr Hok Hj Hmiss].
  - rewrite Hn. exists w. auto.
  - rewrite Ht, Hr. eexists. split; reflexivity.
  - rewrite Ht, Hr, Hok. eexists. split; reflexivity.
  - rewrite Ht, Hr, Hok, Hj. eexists. split; reflexivity.
  - rewrite Ht, Hr, Hok, Hj.
    destruct Hmiss as [-> | Hs].
    + eexists. split; reflexivity.
    + rewrite Hs. destruct (body_five_hour body);
        eexists; split; reflexivity.
Qed.

Lemma saveUsageLimitsCache_eq cache w :
  saveUsageLimitsCache cache w
  = (Ok tt, if configDirWritable w then withCacheFile w (Stored cache) else w).
Proof.
  unfold saveUsageLimitsCache, try_, writeCacheFile, withCacheFile, ret.
  destruct (configDirWritable w); reflexivity.
Qed.

(** What [getUsageLimits] does, case by case. *)
Lemma getUsageLimits_eq config now w :
  getUsageLimits config now w
  = let cache := persistedEntry w in
    let ttlMs := usageLimitsCacheTTL config * 1000 in
    if present (data cache) && (now - fetchedAt cache <? ttlMs)
    then (Ok (data cache), w)
    else
      match fetchUsageLimitsFromAPI w with
      | (Ok (Some fresh), w') =>
          (Ok (Some fresh),
           if configDirWritable w'
           then withCacheFile w' (Stored (mkCache (Some fresh) now ttlMs))
           else w')
      | (Ok None, w') => (Ok (data cache), w')
      | (Throw, w') => (Throw, w')
      end.
Proof.
  unfold getUsageLimits, bind. rewrite loadUsageLimitsCache_persisted.
  cbv zeta.
  destruct (present (data (persistedEntry w))
            && (now - fetchedAt (persistedEntry w)
                <? usageLimitsCacheTTL config * 1000)); [reflexivity|].
  destruct (fetchUsageLimitsFromAPI w) as [[[fresh|]|] w']; try reflexivity.
  rewrite saveUsageLimitsCache_eq. reflexivity.
Qed.

Lemma Stale_not_fresh config now w :
  Stale config now w ->
  present (data (persistedEntry w))
  && (now - fetchedAt (persistedEntry w)
      <? usageLimitsCacheTTL config * 1000) = false.
Proof.
  intros [Hd | Hage].
  - rewrite Hd. reflexivity.
  - apply andb_false_iff. right. apply Z.ltb_ge. lia.
Qed.

(** [getUsageLimits] never throws. *)
Lemma getUsageLimits_total config now w :
  exists r w', getUsageLimits config now w = (Ok r, w').
Proof.
  rewrite getUsageLimits_eq. cbv zeta.
  destruct (present _ && _); [eauto|].
  destruct (fetchUsageLimitsFromAPI_safe w) as [r [w' [Hf _]]]. rewrite Hf.
  destruct r; eauto.
Qed.

(** C4. When the persisted entry is not fresh (no data, or the TTL has
    expired, by however much) and the fetch fails, for whichever reason,
    [getUsageLimits] completes without throwing, returns the data of the
    persisted entry and leaves the cache file as it was; so it returns
    nothing only when the persisted entry has no data. *)
Theorem getUsageLimits_serves_stale (config : Config) (now : Z)
  (w : UsageWorld) :
  Stale config now w ->
  FetchFails w ->
  exists w',
    getUsageLimits config now w = (Ok (data (persistedEntry w)), w')
    /\ cacheFile w' = cacheFile w
    /\ (data (persistedEntry w) = None <->
        fst (getUsageLimits config now w) = Ok None).
Proof.
  intros Hstale Hfail.
  destruct (fetchUsageLimitsFromAPI_fails w Hfail) as [w' [Hf Hc]].
  exists w'. rewrite getUsageLimits_eq. cbv zeta.
  rewrite (Stale_not_fresh _ _ _ Hstale), Hf. simpl.
  split; [reflexivity|]. split; [exact Hc|].
  split; [intros ->; reflexivity | intros E; injection E; auto].
Qed.



(** C10. Two persisted entries that differ in their [ttl] field only give
    the same run of [getUsageLimits]: the same result, the same number of
    requests and the same world afterwards, up to the cache file where it
    is left as it was.  The persisted [ttl] is not read. *)
Theorem getUsageLimits_ignores_persisted_ttl (config : Config) (now : Z)
  (w : UsageWorld) (d : option UsageLimits) (f t1 t2 : Z) :
  let w1 := withCacheFile w (Stored (mkCache d f t1)) in
  let w2 := withCacheFile w (Stored (mkCache d f t2)) in
  let run1 := getUsageLimits config now w1 in
  let run2 := getUsageLimits config now w2 in
  fst run1 = fst run2
  /\ requests (snd run1) = requests (snd run2)
  /\ (snd run1 = snd run2
      \/ (cacheFile (snd run1) = cacheFile w1
          /\ cacheFile (snd run2) = cacheFile w2)).
Proof.
  intros w1 w2 run1 run2. subst run1 run2.
  rewrite !getUsageLimits_eq. cbv zeta.
  change (persistedEntry w1) with (mkCache d f t1).
  change (persistedEntry w2) with (mkCache d f t2).
  simpl data. simpl fetchedAt.
  destruct (present d && (now - f <? usageLimitsCacheTTL config * 1000)).
  - simpl. auto.
  - rewrite !fetchUsageLimitsFromAPI_eq.
    change (bearer w2) with (bearer w1).
    change (usageEndpoint w2) with (usageEndpoint w1).
    change (requests w2) with (requests w1).
    destruct (bearer w1) as [t|]; [|simpl; auto].
    destruct (usageEndpoint w1 (requests w1) t) as [response|];
      [|simpl; auto].
    destruct (ok response); [|simpl; auto].
    destruct (json response) as [body|]; [|simpl; auto].
    destruct (body_five_hour body), (body_seven_day body);
      try (simpl; auto; fail).
    simpl. destruct (configDirWritable w); simpl; auto.
Qed.

(** ** Refreshing a Zoho token *)

(** What [refreshZohoToken] does, case by case. *)
Lemma refreshZohoToken_eq account w :
  refreshZohoToken account w
  = let tokenPath := getZohoTokenPath (email account) in
    match tokenFiles w tokenPath with
    | Missing => (Ok None, w)
    | Unreadable => (Throw, w)
    | Stored token =>
        if beyondBuffer token w then (Ok (Some token), w)
        else
          match zohoCredentialsFile w, ZOHO_DATACENTERS (datacenter account)
          with
          | Stored credentials, Some dc =>
              match tokenEndpoint w (refreshRequest credentials dc token) with
              | Throw => (Ok None, afterExchange w)
              | Ok response =>
                  if ok response then
                    match json response with
                    | Throw => (Ok None, afterExchange w)
                    | Ok body =>
                        let updatedToken :=
                          refreshed token body (clock w + latency w) in
                        if tokensWritable w
                        then (Ok (Some updatedToken),
                              withTokenFile (afterExchange w) tokenPath
                                updatedToken)
                        else (Ok None, afterExchange w)
                    end
                  else (Ok None, afterExchange w)
              end
          | _, _ => (Ok None, w)
          end
    end.
Proof.
  unfold refreshZohoToken, bind, gets, lift, ret, Date_now, beyondBuffer.
  cbv zeta.
  destruct (tokenFiles w (getZohoTokenPath (email account))) as [| |token];
    try reflexivity.
  simpl.
  destruct (expiresAfter (expires_at token) (clock w + 300000));
    [reflexivity|].
  unfold try_, loadZohoCredentials, bind, gets, lift, throw, ret.
  destruct (zohoCredentialsFile w) as [| |credentials]; try reflexivity.
  simpl.
  destruct (ZOHO_DATACENTERS (datacenter account)) as [dc|]; [|reflexivity].
  unfold fetchToken. fold (refreshRequest credentials dc token).
  fold (afterExchange w).
  destruct (tokenEndpoint w (refreshRequest credentials dc token))
    as [response|]; [|reflexivity].
  destruct (ok response); [|reflexivity]. simpl.
  destruct (json response) as [body|]; [|reflexivity].
  unfold writeTokenFile. simpl.
  fold (refreshed token body (clock w + latency w)).
  destruct (tokensWritable w) eqn:Hw; [|reflexivity].
  unfold withTokenFile. simpl. rewrite Hw. reflexivity.
Qed.

(** The claim as the specification words it fails on two counts.  Within
    the buffer, without client credentials, no exchange is made (and not
    exactly one); and an exchange answered with status 200 and a body
    without the token fields does not return nothing: it returns the
    record with [access_token] undefined and [expires_at] not a number. *)
Lemma refreshZohoToken_counterexample :
  (beyondBuffer storedToken (aliceWorld Missing goodAnswer) = false
   /\ refreshZohoToken alice (aliceWorld Missing goodAnswer)
      = (Ok None, aliceWorld Missing goodAnswer)
   /\ exchanges (snd (refreshZohoToken alice (aliceWorld Missing goodAnswer)))
      = 0%nat)
  /\ (beyondBuffer storedToken
        (aliceWorld (Stored clientCredentials) errorAnswer) = false
      /\ fst (refreshZohoToken alice
                (aliceWorld (Stored clientCredentials) errorAnswer))
         = Ok (Some {| access_token := None;
                       refresh_token := "refresh-1";
                       expires_at := None;
                       api_domain := Some "https://www.zohoapis.com"%string |})).
Proof.
  repeat split; reflexivity.
Qed.

(** C6, amended. For every persisted token record: an absent record gives
    nothing; a record that expires more than 5 minutes after now is returned
    as it is and the world stays as it was (no exchange); within the buffer
    the call does not throw and makes at most one refresh exchange: exactly
    one when the client credentials can be read and the datacenter is known,
    none otherwise, and then it returns nothing.  When the exchange is
    rejected, or answered with a status that is not 2xx or a body that
    cannot be parsed, it returns nothing and leaves the token files as they
    were.  When it is answered with a 2xx status and a body that parses, and
    the token file can be written, the record returned and persisted is the
    stored one with [access_token] and [expires_at] overwritten from the
    body: [refresh_token] and [api_domain] are retained, whatever the body
    holds. *)
Theorem refreshZohoToken_gating (account : ZohoAccount) (w : ZohoWorld) :
  let tokenPath := getZohoTokenPath (email account) in
  (tokenFiles w tokenPath = Missing ->
   refreshZohoToken account w = (Ok None, w))
  /\ (forall token,
        tokenFiles w tokenPath = Stored token ->
        (beyondBuffer token w = true ->
         refreshZohoToken account w = (Ok (Some token), w))
        /\ (beyondBuffer token w = false ->
            exists r w',
              refreshZohoToken account w = (Ok r, w')
              /\ (exchanges w' = exchanges w
                  \/ exchanges w' = S (exchanges w))
              /\ ((zohoCredentialsFile w = Missing
                   \/ zohoCredentialsFile w = Unreadable
                   \/ ZOHO_DATACENTERS (datacenter account) = None) ->
                  r = None /\ w' = w)
              /\ (forall credentials dc,
                    zohoCredentialsFile w = Stored credentials ->
                    ZOHO_DATACENTERS (datacenter account) = Some dc ->
                    let answer :=
                      tokenEndpoint w (refreshRequest credentials dc token) in
                    exchanges w' = S (exchanges w)
                    /\ (answer = Throw ->
                        r = None /\ tokenFiles w' = tokenFiles w)
                    /\ (forall response,
                          answer = Ok response ->
                          ok response = false \/ json response = Throw ->
                          r = None /\ tokenFiles w' = tokenFiles w)
                    /\ (forall response body,
                          answer = Ok response ->
                          ok response = true ->
                          json response = Ok body ->
                          tokensWritable w = true ->
                          let updated :=
                            refreshed token body (clock w + latency w) in
                          r = Some updated
                          /\ tokenFiles w' tokenPath = Stored updated
                          /\ refresh_token updated = refresh_token token
                          /\ api_domain updated = api_domain token
                          /\ access_token updated = body_access_token body)))).
Proof.
  intros tokenPath. split.
  - intros Hm. rewrite refreshZohoToken_eq. cbv zeta.
    fold tokenPath. rewrite Hm. reflexivity.
  - intros token Hs. split.
    + intros Hb. rewrite refreshZohoToken_eq. cbv zeta.
      fold tokenPath. rewrite Hs, Hb. reflexivity.
    + intros Hb. rewrite refreshZohoToken_eq. cbv zeta.
      fold tokenPath. rewrite Hs, Hb.
      destruct (zohoCredentialsFile w) as [| |credentials] eqn:Hc;
        try (exists None, w; repeat split; auto; intros; discriminate).
      destruct (ZOHO_DATACENTERS (datacenter account)) as [dc|] eqn:Hd;
        [|exists None, w; repeat split; auto; intros; discriminate].
      assert (Hno : Stored credentials = Missing
                    \/ Stored credentials = Unreadable
                    \/ Some dc = None -> False).
      { intros [E | [E | E]]; discriminate. }
      destruct (tokenEndpoint w (refreshRequest credentials dc token))
        as [response|] eqn:Ha.
      * destruct (ok response) eqn:Hok.
        -- destruct (json response) as [body|] eqn:Hj.
           ++ destruct (tokensWritable w) eqn:Hw.
              ** eexists. eexists. split; [reflexivity|].
                 split; [right; reflexivity|].
                 split; [intros E; destruct (Hno E)|].
                 intros c d Ec Ed. injection Ec as <-. injection Ed as <-.
                 cbv zeta. rewrite Ha.
                 split; [reflexivity|].
                 split; [intros; discriminate|].
                 split.
                 { intros r' Er [E | E]; injection Er as <-; congruence. }
                 intros r' b Er _ Eb _. injection Er as <-.
                 rewrite Hj in Eb. injection Eb as <-.
                 split; [reflexivity|].
                 split; [simpl; rewrite String.eqb_refl; reflexivity|].
                 repeat split.
              ** eexists. eexists. split; [reflexivity|].
                 split; [right; reflexivity|].
                 split; [intros E; destruct (Hno E)|].
                 intros c d Ec Ed. injection Ec as <-. injection Ed as <-.
                 cbv zeta. rewrite Ha.
                 split; [reflexivity|].
                 split; [intros; discriminate|].
                 split; [intros; split; reflexivity|].
                 intros; discriminate.
           ++ eexists. eexists. split; [reflexivity|].
              split; [right; reflexivity|].
              split; [intros E; destruct (Hno E)|].
              intros c d Ec Ed. injection Ec as <-. injection Ed as <-.
              cbv zeta. rewrite Ha.
              split; [reflexivity|].
              split; [intros; discriminate|].
              split; [intros; split; reflexivity|].
              intros r' b Er _ Eb. injection Er as <-. congruence.
        -- eexists. eexists. split; [reflexivity|].
           split; [right; reflexivity|].
           split; [intros E; destruct (Hno E)|].
           intros c d Ec Ed. injection Ec as <-. injection Ed as <-.
           cbv zeta. rewrite Ha.
           split; [reflexivity|].
           split; [intros; discriminate|].
           split; [intros; split; reflexivity|].
           intros r' b Er Eo. injection Er as <-. congruence.
      * eexists. eexists. split; [reflexivity|].
        split; [right; reflexivity|].
        split; [intros E; destruct (Hno E)|].
        intros c d Ec Ed. injection Ec as <-. injection Ed as <-.
        cbv zeta. rewrite Ha.
        split; [reflexivity|].
        split; [intros; split; reflexivity|].
        split; intros; discriminate.
Qed.

(** ** Decoding Zoho dates *)











(** ** Ordering of tasks *)

(** The ranks the comparator gives the priorities: High is ranked as Normal. *)
Lemma priority_ranks :
  orOne (priorityOrder "High") = 1
  /\ orOne (priorityOrder "Normal") = 1
  /\ orOne (priorityOrder "Low") = 2
  /\ orOne (priorityOrder "Urgent") = 1.
Proof. repeat split. Qed.

(** C3. The code does not order by priority as the claim says.  Two tasks
    without due date, neither overdue, of priority Normal and then High, come
    out in that order; and two tasks due the same day, of priority Low and
    then High, come out in that order. *)
Theorem getZohoTasks_priority_not_applied :
  map priority
      (@getZohoTasks utcPlatform
         (fun _ => aliceTasks [normalTask; highTask] 0) aliceConfig)
  = ["Normal"%string; "High"%string]
  /\ map priority
       (@getZohoTasks utcPlatform
          (fun _ => aliceTasks [lowTaskDue; highTaskDue] 0) aliceConfig)
     = ["Low"%string; "High"%string].
Proof. split; reflexivity. Qed.

(** ** The properties at concrete inputs *)

(** A stale entry, fetched at 1000 and read at 501000, and a request that
    is rejected: the stale data is returned. *)
Lemma getUsageLimits_serves_stale_witness :
  let w := usageWorld (Stored (mkCache (Some someLimits) 1000 120000)) Throw in
  Stale aliceConfig 501000 w
  /\ FetchFails w
  /\ exists w',
       getUsageLimits aliceConfig 501000 w = (Ok (Some someLimits), w')
       /\ cacheFile w' = cacheFile w
       /\ (Some someLimits = None <->
           fst (getUsageLimits aliceConfig 501000 w) = Ok None).
Proof.
  intros w.
  assert (Hs : Stale aliceConfig 501000 w) by (right; simpl; lia).
  assert (Hf : FetchFails w) by (apply (Rejected w "token"); reflexivity).
  split; [exact Hs|]. split; [exact Hf|].
  exact (getUsageLimits_serves_stale aliceConfig 501000 w Hs Hf).
Defined.


(** The first Google account throws and the only Zoho account throws: the
    results are those of the same accounts returning no events. *)
Lemma account_failure_isolated_witness :
  let timeMax := 0 + lookaheadHours aliceConfig * 60 * 60 * 1000 in
  let getGoogle := @getGoogleEvents utcPlatform in
  let getZoho := @getZohoEvents utcPlatform in
  let getUpcoming := @getUpcomingEvents utcPlatform in
  (getGoogle googleWorld aliceConfig 0 timeMax
   = getGoogle (override googleWorld 0 quietGoogle) aliceConfig 0 timeMax
   /\ getUpcoming googleWorld (fun _ => brokenZoho) aliceConfig 0
      = getUpcoming (override googleWorld 0 quietGoogle)
          (fun _ => brokenZoho) aliceConfig 0)
  /\ (getZoho (fun _ => brokenZoho) aliceConfig 0 timeMax
      = getZoho (override (fun _ => brokenZoho) 0 quietZoho) aliceConfig 0
          timeMax
      /\ getUpcoming googleWorld (fun _ => brokenZoho) aliceConfig 0
         = getUpcoming googleWorld (override (fun _ => brokenZoho) 0 quietZoho)
             aliceConfig 0).
Proof.
  intros timeMax getGoogle getZoho getUpcoming.
  destruct (@account_failure_isolated utcPlatform googleWorld
              (fun _ => brokenZoho) aliceConfig 0) as [_ [Hg Hz]].
  split.
  - apply Hg.
    + split; [lia|]. exists "bob@gmail.com"%string. split; reflexivity.
    + split; [lia|]. exists "bob@gmail.com"%string. split; reflexivity.
  - apply Hz.
    + split; [lia|]. exists alice. split; reflexivity.
    + split; [lia|]. exists alice. split; reflexivity.
Defined.

(** Within the buffer, with client credentials and a 200 answer that holds
    a new access token and no refresh token: one exchange, and the record
    returned keeps the stored refresh token. *)
Lemma refreshZohoToken_gating_witness :
  let w := aliceWorld (Stored clientCredentials) goodAnswer in
  exists w',
    refreshZohoToken alice w
    = (Ok (Some {| access_token := Some "access-2"%string;
                   refresh_token := "refresh-1";
                   expires_at := Some 4500250;
                   api_domain := Some "https://www.zohoapis.com"%string |}),
       w')
    /\ exchanges w' = 1%nat.
Proof.
  intros w.
  destruct (refreshZohoToken_gating alice w) as [_ Hstored].
  destruct (Hstored storedToken eq_refl) as [_ Hbuffer].
  destruct (Hbuffer eq_refl) as [r [w' [Hrun [_ [_ Hexchange]]]]].
  destruct (Hexchange clientCredentials
              (mkDatacenter "https://accounts.zoho.com"
                 "https://calendar.zoho.com" "https://mail.zoho.com")
              eq_refl eq_refl) as [Hone [_ [_ Hdone]]].
  destruct (Hdone _ _ eq_refl eq_refl eq_refl eq_refl) as [Hr _].
  exists w'. rewrite Hrun, Hr. split; [reflexivity | exact Hone].
Defined.

(** ** The first version of the calendar module

    The selection rule and the sorted, stable merge hold for it as well. *)

Lemma legacy_firstInProgress_rule now events :
  (exists e, FirstWith (legacyInProgress now) events e
             /\ Legacy.firstInProgress now events = Some e)
  \/ (NoneWith (legacyInProgress now) events
      /\ Legacy.firstInProgress now events = None).
Proof.
  induction events as [|x rest IH]; simpl.
  - right. split; [constructor | reflexivity].
  - destruct ((Legacy.start x <=? now) && (Legacy.end_ x >? now)) eqn:Hx.
    + left. exists x. split; [|reflexivity].
      exists [], rest. repeat split; auto.
    + destruct IH as [[e [[pre [post [Hl [Hpre He]]]] Hr]] | [Hno Hr]].
      * left. exists e. split; [|exact Hr].
        exists (x :: pre), post. subst rest. repeat split; auto.
      * right. split; [constructor; auto | exact Hr].
Qed.

Lemma legacy_firstUpcoming_rule now events :
  (exists e, FirstWith (legacyUpcoming now) events e
             /\ Legacy.firstUpcoming now events = Some e)
  \/ (NoneWith (legacyUpcoming now) events
      /\ Legacy.firstUpcoming now events = None).
Proof.
  induction events as [|x rest IH]; simpl.
  - right. split; [constructor | reflexivity].
  - destruct (Legacy.start x >? now) eqn:Hx.
    + left. exists x. split; [|reflexivity].
      exists [], rest. repeat split; auto.
    + destruct IH as [[e [[pre [post [Hl [Hpre He]]]] Hr]] | [Hno Hr]].
      * left. exists e. split; [|exact Hr].
        exists (x :: pre), post. subst rest. repeat split; auto.
      * right. split; [constructor; auto | exact Hr].
Qed.

Lemma legacy_getCurrentOrNextEvent_rule now events :
  SelectionRule (legacyInProgress now) (legacyUpcoming now) events
                (Legacy.getCurrentOrNextEvent now events).
Proof.
  unfold SelectionRule, Legacy.getCurrentOrNextEvent.
  destruct (legacy_firstInProgress_rule now events)
    as [[e [He Hr]] | [Hno Hr]]; rewrite Hr.
  - left. exists e. auto.
  - right.
    destruct (legacy_firstUpcoming_rule now events)
      as [[e [He Hu]] | [Hnu Hu]]; rewrite Hu.
    + left. split; [exact Hno|]. exists e. auto.
    + right. auto.
Qed.

Lemma legacy_getCurrentOrNextEvent_not_ended now events e :
  Legacy.getCurrentOrNextEvent now events = Some e ->
  In e events
  /\ ~ (Legacy.start e <= now /\ Legacy.end_ e <= now).
Proof.
  intros Hr.
  assert (Hin : In e events /\ (legacyInProgress now e = true
                                \/ legacyUpcoming now e = true)).
  { destruct (legacy_getCurrentOrNextEvent_rule now events)
      as [[x [Hx Hs]] | [[_ [x [Hx Hs]]] | [_ [_ Hs]]]];
      rewrite Hr in Hs; try discriminate; injection Hs as <-;
      destruct (FirstWith_In _ _ _ Hx); auto. }
  destruct Hin as [Hin Hclass]. split; [exact Hin|].
  unfold legacyInProgress, legacyUpcoming in Hclass.
  destruct Hclass as [Hc | Hc].
  - apply andb_prop in Hc. destruct Hc as [H1 H2].
    apply Z.gtb_lt in H2. lia.
  - apply Z.gtb_lt in Hc. lia.
Qed.

Lemma legacy_byStart_key a b :
  (Legacy.byStart a b <=? 0) = (Legacy.start a <=? Legacy.start b).
Proof.
  unfold Legacy.byStart.
  destruct (Legacy.start a <=? Legacy.start b) eqn:E.
  - apply Z.leb_le in E. apply Z.leb_le. lia.
  - apply Z.leb_gt in E. apply Z.leb_gt. lia.
Qed.

Lemma legacy_getUpcomingEvents_sorted_stable `{Platform}
  (env : Z -> GoogleFetch) (config : Legacy.Config) (now : Z) :
  exists events,
    Legacy.getUpcomingEvents env config now = Ok events
    /\ StronglySorted (fun a b => Legacy.start a <= Legacy.start b) events
    /\ Permutation (legacyOrder env config now) events
    /\ forall t,
         filter (fun e => Legacy.start e =? t) events
         = filter (fun e => Legacy.start e =? t) (legacyOrder env config now).
Proof.
  exists (Array_sort Legacy.byStart (legacyOrder env config now)).
  split.
  - unfold Legacy.getUpcomingEvents, legacyOrder, mapi.
    rewrite Promise_all_caught. reflexivity.
  - split; [apply (Array_sort_sorted Legacy.start _ legacy_byStart_key)|].
    split; [apply Array_sort_perm|].
    intros t. apply (Array_sort_stable Legacy.start _ legacy_byStart_key).
Qed.

(** ** The range of decoded dates

    The model leaves out [TimeClip]: on the dates decoded here it is the
    identity. *)

Lemma DayWithinYear_range leap mn : 0 <= DayWithinYear leap mn <= 335.
Proof.
  unfold DayWithinYear.
  destruct leap;
    repeat match goal with
           | |- context [match ?x with _ => _ end] => destruct x
           end; lia.
Qed.

Lemma DayFromYear_range y :
  -1 <= y <= 10008 -> -720000 <= DayFromYear y <= 2940000.
Proof.
  intros Hy. unfold DayFromYear.
  pose proof (Z.div_mod (y - 1969) 4 ltac:(lia)).
  pose proof (Z.mod_pos_bound (y - 1969) 4 ltac:(lia)).
  pose proof (Z.div_mod (y - 1901) 100 ltac:(lia)).
  pose proof (Z.mod_pos_bound (y - 1901) 100 ltac:(lia)).
  pose proof (Z.div_mod (y - 1601) 400 ltac:(lia)).
  pose proof (Z.mod_pos_bound (y - 1601) 400 ltac:(lia)).
  lia.
Qed.

Lemma MakeFullYear_range y : 0 <= y < 10000 -> 100 <= MakeFullYear y < 10000.
Proof.
  intros Hy. unfold MakeFullYear.
  destruct ((0 <=? y) && (y <=? 99)) eqn:E.
  - apply andb_prop in E. destruct E as [_ E]. apply Z.leb_le in E. lia.
  - apply andb_false_iff in E. destruct E as [E | E];
      apply Z.leb_gt in E; lia.
Qed.


Lemma Date_UTC_range year month day hour min sec :
  InDigits year month day hour min sec ->
  -100000000000000 <= Date_UTC year (month - 1) day hour min sec
  <= 300000000000000.
Proof.
  intros (Hy & Hmo & Hd & Hh & Hmi & Hs).
  unfold Date_UTC, MakeDate, MakeDay, MakeTime,
    msPerDay, msPerHour, msPerMinute, msPerSecond.
  pose proof (MakeFullYear_range year Hy) as Hfy.
  set (fy := MakeFullYear year) in *.
  pose proof (Z.div_mod (month - 1) 12 ltac:(lia)).
  pose proof (Z.mod_pos_bound (month - 1) 12 ltac:(lia)).
  pose proof (DayWithinYear_range (InLeapYear (fy + (month - 1) / 12))
                ((month - 1) mod 12)).
  pose proof (DayFromYear_range (fy + (month - 1) / 12) ltac:(lia)).
  lia.
Qed.

Lemma parseZohoDate_in_range year month day hour min sec tzHour tzMin :
  InDigits year month day hour min sec ->
  0 <= tzHour < 100 -> 0 <= tzMin < 100 ->
  let utc := Date_UTC year (month - 1) day hour min sec in
  let offset := (tzHour * 60 + tzMin) * 60000 in
  InTimeRange utc /\ InTimeRange (utc - offset) /\ InTimeRange (utc + offset).
Proof.
  intros Hwall Hh Hm utc offset.
  pose proof (Date_UTC_range _ _ _ _ _ _ Hwall) as Hr. fold utc in Hr.
  unfold InTimeRange. subst offset. lia.
Qed.

(** ** Decoded dates as wall time *)













(** ** What the task comparator does order *)

Section SortByComparator.
Context {A : Type} (cmp : A -> A -> Z).
Hypothesis cmp_total : forall a b, 0 < cmp a b -> cmp b a <= 0.
Hypothesis cmp_trans :
  forall a b c, cmp a b <= 0 -> cmp b c <= 0 -> cmp a c <= 0.

Lemma sort_insert_not_after x l :
  StronglySorted (NotAfter cmp) l ->
  StronglySorted (NotAfter cmp) (sort_insert cmp x l).
Proof.
  induction l as [|y rest IH]; simpl; intros Hs.
  - constructor; constructor.
  - inversion Hs as [|? ? Hrest Hall]; subst.
    destruct (cmp x y <=? 0) eqn:Hc.
    + apply Z.leb_le in Hc.
      constructor; [exact Hs|].
      constructor; [exact Hc|].
      eapply Forall_impl; [|exact Hall].
      intros z Hz. unfold NotAfter in *. eapply cmp_trans; eassumption.
    + apply Z.leb_gt in Hc.
      constructor; [apply IH; exact Hrest|].
      eapply Permutation_Forall; [apply sort_insert_perm|].
      constructor; [apply cmp_total; exact Hc | exact Hall].
Qed.

Lemma Array_sort_not_after l :
  StronglySorted (NotAfter cmp) (Array_sort cmp l).
Proof.
  induction l as [|x rest IH]; simpl.
  - constructor.
  - apply sort_insert_not_after. exact IH.
Qed.

End SortByComparator.

Lemma firstn_In {A} n (l : list A) x : In x (firstn n l) -> In x l.
Proof.
  revert n. induction l as [|y rest IH]; intros n Hx.
  - rewrite firstn_nil in Hx. exact Hx.
  - destruct n as [|n]; simpl in Hx; [contradiction|].
    destruct Hx as [-> | Hx]; [left; reflexivity | right; eauto].
Qed.

Lemma skipn_In {A} n (l : list A) x : In x (skipn n l) -> In x l.
Proof.
  revert n. induction l as [|y rest IH]; intros n Hx.
  - rewrite skipn_nil in Hx. exact Hx.
  - destruct n as [|n]; simpl in Hx; [exact Hx|]. right. eauto.
Qed.

Lemma StronglySorted_split {A} (R : A -> A -> Prop) n l :
  StronglySorted R l ->
  StronglySorted R (firstn n l)
  /\ forall a b, In a (firstn n l) -> In b (skipn n l) -> R a b.
Proof.
  revert n. induction l as [|x rest IH]; intros n Hs.
  - rewrite firstn_nil. split; [constructor | intros a b []].
  - destruct n as [|n]; simpl.
    + split; [constructor | intros a b []].
    + inversion Hs as [|? ? Hrest Hall]; subst.
      destruct (IH n Hrest) as [Hfirst Hcross].
      split.
      * constructor; [exact Hfirst|].
        rewrite Forall_forall in *. intros z Hz. apply Hall.
        eapply firstn_In; eassumption.
      * intros a b [<- | Ha] Hb.
        -- rewrite Forall_forall in Hall. apply Hall.
           eapply skipn_In; eassumption.
        -- apply Hcross; assumption.
Qed.

Lemma compareTasks_total a b :
  0 < compareTasks a b -> compareTasks b a <= 0.
Proof.
  unfold compareTasks.
  destruct (isOverdue a), (isOverdue b), (dueDate a), (dueDate b);
    simpl; lia.
Qed.

Lemma compareTasks_trans a b c :
  compareTasks a b <= 0 -> compareTasks b c <= 0 -> compareTasks a c <= 0.
Proof.
  unfold compareTasks.
  destruct (isOverdue a), (isOverdue b), (isOverdue c),
    (dueDate a), (dueDate b), (dueDate c); simpl; lia.
Qed.

(** Overdue tasks come before the others; among tasks alike in that, due
    dates ascend and tasks without due date come last; among tasks without
    due date, Normal (and every unrecognized priority) comes before Low. *)
Lemma compareTasks_orders a b :
  (isOverdue a = true -> isOverdue b = false -> compareTasks a b < 0)
  /\ (isOverdue a = isOverdue b ->
      forall da db, dueDate a = Some da -> dueDate b = Some db ->
                    da < db -> compareTasks a b < 0)
  /\ (isOverdue a = isOverdue b ->
      forall da, dueDate a = Some da -> dueDate b = None ->
                 compareTasks a b < 0)
  /\ (isOverdue a = isOverdue b ->
      dueDate a = None -> dueDate b = None ->
      priorityOrder (priority a) <> Some 2 ->
      priority b = "Low"%string ->
      compareTasks a b < 0).
Proof.
  unfold compareTasks. repeat split.
  - intros -> ->. reflexivity.
  - intros Ho da db -> -> Hlt. rewrite Ho.
    destruct (isOverdue b); simpl; lia.
  - intros Ho da -> ->. rewrite Ho. destruct (isOverdue b); reflexivity.
  - intros Ho -> -> Hp ->. rewrite Ho.
    assert (orOne (priorityOrder (priority a)) = 1).
    { destruct (priorityOrder (priority a)) as [n|] eqn:E; [|reflexivity].
      unfold priorityOrder in E.
      destruct (String.eqb (priority a) "High");
        [injection E as <-; reflexivity|].
      destruct (String.eqb (priority a) "Normal");
        [injection E as <-; reflexivity|].
      destruct (String.eqb (priority a) "Low");
        [injection E as <-; congruence | discriminate]. }
    destruct (isOverdue b); simpl; change (orOne (priorityOrder "Low")) with 2;
      lia.
Qed.

(** The tasks returned are in the comparator's order, and they are the
    first of the sorted tasks: no task left out comes before one kept. *)
Lemma getZohoTasks_sorted_then_cut `{Platform} (env : Z -> TaskFetch)
  (config : Config) :
  StronglySorted (NotAfter compareTasks) (getZohoTasks env config)
  /\ exists sorted n,
       StronglySorted (NotAfter compareTasks) sorted
       /\ getZohoTasks env config = firstn n sorted
       /\ forall kept dropped,
            In kept (getZohoTasks env config) ->
            In dropped (skipn n sorted) ->
            NotAfter compareTasks kept dropped.
Proof.
  unfold getZohoTasks.
  destruct (List.length (zohoAccounts config) =? 0)%nat.
  { split; [constructor|]. exists [], 0%nat.
    split; [constructor|]. split; [reflexivity | intros ? ? []]. }
  destruct (negb (showZohoTasks config)).
  { split; [constructor|]. exists [], 0%nat.
    split; [constructor|]. split; [reflexivity | intros ? ? []]. }
  set (allTasks := snd _).
  pose proof (Array_sort_not_after compareTasks compareTasks_total
                compareTasks_trans allTasks) as Hs.
  unfold slice0.
  destruct (maxTasksToShow config <? 0).
  - destruct (StronglySorted_split _
                (Z.to_nat (Z.max 0 (Z.of_nat
                   (List.length (Array_sort compareTasks allTasks))
                   + maxTasksToShow config))) _ Hs) as [Hf Hc].
    split; [exact Hf|]. eexists. eexists.
    split; [exact Hs|]. split; [reflexivity | exact Hc].
  - destruct (StronglySorted_split _
                (Z.to_nat (maxTasksToShow config)) _ Hs) as [Hf Hc].
    split; [exact Hf|]. eexists. eexists.
    split; [exact Hs|]. split; [reflexivity | exact Hc].
Qed.

(** ** What makes the fetch of an account throw or return nothing *)

Section FailureCauses.
Context `{Platform}.

(** Google: the fetch throws exactly when the client cannot be made or the
    list call rejects; without a token file it returns no events. *)
Lemma googleAccountEvents_throws fetch now timeMax account accountIndex :
  googleAccountEvents fetch now timeMax account accountIndex = Throw
  <-> authClient fetch = Throw
      \/ (authClient fetch = Ok true /\ eventsList fetch now timeMax = Throw).
Proof.
  unfold googleAccountEvents, rbind.
  destruct (authClient fetch) as [[|]|]; simpl.
  - destruct (eventsList fetch now timeMax) as [items|].
    + split; [discriminate | intros [E | [_ E]]; discriminate].
    + split; auto.
  - split; [discriminate | intros [E | [E _]]; discriminate].
  - split; auto.
Qed.

(** Zoho: an unreadable token file, an unknown datacenter, a rejected
    request and a body that cannot be parsed make the fetch throw; an
    account without token and a status that is not 2xx make it return no
    events. *)
Lemma zohoAccountEvents_causes fetch now timeMax account accountIndex :
  let refresh := fst (refreshZohoToken account (tokenWorld fetch)) in
  (refresh = Throw ->
   zohoAccountEvents fetch now timeMax account accountIndex = Throw)
  /\ (refresh = Ok None ->
      zohoAccountEvents fetch now timeMax account accountIndex = Ok [])
  /\ (forall token,
        refresh = Ok (Some token) ->
        (ZOHO_DATACENTERS (datacenter account) = None ->
         zohoAccountEvents fetch now timeMax account accountIndex = Throw)
        /\ (forall dc,
              ZOHO_DATACENTERS (datacenter account) = Some dc ->
              (calendarsResponse fetch = Throw ->
               zohoAccountEvents fetch now timeMax account accountIndex
               = Throw)
              /\ (forall response,
                    calendarsResponse fetch = Ok response ->
                    (ok response = false ->
                     zohoAccountEvents fetch now timeMax account accountIndex
                     = Ok [])
                    /\ (ok response = true -> json response = Throw ->
                        zohoAccountEvents fetch now timeMax account
                          accountIndex = Throw)))).
Proof.
  intros refresh. subst refresh. unfold zohoAccountEvents, rbind.
  destruct (fst (refreshZohoToken account (tokenWorld fetch)))
    as [[token|]|].
  - split; [discriminate|]. split; [discriminate|].
    intros token' _. split.
    + intros ->. reflexivity.
    + intros dc ->. split.
      * intros ->. reflexivity.
      * intros response ->. split.
        -- intros ->. reflexivity.
        -- intros -> ->. reflexivity.
  - split; [discriminate|]. split; [reflexivity | discriminate].
  - split; [reflexivity|]. split; discriminate.
Qed.

End FailureCauses.

(** ** On a list sorted by start *)

(** On a list sorted by start, the event in progress that is returned starts
    no later than every other event in progress. *)
Lemma getCurrentOrNextEvent_earliest now events e :
  StronglySorted (OrderedBy start) events ->
  getCurrentOrNextEvent now events = Some e ->
  inProgress now e = true ->
  forall x, In x events -> inProgress now x = true -> start e <= start x.
Proof.
  intros Hsorted Hr He x Hx Hpx.
  destruct (currentOrNext_selection now events)
    as [[y [Hy Hs]] | [[Hno _] | [Hno _]]].
  - rewrite Hr in Hs. injection Hs as <-.
    destruct Hy as [pre [post [-> [Hpre _]]]].
    apply in_app_or in Hx. destruct Hx as [Hx | [<- | Hx]].
    + rewrite Forall_forall in Hpre. rewrite (Hpre x Hx) in Hpx.
      discriminate.
    + lia.
    + clear Hr Hpre. induction pre as [|p pre IH]; simpl in Hsorted.
      * inversion Hsorted as [|? ? _ Hall]; subst.
        rewrite Forall_forall in Hall. apply (Hall x Hx).
      * inversion Hsorted; subst. auto.
  - unfold NoneWith in Hno. rewrite Forall_forall in Hno.
    rewrite (Hno x Hx) in Hpx. discriminate.
  - unfold NoneWith in Hno. rewrite Forall_forall in Hno.
    rewrite (Hno x Hx) in Hpx. discriminate.
Qed.

(** ** The strings the pattern accepts *)

Lemma isDigit_digitChar c :
  isDigit c = true ->
  digitChar (digitValue c) = c /\ 0 <= digitValue c < 10.
Proof.
  destruct c as [[|] [|] [|] [|] [|] [|] [|] [|]];
    intros Hc; try discriminate Hc;
    (split; [reflexivity | vm_compute; split; congruence]).
Qed.

Lemma digits_2_shape s ds tl :
  digits 2 s = Some (ds, tl) ->
  s = String.append ds tl
  /\ ds = pad2 (ToNumber ds) /\ 0 <= ToNumber ds < 100.
Proof.
  destruct s as [|a [|b rest]]; cbn [digits]; try discriminate.
  - destruct (isDigit a); discriminate.
  - destruct (isDigit a) eqn:Ha; [|discriminate].
    destruct (isDigit b) eqn:Hb; [|discriminate].
    intros E. injection E as <- <-.
    destruct (isDigit_digitChar a Ha) as [Ea Ra].
    destruct (isDigit_digitChar b Hb) as [Eb Rb].
    split; [reflexivity|].
    unfold ToNumber. cbn [ToNumber_from].
    set (x := digitValue a) in *. set (y := digitValue b) in *.
    assert (Hq : (10 * (10 * 0 + x) + y) / 10 = x)
      by (symmetry; apply Z.div_unique with y; lia).
    assert (Hr : (10 * (10 * 0 + x) + y) mod 10 = y)
      by (symmetry; apply Z.mod_unique with x; lia).
    unfold pad2. rewrite Hq, Hr, Ea, Eb. split; [reflexivity | lia].
Qed.

Lemma digits_4_shape s ds tl :
  digits 4 s = Some (ds, tl) ->
  s = String.append ds tl
  /\ ds = pad4 (ToNumber ds) /\ 0 <= ToNumber ds < 10000.
Proof.
  destruct s as [|a [|b [|c [|d rest]]]]; cbn [digits]; try discriminate;
    try (destruct (isDigit a); [|discriminate];
         try (destruct (isDigit b); [|discriminate]);
         try (destruct (isDigit c); [|discriminate]);
         discriminate).
  destruct (isDigit a) eqn:Ha; [|discriminate].
  destruct (isDigit b) eqn:Hb; [|discriminate].
  destruct (isDigit c) eqn:Hc; [|discriminate].
  destruct (isDigit d) eqn:Hd; [|discriminate].
  intros E. injection E as <- <-.
  destruct (isDigit_digitChar a Ha) as [Ea Ra].
  destruct (isDigit_digitChar b Hb) as [Eb Rb].
  destruct (isDigit_digitChar c Hc) as [Ec Rc].
  destruct (isDigit_digitChar d Hd) as [Ed Rd].
  split; [reflexivity|].
  unfold ToNumber. cbn [ToNumber_from].
  set (x := digitValue a) in *. set (y := digitValue b) in *.
  set (z := digitValue c) in *. set (u := digitValue d) in *.
  set (n := 10 * (10 * (10 * (10 * 0 + x) + y) + z) + u).
  assert (En : n = 1000 * x + 100 * y + 10 * z + u) by (subst n; lia).
  assert (H1 : n / 1000 = x)
    by (symmetry; apply Z.div_unique with (100 * y + 10 * z + u); lia).
  assert (H2 : n / 100 = 10 * x + y)
    by (symmetry; apply Z.div_unique with (10 * z + u); lia).
  assert (H3 : n / 10 = 100 * x + 10 * y + z)
    by (symmetry; apply Z.div_unique with u; lia).
  assert (H4 : n mod 10 = u)
    by (symmetry; apply Z.mod_unique with (100 * x + 10 * y + z); lia).
  assert (H5 : (n / 100) mod 10 = y)
    by (rewrite H2; symmetry; apply Z.mod_unique with x; lia).
  assert (H6 : (n / 10) mod 10 = z)
    by (rewrite H3; symmetry; apply Z.mod_unique with (10 * x + y); lia).
  unfold pad4. rewrite H1, H5, H6, H4, Ea, Eb, Ec, Ed.
  split; [reflexivity | lia].
Qed.

Lemma matchZone_shape zone tz sign tzHour tzMin :
  matchZone zone = Some (tz, sign, tzHour, tzMin) ->
  zone = EmptyString
  \/ zone = "Z"%string
  \/ exists h m,
       0 <= h < 100 /\ 0 <= m < 100
       /\ (zone = zoneOffset "+" h m \/ zone = zoneOffset "-" h m).
Proof.
  unfold matchZone. destruct zone as [|c rest]; [auto|].
  destruct (Ascii.eqb c "Z") eqn:Ez.
  - apply Ascii.eqb_eq in Ez. subst c.
    destruct rest; [auto | discriminate].
  - destruct (Ascii.eqb c "+" || Ascii.eqb c "-") eqn:Es; [|discriminate].
    destruct (digits 2 rest) as [[h r1]|] eqn:Eh; [|discriminate].
    destruct (digits 2 r1) as [[m r2]|] eqn:Em; [|discriminate].
    destruct r2; [|discriminate]. intros _.
    destruct (digits_2_shape _ _ _ Eh) as [-> [Hh Rh]].
    destruct (digits_2_shape _ _ _ Em) as [-> [Hm Rm]].
    right. right. exists (ToNumber h), (ToNumber m).
    split; [exact Rh|]. split; [exact Rm|].
    unfold zoneOffset. rewrite <- Hh, <- Hm.
    replace (String.append m EmptyString) with m
      by (clear; induction m as [|x m IH]; simpl; congruence).
    apply orb_true_iff in Es.
    destruct Es as [E | E]; apply Ascii.eqb_eq in E; subst c; auto.
Qed.

(** Every string the pattern accepts is a well-formed date string: fields
    in the range of their digits, and a zone indicator that is empty, [Z]
    or a signed offset of four digits. *)
Lemma matchZohoDate_shape dateStr m :
  matchZohoDate dateStr = Some m ->
  exists year month day hour min sec zone,
    InDigits year month day hour min sec
    /\ dateStr = zohoDateString year month day hour min sec zone
    /\ (zone = EmptyString
        \/ zone = "Z"%string
        \/ exists h m',
             0 <= h < 100 /\ 0 <= m' < 100
             /\ (zone = zoneOffset "+" h m' \/ zone = zoneOffset "-" h m')).
Proof.
  unfold matchZohoDate.
  destruct (digits 4 dateStr) as [[year s1]|] eqn:E1; [|discriminate].
  destruct (digits 2 s1) as [[month s2]|] eqn:E2; [|discriminate].
  destruct (digits 2 s2) as [[day s3]|] eqn:E3; [|discriminate].
  destruct s3 as [|t s4]; [discriminate|].
  destruct (Ascii.eqb t "T") eqn:Et; [|discriminate]. cbn [negb].
  apply Ascii.eqb_eq in Et. subst t.
  destruct (digits 2 s4) as [[hour s5]|] eqn:E4; [|discriminate].
  destruct (digits 2 s5) as [[min s6]|] eqn:E5; [|discriminate].
  destruct (digits 2 s6) as [[sec s7]|] eqn:E6; [|discriminate].
  destruct (matchZone s7) as [[[[tz sign] tzHour] tzMin]|] eqn:E7;
    [|discriminate].
  intros _.
  destruct (digits_4_shape _ _ _ E1) as [-> [Hy Ry]].
  destruct (digits_2_shape _ _ _ E2) as [-> [Hmo Rmo]].
  destruct (digits_2_shape _ _ _ E3) as [-> [Hd Rd]].
  destruct (digits_2_shape _ _ _ E4) as [-> [Hh Rh]].
  destruct (digits_2_shape _ _ _ E5) as [-> [Hmi Rmi]].
  destruct (digits_2_shape _ _ _ E6) as [-> [Hs Rs]].
  exists (ToNumber year), (ToNumber month), (ToNumber day),
    (ToNumber hour), (ToNumber min), (ToNumber sec), s7.
  split; [unfold InDigits; auto 10|].
  split; [|exact (matchZone_shape _ _ _ _ _ E7)].
  unfold zohoDateString.
  rewrite <- Hy, <- Hmo, <- Hd, <- Hh, <- Hmi, <- Hs. reflexivity.
Qed.

(** * Further properties of the code *)

(** ** What every event carries *)

Lemma In_flat_mapi_from {A B} (f : A -> Z -> list B) xs k y :
  In y (flat (mapi_from k f xs)) ->
  exists a j,
    k <= j /\ nth_error xs (Z.to_nat (j - k)) = Some a /\ In y (f a j).
Proof.
  revert k. induction xs as [|x rest IH]; intros k Hy; simpl in Hy.
  - contradiction.
  - unfold flat in Hy. simpl in Hy. apply in_app_or in Hy.
    destruct Hy as [Hy | Hy].
    + exists x, k. split; [lia|]. rewrite Z.sub_diag. split; [reflexivity|].
      exact Hy.
    + destruct (IH (k + 1) Hy) as [a [j [Hj [Hn Ha]]]].
      exists a, j. split; [lia|]. split; [|exact Ha].
      replace (Z.to_nat (j - k)) with (S (Z.to_nat (j - (k + 1)))) by lia.
      exact Hn.
Qed.

Lemma indexOf_from_found xs x k :
  In x xs ->
  k <= indexOf_from k xs x
  /\ nth_error xs (Z.to_nat (indexOf_from k xs x - k)) = Some x.
Proof.
  revert k. induction xs as [|y rest IH]; intros k Hx; simpl.
  - contradiction.
  - destruct (String.eqb y x) eqn:E.
    + apply String.eqb_eq in E. subst y. split; [lia|].
      rewrite Z.sub_diag. reflexivity.
    + destruct Hx as [-> | Hx]; [rewrite String.eqb_refl in E; discriminate|].
      destruct (IH (k + 1) Hx) as [Hk Hn]. split; [lia|].
      replace (Z.to_nat (indexOf_from (k + 1) rest x - k))
        with (S (Z.to_nat (indexOf_from (k + 1) rest x - (k + 1)))) by lia.
      exact Hn.
Qed.

Lemma orElse_nonempty o d : d <> EmptyString -> orElse o d <> EmptyString.
Proof.
  intros Hd. unfold orElse. destruct o as [s|]; [|exact Hd].
  destruct (String.eqb s "") eqn:E; [exact Hd|].
  intros ->. discriminate.
Qed.

Lemma mapResult_In {A B} (f : A -> result B) xs ys y :
  mapResult f xs = Ok ys -> In y ys -> exists x, In x xs /\ f x = Ok y.
Proof.
  revert ys. induction xs as [|x rest IH]; intros ys Hm Hy; simpl in Hm.
  - injection Hm as <-. contradiction.
  - unfold rbind in Hm. destruct (f x) as [b|] eqn:Hf; [|discriminate].
    destruct (mapResult f rest) as [bs|]; [|discriminate].
    injection Hm as <-. destruct Hy as [<- | Hy].
    + exists x. split; [left; reflexivity | exact Hf].
    + destruct (IH bs eq_refl Hy) as [x' [Hx' Hf']].
      exists x'. split; [right; exact Hx' | exact Hf'].
Qed.

Section EventInvariants.
Context `{Platform}.

Lemma googleSlots_events genv config now timeMax e :
  In e (flat (googleSlots genv config now timeMax)) ->
  EventOf config e /\ provider e = google.
Proof.
  unfold googleSlots, mapi. intros He.
  apply In_flat_mapi_from in He. destruct He as [a [j [Hj [Ha He]]]].
  unfold caught, googleAccountEvents, rbind in He.
  destruct (authClient (genv j)) as [[|]|]; simpl in He; try contradiction.
  destruct (eventsList (genv j) now timeMax) as [items|]; [|contradiction].
  apply in_map_iff in He. destruct He as [raw [<- _]].
  assert (Hin : In a (getAllAccounts config)).
  { unfold getAllAccounts. apply in_or_app. left.
    eapply nth_error_In. exact Ha. }
  destruct (indexOf_from_found _ _ 0 Hin) as [Hk Hn].
  rewrite Z.sub_0_r in Hn. fold (indexOf (getAllAccounts config) a) in *.
  split; [|reflexivity]. unfold EventOf, googleEvent. simpl.
  split; [exact Hk|]. split; [exact Hn|]. split; [reflexivity|].
  apply orElse_nonempty. discriminate.
Qed.

Lemma zohoSlots_events zenv config now timeMax e :
  In e (flat (zohoSlots zenv config now timeMax)) ->
  EventOf config e /\ provider e = zoho.
Proof.
  unfold zohoSlots, mapi. intros He.
  apply In_flat_mapi_from in He. destruct He as [a [j [Hj [Ha He]]]].
  rewrite Z.sub_0_r in Ha.
  unfold caught in He.
  destruct (zohoAccountEvents (zenv j) now timeMax a
              (Z.of_nat (List.length (gmailOf config)) + j))
    as [evs|] eqn:Hbody; [|contradiction].
  unfold zohoAccountEvents, rbind in Hbody.
  destruct (fst (refreshZohoToken a (tokenWorld (zenv j)))) as [[tok|]|];
    try discriminate;
    [|injection Hbody as <-; contradiction].
  destruct (ZOHO_DATACENTERS (datacenter a)); [|discriminate].
  destruct (calendarsResponse (zenv j)) as [cr|]; [|discriminate].
  destruct (ok cr); simpl in Hbody;
    [|injection Hbody as <-; contradiction].
  destruct (json cr) as [cd|]; [|discriminate].
  destruct (match cd with Some l => l | None => [] end) as [|c0 cs];
    [injection Hbody as <-; contradiction|].
  destruct (eventsResponse (zenv j) _ now timeMax) as [er|]; [|discriminate].
  destruct (ok er); simpl in Hbody;
    [|injection Hbody as <-; contradiction].
  destruct (json er) as [ed|]; [|discriminate].
  destruct (mapResult_In _ _ _ _ Hbody He) as [raw [_ Hraw]].
  unfold zohoEvent, rbind in Hraw.
  destruct (match z_dateandtime raw with
            | Some dateandtime => _
            | None => _
            end) as [times|]; [|discriminate].
  injection Hraw as <-.
  split; [|reflexivity]. unfold EventOf. simpl.
  split; [lia|]. split; [|split; [reflexivity|]].
  - unfold getAllAccounts. fold (gmailOf config).
    replace (Z.to_nat (Z.of_nat (List.length (gmailOf config)) + j))
      with (List.length (gmailOf config) + Z.to_nat j)%nat by lia.
    rewrite nth_error_app2 by lia.
    replace (List.length (gmailOf config) + Z.to_nat j
             - List.length (gmailOf config))%nat with (Z.to_nat j) by lia.
    rewrite nth_error_map, Ha. reflexivity.
  - apply orElse_nonempty. discriminate.
Qed.

(** Every event [getUpcomingEvents] returns names its account: its
    [accountIndex] is a position of the combined account list
    ([getAllAccounts]) and the account there is its [accountEmail]; its
    [account] label is [extractAccountName] of that address; and its title
    is not empty. *)
Theorem getUpcomingEvents_events_name_accounts
  (genv : Z -> GoogleFetch) (zenv : Z -> ZohoFetch)
  (config : Config) (now : Z) :
  exists events,
    getUpcomingEvents genv zenv config now = Ok events
    /\ forall e, In e events -> EventOf config e.
Proof.
  eexists. split; [apply getUpcomingEvents_sorted_merge|].
  intros e He.
  apply (Permutation_in _ (Permutation_sym (Array_sort_perm byStart _))) in He.
  unfold configurationOrder in He. apply in_app_or in He.
  destruct He as [He | He].
  - apply (googleSlots_events _ _ _ _ _ He).
  - apply (zohoSlots_events _ _ _ _ _ He).
Qed.

End EventInvariants.

(** ** What every task carries *)

Lemma orElse_is o d s :
  orElse o d = s -> s <> d -> o = Some s.
Proof.
  unfold orElse. destruct o as [v|]; [|congruence].
  destruct (String.eqb v ""); congruence.
Qed.

Section TaskInvariants.
Context `{Platform}.

(** The loop over the tasks appends to the array it finds, and what it
    appends and how it ends do not depend on that array. *)
Lemma pushTasks_appends now tasks allTasks :
  pushTasks now tasks allTasks
  = (fst (pushTasks now tasks []), allTasks ++ snd (pushTasks now tasks [])).
Proof.
  revert allTasks. induction tasks as [|entry rest IH]; intros allTasks.
  - simpl. unfold ret. rewrite app_nil_r. reflexivity.
  - cbn [pushTasks]. unfold bind, lift. destruct entry as [task|].
    + destruct (isCompleted task).
      * unfold ret. apply IH.
      * unfold push. rewrite (IH (allTasks ++ [zohoTask now task])).
        rewrite (IH ([] ++ [zohoTask now task])). cbn [fst snd].
        rewrite <- app_assoc. reflexivity.
    + simpl. rewrite app_nil_r. reflexivity.
Qed.

Lemma zohoAccountTasks_appends fetch account allTasks :
  zohoAccountTasks fetch account allTasks
  = (fst (zohoAccountTasks fetch account []),
     allTasks ++ tasksPushed fetch account).
Proof.
  unfold tasksPushed, zohoAccountTasks, bind, lift, ret, throw.
  destruct (fst (refreshZohoToken account (taskTokenWorld fetch)))
    as [[tok|]|]; simpl; try (rewrite app_nil_r; reflexivity).
  destruct (ZOHO_DATACENTERS (datacenter account));
    simpl; try (rewrite app_nil_r; reflexivity).
  destruct (tasksResponse fetch) as [response|];
    simpl; try (rewrite app_nil_r; reflexivity).
  destruct (ok response); simpl; try (rewrite app_nil_r; reflexivity).
  destruct (json response) as [body|];
    simpl; try (rewrite app_nil_r; reflexivity).
  apply pushTasks_appends.
Qed.

(** What the loop over the accounts leaves in the array: the tasks each
    account pushed, in the order of the accounts. *)
Lemma forZohoAccounts_pushed env i accounts allTasks :
  forZohoAccounts env i accounts allTasks
  = (Ok tt,
     allTasks
     ++ flat (mapi_from i (fun account j => tasksPushed (env j) account)
                accounts)).
Proof.
  revert i allTasks. induction accounts as [|account rest IH];
    intros i allTasks.
  - simpl. unfold ret, flat. simpl. rewrite app_nil_r. reflexivity.
  - cbn [forZohoAccounts mapi_from]. unfold bind, try_.
    rewrite zohoAccountTasks_appends.
    assert (Hrest : forZohoAccounts env (i + 1) rest
                      (allTasks ++ tasksPushed (env i) account)
                    = (Ok tt,
                       allTasks
                       ++ flat (tasksPushed (env i) account
                                :: mapi_from (i + 1)
                                     (fun account j =>
                                        tasksPushed (env j) account) rest))).
    { rewrite IH. unfold flat. simpl concat. rewrite <- app_assoc.
      reflexivity. }
    destruct (fst (zohoAccountTasks (env i) account [])) as [[]|];
      unfold ret; exact Hrest.
Qed.

(** Every task the loop pushes is read from a task that is not completed,
    at the instant of the fetch. *)
Lemma pushTasks_pushed now tasks t :
  In t (snd (pushTasks now tasks [])) ->
  exists raw, isCompleted raw = false /\ t = zohoTask now raw.
Proof.
  induction tasks as [|entry rest IH].
  - intros [].
  - cbn [pushTasks]. unfold bind, lift. destruct entry as [task|];
      [|intros []].
    destruct (isCompleted task) eqn:Hc.
    + unfold ret. exact IH.
    + unfold push. rewrite pushTasks_appends. cbn [snd app].
      intros [<- | Hin]; [exists task; auto | auto].
Qed.

Lemma tasksPushed_tasks fetch account t :
  In t (tasksPushed fetch account) ->
  status t <> "Completed"%string
  /\ status t <> "completed"%string
  /\ task_title t <> EmptyString
  /\ (isOverdue t = true <->
      exists due, dueDate t = Some due /\ due < tasksNow fetch).
Proof.
  unfold tasksPushed, zohoAccountTasks, bind, lift, ret, throw.
  destruct (fst (refreshZohoToken account (taskTokenWorld fetch)))
    as [[tok|]|]; simpl; try contradiction.
  destruct (ZOHO_DATACENTERS (datacenter account)); simpl;
    try contradiction.
  destruct (tasksResponse fetch) as [response|]; simpl; try contradiction.
  destruct (ok response); simpl; try contradiction.
  destruct (json response) as [body|]; simpl; try contradiction.
  intros Ht. apply pushTasks_pushed in Ht.
  destruct Ht as [raw [Hopen ->]].
  unfold isCompleted in Hopen.
  apply orb_false_iff in Hopen. destruct Hopen as [HC Hc].
  unfold zohoTask. simpl.
  split; [|split; [|split]].
  - intros E. apply orElse_is in E; [|discriminate].
    rewrite E in HC. discriminate.
  - intros E. apply orElse_is in E; [|discriminate].
    rewrite E in Hc. discriminate.
  - apply orElse_nonempty. discriminate.
  - destruct (match t_dueDate raw with
              | Some [day; month; year] => _
              | _ => None
              end) as [due|].
    + rewrite Z.ltb_lt. split.
      * intros Hlt. exists due. auto.
      * intros [due' [E Hlt]]. injection E as <-. exact Hlt.
    + split; [discriminate | intros [due' [E _]]; discriminate].
Qed.

(** The tasks [getZohoTasks] returns are among those the accounts pushed. *)
Lemma getZohoTasks_pushed env config t :
  In t (getZohoTasks env config) ->
  exists i, PushedBy env config i t.
Proof.
  unfold getZohoTasks. intros Ht.
  destruct (List.length (zohoAccounts config) =? 0)%nat; [contradiction|].
  destruct (negb (showZohoTasks config)); [contradiction|].
  rewrite forZohoAccounts_pushed in Ht. cbn [snd app] in Ht.
  assert (Hin : In t (flat (mapi_from 0 (fun account j =>
                     tasksPushed (env j) account)
                   (zohoAccounts config)))).
  { unfold slice0 in Ht.
    eapply Permutation_in;
      [apply Permutation_sym; apply (Array_sort_perm compareTasks)|].
    destruct (maxTasksToShow config <? 0);
      eapply firstn_In; exact Ht. }
  apply In_flat_mapi_from in Hin.
  destruct Hin as [a [j [Hj [Ha Hc]]]].
  exists j. split; [lia|]. exists a. rewrite Z.sub_0_r in Ha. auto.
Qed.

(** [getZohoTasks] returns only tasks that some account pushed, none of
    them completed or without title.  A task an account pushed is marked
    overdue exactly when it has a due date before the instant of the fetch
    of that account.  No more than [maxTasksToShow] tasks are returned when
    that is not negative, and none when the tasks are switched off. *)
Theorem getZohoTasks_output (env : Z -> TaskFetch) (config : Config) :
  (forall t,
     In t (getZohoTasks env config) ->
     status t <> "Completed"%string
     /\ status t <> "completed"%string
     /\ task_title t <> EmptyString
     /\ exists i, PushedBy env config i t)
  /\ (forall i t,
        PushedBy env config i t ->
        (isOverdue t = true <->
         exists due, dueDate t = Some due /\ due < tasksNow (env i)))
  /\ (0 <= maxTasksToShow config ->
      Z.of_nat (List.length (getZohoTasks env config))
      <= maxTasksToShow config)
  /\ (showZohoTasks config = false -> getZohoTasks env config = []).
Proof.
  split; [|split; [|split]].
  - intros t Ht. destruct (getZohoTasks_pushed _ _ _ Ht) as [i Hp].
    destruct Hp as [Hi [a [Ha Hin]]].
    destruct (tasksPushed_tasks _ _ _ Hin) as (H1 & H2 & H3 & _).
    repeat split; auto. exists i. split; [exact Hi|]. exists a. auto.
  - intros i t [Hi [a [Ha Hin]]].
    destruct (tasksPushed_tasks _ _ _ Hin) as (_ & _ & _ & H4). exact H4.
  - intros Hmax. unfold getZohoTasks.
    destruct (List.length (zohoAccounts config) =? 0)%nat; [simpl; lia|].
    destruct (negb (showZohoTasks config)); [simpl; lia|].
    unfold slice0. replace (maxTasksToShow config <? 0) with false
      by (symmetry; apply Z.ltb_ge; lia).
    pose proof (firstn_le_length (Z.to_nat (maxTasksToShow config))
                  (Array_sort compareTasks
                     (snd (forZohoAccounts env 0 (zohoAccounts config) []))))
      as Hlen.
    cbv zeta. lia.
  - intros Hoff. unfold getZohoTasks. rewrite Hoff. simpl.
    destruct (List.length (zohoAccounts config) =? 0)%nat; reflexivity.
Qed.

(** A throw in the body of an account loses the tasks that account had not
    pushed yet, and nothing else.  When the body of the account at position
    [i] throws after it pushed [pushed], the tasks returned are those
    returned when that body completes after it pushed [pushed] and every
    other account meets what it met. *)
Theorem getZohoTasks_failure_isolated (env : Z -> TaskFetch)
  (config : Config) (i : Z) (other : TaskFetch) (pushed : list ZohoTask) :
  TaskFetchGives env config i Throw pushed ->
  TaskFetchGives (override env i other) config i (Ok tt) pushed ->
  getZohoTasks env config = getZohoTasks (override env i other) config.
Proof.
  intros [Hi [a [Ha Hthrow]]] [_ [a' [Ha' Hother]]].
  rewrite Ha in Ha'. injection Ha' as <-.
  unfold getZohoTasks.
  destruct (List.length (zohoAccounts config) =? 0)%nat; [reflexivity|].
  destruct (negb (showZohoTasks config)); [reflexivity|].
  rewrite !forZohoAccounts_pushed. cbn [snd app].
  do 3 f_equal. apply mapi_from_ext.
  intros b j Hj Hb. destruct (Z.eq_dec j i) as [-> | Hne].
  - rewrite Z.sub_0_r in Hb. rewrite Ha in Hb. injection Hb as <-.
    unfold tasksPushed. rewrite Hthrow, Hother. reflexivity.
  - unfold override. destruct (j =? i) eqn:E;
      [apply Z.eqb_eq in E; contradiction | reflexivity].
Qed.

End TaskInvariants.

(** An answer whose second entry cannot be read: the first task is kept,
    the third is lost. *)
Lemma getZohoTasks_failure_isolated_witness :
  @TaskFetchGives utcPlatform (fun _ => partialTasks) aliceConfig 0 Throw
    [@zohoTask utcPlatform 0 normalTask]
  /\ @getZohoTasks utcPlatform (fun _ => partialTasks) aliceConfig
     = @getZohoTasks utcPlatform
         (override (fun _ => partialTasks) 0 (aliceTasks [normalTask] 0))
         aliceConfig
  /\ map task_title
       (@getZohoTasks utcPlatform (fun _ => partialTasks) aliceConfig)
     = ["Water the plants"%string].
Proof.
  assert (Hthrow : @TaskFetchGives utcPlatform (fun _ => partialTasks)
                     aliceConfig 0 Throw
                     [@zohoTask utcPlatform 0 normalTask]).
  { split; [lia|]. exists alice. split; [reflexivity|].
    intros allTasks. rewrite (@zohoAccountTasks_appends utcPlatform).
    reflexivity. }
  split; [exact Hthrow|]. split; [|reflexivity].
  apply (@getZohoTasks_failure_isolated utcPlatform _ _ _ _ _ Hthrow).
  split; [lia|]. exists alice. split; [reflexivity|].
  intros allTasks. rewrite (@zohoAccountTasks_appends utcPlatform).
  reflexivity.
Defined.

(** ** What a call of [getUsageLimits] can change *)

(** A call of [getUsageLimits] completes, makes one request at most and
    leaves the credentials alone.  It writes the cache file only with the
    data it has just fetched and returns, stamped with the instant of the
    call and the configured TTL.  Once the persisted entry has data, the
    call returns data, and the persisted entry still has data afterwards. *)
Theorem getUsageLimits_keeps_data (config : Config) (now : Z)
  (w : UsageWorld) :
  exists r w',
    getUsageLimits config now w = (Ok r, w')
    /\ (requests w' = requests w \/ requests w' = S (requests w))
    /\ claudeCredentials w' = claudeCredentials w
    /\ (cacheFile w' = cacheFile w
        \/ exists fresh,
             r = Some fresh
             /\ cacheFile w'
                = Stored (mkCache (Some fresh) now
                            (usageLimitsCacheTTL config * 1000)))
    /\ (data (persistedEntry w) <> None ->
        r <> None /\ data (persistedEntry w') <> None).
Proof.
  rewrite getUsageLimits_eq. cbv zeta.
  destruct (present (data (persistedEntry w))
            && (now - fetchedAt (persistedEntry w)
                <? usageLimitsCacheTTL config * 1000)) eqn:Hfresh.
  - exists (data (persistedEntry w)), w. repeat split; auto.
  - destruct (fetchUsageLimitsFromAPI_safe w) as [r [w1 [Hf [Hw1 Hreq]]]].
    rewrite Hf. destruct r as [fresh|].
    + assert (E : w1 = afterRequest w) by (apply Hreq; discriminate).
      subst w1. simpl.
      destruct (configDirWritable w).
      * eexists. eexists. split; [reflexivity|].
        split; [right; reflexivity|]. split; [reflexivity|].
        split; [right; exists fresh; split; reflexivity|].
        intros _. split; simpl; discriminate.
      * eexists. eexists. split; [reflexivity|].
        split; [right; reflexivity|]. split; [reflexivity|].
        split; [left; reflexivity|].
        intros Hd. split; [discriminate | exact Hd].
    + exists (data (persistedEntry w)), w1.
      assert (Hc : cacheFile w1 = cacheFile w /\
                   claudeCredentials w1 = claudeCredentials w /\
                   (requests w1 = requests w \/
                    requests w1 = S (requests w))).
      { destruct Hw1 as [-> | ->]; simpl; auto. }
      destruct Hc as [Hc [Hcr Hrq]].
      split; [reflexivity|]. split; [exact Hrq|]. split; [exact Hcr|].
      split; [left; exact Hc|].
      intros Hd. split; [exact Hd|].
      unfold persistedEntry in *. rewrite Hc. exact Hd.
Qed.

(** ** What a call of [refreshZohoToken] can change *)

(** A call of [refreshZohoToken] touches no token file but the one of its
    account, and not the client credentials; it makes one exchange at most;
    and when it writes the token file, it writes the record it returns,
    which has the refresh token and the API domain of the record that was
    there. *)
Theorem refreshZohoToken_frame (account : ZohoAccount) (w : ZohoWorld) :
  let tokenPath := getZohoTokenPath (email account) in
  let run := refreshZohoToken account w in
  (forall p, p <> tokenPath -> tokenFiles (snd run) p = tokenFiles w p)
  /\ zohoCredentialsFile (snd run) = zohoCredentialsFile w
  /\ (exchanges (snd run) = exchanges w
      \/ exchanges (snd run) = S (exchanges w))
  /\ (tokenFiles (snd run) tokenPath = tokenFiles w tokenPath
      \/ exists old new,
           tokenFiles w tokenPath = Stored old
           /\ fst run = Ok (Some new)
           /\ tokenFiles (snd run) tokenPath = Stored new
           /\ refresh_token new = refresh_token old
           /\ api_domain new = api_domain old).
Proof.
  intros tokenPath run. subst run. rewrite refreshZohoToken_eq. cbv zeta.
  fold tokenPath.
  destruct (tokenFiles w tokenPath) as [| |token] eqn:Hfile;
    try (simpl; repeat split; auto; fail).
  destruct (beyondBuffer token w); [simpl; repeat split; auto|].
  destruct (zohoCredentialsFile w) as [| |credentials] eqn:Hcred;
    try (simpl; repeat split; auto; fail).
  destruct (ZOHO_DATACENTERS (datacenter account)) as [dc|];
    [|simpl; repeat split; auto].
  destruct (tokenEndpoint w (refreshRequest credentials dc token))
    as [response|]; [|simpl; repeat split; auto].
  destruct (ok response); [|simpl; repeat split; auto].
  destruct (json response) as [body|]; [|simpl; repeat split; auto].
  destruct (tokensWritable w) eqn:Hw; [|simpl; repeat split; auto].
  simpl. split; [|split; [exact Hcred|split; [right; reflexivity|]]].
  - intros p Hp. destruct (String.eqb p tokenPath) eqn:E; [|reflexivity].
    apply String.eqb_eq in E. contradiction.
  - right. exists token, (refreshed token body (clock w + latency w)).
    rewrite String.eqb_refl. repeat split.
Qed.

(** After a call that returns a token which expires beyond the buffer, a
    second call returns the same token and leaves the world as it is: no
    further exchange is made. *)
Theorem refreshZohoToken_twice (account : ZohoAccount) (w w' : ZohoWorld)
  (token : ZohoToken) :
  refreshZohoToken account w = (Ok (Some token), w') ->
  beyondBuffer token w' = true ->
  refreshZohoToken account w' = (Ok (Some token), w').
Proof.
  intros Hrun Hvalid.
  assert (Hfile : tokenFiles w' (getZohoTokenPath (email account))
                  = Stored token).
  { rewrite refreshZohoToken_eq in Hrun. cbv zeta in Hrun.
    destruct (tokenFiles w (getZohoTokenPath (email account)))
      as [| |old] eqn:Hold; try discriminate.
    destruct (beyondBuffer old w).
    { injection Hrun as <- <-. exact Hold. }
    destruct (zohoCredentialsFile w) as [| |credentials]; try discriminate.
    destruct (ZOHO_DATACENTERS (datacenter account)) as [dc|];
      [|discriminate].
    destruct (tokenEndpoint w (refreshRequest credentials dc old))
      as [response|]; [|discriminate].
    destruct (ok response); [|discriminate].
    destruct (json response) as [body|]; [|discriminate].
    destruct (tokensWritable w); [|discriminate].
    injection Hrun as <- <-. simpl. rewrite String.eqb_refl. reflexivity. }
  rewrite refreshZohoToken_eq. cbv zeta. rewrite Hfile, Hvalid. reflexivity.
Qed.

Lemma refreshZohoToken_twice_witness :
  let w := aliceWorld (Stored clientCredentials) goodAnswer in
  let run := refreshZohoToken alice w in
  exists token,
    fst run = Ok (Some token)
    /\ exchanges (snd run) = 1%nat
    /\ refreshZohoToken alice (snd run) = (Ok (Some token), snd run).
Proof.
  intros w run.
  destruct run as [r w'] eqn:Hrun.
  destruct r as [[token|]|]; try (vm_compute in Hrun; discriminate).
  exists token. split; [reflexivity|].
  assert (Hw' : w' = snd (refreshZohoToken alice w))
    by (unfold run in Hrun; rewrite Hrun; reflexivity).
  assert (Ht : Some token
               = match fst (refreshZohoToken alice w) with
                 | Ok o => o
                 | Throw => None
                 end)
    by (unfold run in Hrun; rewrite Hrun; reflexivity).
  split; [rewrite Hw'; reflexivity|].
  apply (refreshZohoToken_twice alice w w' token Hrun).
  vm_compute in Ht. injection Ht as ->. rewrite Hw'. reflexivity.
Defined.

(** ** Token file names *)

Lemma safeChar_kept c : keptChar c = true -> safeChar c = c.
Proof. unfold safeChar, keptChar. intros ->. reflexivity. Qed.

Lemma safeChar_fileNameChar c : fileNameChar (safeChar c) = true.
Proof.
  unfold fileNameChar.
  destruct (keptChar c) eqn:E.
  - rewrite (safeChar_kept c E), E. reflexivity.
  - unfold safeChar. unfold keptChar in E. rewrite E.
    apply orb_true_r.
Qed.

Lemma fileNameChar_no_separator c :
  fileNameChar c = true -> c <> "/"%char /\ c <> "\"%char /\ c <> zero.
Proof.
  intros Hc. repeat split; intros ->; discriminate Hc.
Qed.

Lemma stringForall_append p s t :
  stringForall p (String.append s t) = stringForall p s && stringForall p t.
Proof.
  induction s as [|c s IH]; simpl; [reflexivity|].
  rewrite IH. apply andb_assoc.
Qed.

Lemma stringForall_In p s c :
  stringForall p s = true -> In c (list_ascii_of_string s) -> p c = true.
Proof.
  induction s as [|x s IH]; simpl; [contradiction|].
  intros Hs [<- | Hc]; apply andb_prop in Hs; destruct Hs; auto.
Qed.

Lemma safeAccount_fileName account :
  stringForall fileNameChar (safeAccount account) = true.
Proof.
  induction account as [|c rest IH]; simpl; [reflexivity|].
  rewrite safeChar_fileNameChar, IH. reflexivity.
Qed.

Lemma safeAccount_kept account :
  stringForall keptChar account = true -> safeAccount account = account.
Proof.
  induction account as [|c rest IH]; simpl; [reflexivity|].
  intros Hk. apply andb_prop in Hk. destruct Hk as [Hc Hrest].
  rewrite (safeChar_kept c Hc), (IH Hrest). reflexivity.
Qed.

Lemma safeAccount_length account :
  String.length (safeAccount account) = String.length account.
Proof.
  induction account as [|c rest IH]; simpl; congruence.
Qed.

Lemma safeAccount_idempotent account :
  safeAccount (safeAccount account) = safeAccount account.
Proof.
  induction account as [|c rest IH]; simpl; [reflexivity|].
  rewrite IH. f_equal.
  unfold safeChar at 1.
  pose proof (safeChar_fileNameChar c) as Hf. unfold fileNameChar in Hf.
  apply orb_prop in Hf. destruct Hf as [Hk | Hu].
  - unfold keptChar in Hk. rewrite Hk. reflexivity.
  - apply Ascii.eqb_eq in Hu. rewrite Hu. reflexivity.
Qed.

(** Whatever the account string, the names of its token files (Google,
    legacy and Zoho) hold letters, digits, [@], [.], [-] and [_] only: no
    path separator and no NUL, so the files lie in the tokens directory.
    The name keeps the length of the account string, and sanitizing twice
    is sanitizing once. *)
Theorem token_paths_are_file_names (account : string) :
  (forall c,
     In c (list_ascii_of_string (getGoogleTokenPath account))
     \/ In c (list_ascii_of_string (getLegacyTokenPath account))
     \/ In c (list_ascii_of_string (getZohoTokenPath account)) ->
     fileNameChar c = true
     /\ c <> "/"%char /\ c <> "\"%char /\ c <> zero)
  /\ String.length (safeAccount account) = String.length account
  /\ safeAccount (safeAccount account) = safeAccount account.
Proof.
  split; [|split; [apply safeAccount_length | apply safeAccount_idempotent]].
  intros c Hc.
  assert (Hf : fileNameChar c = true).
  { destruct Hc as [Hc | [Hc | Hc]];
      (eapply stringForall_In; [|exact Hc]);
      unfold getGoogleTokenPath, getLegacyTokenPath, getZohoTokenPath;
      rewrite !stringForall_append, safeAccount_fileName; reflexivity. }
  split; [exact Hf | apply fileNameChar_no_separator; exact Hf].
Qed.

Lemma append_cancel_r s1 s2 t :
  String.append s1 t = String.append s2 t -> s1 = s2.
Proof.
  assert (Hlen : forall a b,
             String.length (String.append a b)
             = (String.length a + String.length b)%nat).
  { intros a b. induction a as [|c a IH]; simpl; congruence. }
  revert s2. induction s1 as [|c s1 IH]; intros [|d s2] E; simpl in E.
  - reflexivity.
  - apply (f_equal String.length) in E. simpl in E. rewrite Hlen in E. lia.
  - apply (f_equal String.length) in E. simpl in E. rewrite Hlen in E. lia.
  - injection E as -> E. f_equal. apply IH. exact E.
Qed.

(** On account strings made of the characters the pattern keeps, each path
    function is injective: two such accounts never share a token file.
    And a Google token path is never a Zoho token path. *)
Theorem token_paths_distinct (a b : string) :
  stringForall keptChar a = true ->
  stringForall keptChar b = true ->
  (getGoogleTokenPath a = getGoogleTokenPath b -> a = b)
  /\ (getLegacyTokenPath a = getLegacyTokenPath b -> a = b)
  /\ (getZohoTokenPath a = getZohoTokenPath b -> a = b)
  /\ getGoogleTokenPath a <> getZohoTokenPath b.
Proof.
  intros Ha Hb.
  unfold getGoogleTokenPath, getLegacyTokenPath, getZohoTokenPath.
  rewrite (safeAccount_kept a Ha), (safeAccount_kept b Hb).
  repeat split.
  - intros E. simpl in E. injection E as E. apply append_cancel_r in E.
    exact E.
  - apply append_cancel_r.
  - intros E. simpl in E. injection E as E. apply append_cancel_r in E.
    exact E.
  - simpl. discriminate.
Qed.

Lemma token_paths_distinct_witness :
  stringForall keptChar "bob@gmail.com" = true
  /\ stringForall keptChar "carol@example.org" = true
  /\ getZohoTokenPath "bob@gmail.com" <> getZohoTokenPath "carol@example.org".
Proof.
  split; [reflexivity|]. split; [reflexivity|].
  intros E.
  destruct (token_paths_distinct "bob@gmail.com" "carol@example.org"
              eq_refl eq_refl) as [_ [_ [Hz _]]].
  discriminate (Hz E).
Defined.

(** ** The label of an account *)

Lemma index_char_cons a c s :
  String.index 0 (String a EmptyString) (String c s)
  = if Ascii.eqb c a then Some 0%nat
    else match String.index 0 (String a EmptyString) s with
         | Some n => Some (S n)
         | None => None
         end.
Proof.
  cbn [String.index String.prefix].
  destruct (ascii_dec a c) as [<- | Hne].
  - rewrite Ascii.eqb_refl. destruct s; reflexivity.
  - replace (Ascii.eqb c a) with false; [reflexivity|].
    symmetry. apply Ascii.eqb_neq. congruence.
Qed.

Lemma index_char_absent a s :
  hasChar a s = false -> String.index 0 (String a EmptyString) s = None.
Proof.
  induction s as [|c s IH]; [reflexivity|].
  cbn [hasChar]. intros Hc. apply orb_false_iff in Hc.
  destruct Hc as [Hc Hs].
  rewrite index_char_cons, Hc, (IH Hs). reflexivity.
Qed.

Lemma index_char_first a s rest :
  hasChar a s = false ->
  String.index 0 (String a EmptyString) (String.append s (String a rest))
  = Some (String.length s).
Proof.
  induction s as [|c s IH]; cbn [hasChar String.append String.length].
  - intros _. rewrite index_char_cons, Ascii.eqb_refl. reflexivity.
  - intros Hc. apply orb_false_iff in Hc. destruct Hc as [Hc Hs].
    rewrite index_char_cons, Hc, (IH Hs). reflexivity.
Qed.

Lemma substring_head s t :
  String.substring 0 (String.length s) (String.append s t) = s.
Proof.
  induction s as [|c s IH]; simpl.
  - destruct t; reflexivity.
  - rewrite IH. reflexivity.
Qed.

Lemma substring_whole t : String.substring 0 (String.length t) t = t.
Proof. induction t as [|c t IH]; simpl; congruence. Qed.

Lemma substring_tail s c t :
  String.substring (S (String.length s))
    (String.length (String.append s (String c t)) - S (String.length s))
    (String.append s (String c t)) = t.
Proof.
  induction s as [|x s IH]; simpl.
  - rewrite Nat.sub_0_r. apply substring_whole.
  - exact IH.
Qed.

(** The label [extractAccountName] gives an account.  An address without
    [@] is its own label; [local@gmail.com] is labelled [local]; an
    address of another domain is labelled with the part of the domain
    before its first dot, or with the whole domain when it has no dot.
    ([local] holds no [@], [label] no dot.) *)
Theorem extractAccountName_label (local label rest : string) :
  hasChar "@" local = false ->
  hasChar "." label = false ->
  extractAccountName local = local
  /\ extractAccountName (String.append local "@gmail.com") = local
  /\ (String.append label (String "." rest) <> "gmail.com"%string ->
      extractAccountName
        (String.append local (String "@" (String.append label (String "." rest))))
      = label)
  /\ extractAccountName (String.append local (String "@" label)) = label.
Proof.
  intros Hlocal Hlabel. unfold extractAccountName. repeat split.
  - rewrite (index_char_absent _ _ Hlocal). reflexivity.
  - change "@gmail.com"%string with (String "@" "gmail.com").
    rewrite (index_char_first _ _ _ Hlocal), substring_tail.
    rewrite String.eqb_refl. apply substring_head.
  - intros Hne.
    rewrite (index_char_first _ _ _ Hlocal), substring_tail.
    apply String.eqb_neq in Hne. rewrite Hne.
    rewrite (index_char_first _ _ _ Hlabel). apply substring_head.
  - rewrite (index_char_first _ _ _ Hlocal), substring_tail.
    assert (Hne : String.eqb label "gmail.com" = false).
    { apply String.eqb_neq. intros ->. discriminate Hlabel. }
    rewrite Hne, (index_char_absent _ _ Hlabel). reflexivity.
Qed.

Lemma extractAccountName_label_witness :
  extractAccountName "bob" = "bob"%string
  /\ extractAccountName "bob@gmail.com" = "bob"%string
  /\ extractAccountName "carol@example.org" = "example"%string
  /\ extractAccountName "carol@example" = "example"%string.
Proof.
  destruct (extractAccountName_label "bob" "example" "org" eq_refl eq_refl)
    as [H1 [H2 _]].
  destruct (extractAccountName_label "carol" "example" "org" eq_refl eq_refl)
    as [_ [_ [H3 H4]]].
  split; [exact H1|]. split; [exact H2|].
  split; [apply H3; discriminate | exact H4].
Defined.

(** ** Countdowns and times of day *)

Lemma numberToString_inj a b : numberToString a = numberToString b -> a = b.
Proof.
  unfold numberToString. intros E.
  assert (Hnn : forall z, Z.to_int z <> Decimal.Pos Decimal.Nil
                          /\ Z.to_int z <> Decimal.Neg Decimal.Nil).
  { intros [|p|p]; simpl; split; try discriminate;
      intros E'; injection E' as E';
      apply (DecimalPos.Unsigned.to_uint_nonnil p E'). }
  apply DecimalZ.to_int_inj.
  destruct (Hnn a) as [Ha1 Ha2]. destruct (Hnn b) as [Hb1 Hb2].
  pose proof (DecimalString.NilZero.isi _ Ha1 Ha2) as Ia.
  pose proof (DecimalString.NilZero.isi _ Hb1 Hb2) as Ib.
  rewrite E in Ia. rewrite Ia in Ib. injection Ib as Ib. exact Ib.
Qed.

Lemma string_of_uint_digits d :
  stringForall isDigit (DecimalString.NilEmpty.string_of_uint d) = true.
Proof.
  induction d; simpl; try reflexivity; exact IHd.
Qed.

Lemma numberToString_digits n :
  0 <= n -> stringForall isDigit (numberToString n) = true.
Proof.
  intros Hn. unfold numberToString.
  destruct n as [|p|p]; [reflexivity | | lia].
  simpl. unfold DecimalString.NilZero.string_of_uint.
  destruct (Pos.to_uint p) eqn:E; try apply string_of_uint_digits.
  reflexivity.
Qed.

(** Two strings of digits, each followed by a character that is no digit. *)
Lemma digits_then_split ds1 ds2 c1 c2 r1 r2 :
  stringForall isDigit ds1 = true ->
  stringForall isDigit ds2 = true ->
  isDigit c1 = false -> isDigit c2 = false ->
  String.append ds1 (String c1 r1) = String.append ds2 (String c2 r2) ->
  ds1 = ds2 /\ c1 = c2 /\ r1 = r2.
Proof.
  revert ds2. induction ds1 as [|x ds1 IH]; intros [|y ds2] H1 H2 Hc1 Hc2 E;
    simpl in *.
  - injection E as -> ->. auto.
  - injection E as -> _. apply andb_prop in H2. destruct H2 as [H2 _].
    congruence.
  - injection E as -> _. apply andb_prop in H1. destruct H1 as [H1 _].
    congruence.
  - injection E as -> E.
    apply andb_prop in H1. destruct H1 as [_ H1].
    apply andb_prop in H2. destruct H2 as [_ H2].
    destruct (IH ds2 H1 H2 Hc1 Hc2 E) as [-> [-> ->]]. auto.
Qed.

Lemma rem_div_eq a b :
  0 <= a -> 0 <= b -> a / 60 = b / 60 -> Z.rem a 60 = Z.rem b 60 -> a = b.
Proof.
  intros Ha Hb Hq Hr.
  rewrite !Z.rem_mod_nonneg in Hr by lia.
  pose proof (Z.div_mod a 60 ltac:(lia)).
  pose proof (Z.div_mod b 60 ltac:(lia)). lia.
Qed.

(** Countdowns are told apart: two numbers of minutes, neither negative,
    that [formatCountdown] writes the same way are the same number. *)
Theorem formatCountdown_injective (a b : Z) :
  0 <= a -> 0 <= b -> formatCountdown a = formatCountdown b -> a = b.
Proof.
  intros Ha Hb. unfold formatCountdown.
  assert (Hra : 0 <= Z.rem a 60) by (apply Z.rem_nonneg; lia).
  assert (Hrb : 0 <= Z.rem b 60) by (apply Z.rem_nonneg; lia).
  assert (Hqa : 0 <= a / 60) by (apply Z.div_pos; lia).
  assert (Hqb : 0 <= b / 60) by (apply Z.div_pos; lia).
  pose proof (numberToString_digits a Ha) as Da.
  pose proof (numberToString_digits b Hb) as Db.
  pose proof (numberToString_digits _ Hra) as Dra.
  pose proof (numberToString_digits _ Hrb) as Drb.
  pose proof (numberToString_digits _ Hqa) as Dqa.
  pose proof (numberToString_digits _ Hqb) as Dqb.
  assert (Hne : forall n r, String.append (numberToString n) (String "m" r)
                            <> EmptyString).
  { intros n r. destruct (numberToString n); discriminate. }
  destruct (a <? 60) eqn:La; [|destruct (Z.rem a 60 =? 0) eqn:Ra];
    (destruct (b <? 60) eqn:Lb; [|destruct (Z.rem b 60 =? 0) eqn:Rb]);
    intros E; simpl in E; injection E as E;
    apply digits_then_split in E; try assumption; try reflexivity;
    destruct E as [E1 [E2 E3]]; try discriminate E2;
    apply numberToString_inj in E1.
  - exact E1.
  - apply Z.eqb_eq in Ra. apply Z.eqb_eq in Rb.
    apply rem_div_eq; congruence.
  - symmetry in E3. destruct (Hne _ _ E3).
  - destruct (Hne _ _ E3).
  - apply append_cancel_r in E3. apply numberToString_inj in E3.
    apply rem_div_eq; assumption.
Qed.

Lemma formatCountdown_injective_witness :
  0 <= 65 /\ 0 <= 125
  /\ formatCountdown 65 = "In 1h5m"%string
  /\ formatCountdown 125 = "In 2h5m"%string
  /\ (formatCountdown 65 = formatCountdown 125 -> 65 = 125).
Proof.
  split; [lia|]. split; [lia|]. split; [reflexivity|]. split; [reflexivity|].
  apply (formatCountdown_injective 65 125); lia.
Defined.

Lemma roundedMinutes_window ms n :
  roundedMinutes ms = n <-> 60000 * n - 30000 <= ms < 60000 * n + 30000.
Proof.
  unfold roundedMinutes.
  pose proof (Z.div_mod (ms + 30000) 60000 ltac:(lia)).
  pose proof (Z.mod_pos_bound (ms + 30000) 60000 ltac:(lia)).
  split; [intros <-; lia|]. intros Hw.
  symmetry. apply Z.div_unique with (ms + 30000 - 60000 * n); lia.
Qed.

(** [getMeetingWarning] warns exactly when the event starts at least 30
    seconds and less than 5 minutes 30 seconds after now; the warning names
    the minutes to the start, rounded, which are 1 to 5.  It never warns
    without an event. *)
Theorem getMeetingWarning_window (now : Z) (e : CalendarEvent) :
  (30000 <= start e - now < 330000 ->
   exists n,
     1 <= n <= 5
     /\ 60000 * n - 30000 <= start e - now < 60000 * n + 30000
     /\ getMeetingWarning now (Some e) = Some (meetingWarningText n))
  /\ (~ 30000 <= start e - now < 330000 ->
      getMeetingWarning now (Some e) = None)
  /\ getMeetingWarning now None = None.
Proof.
  unfold getMeetingWarning.
  set (n := roundedMinutes (start e - now)).
  assert (Hn : 60000 * n - 30000 <= start e - now < 60000 * n + 30000)
    by (apply roundedMinutes_window; reflexivity).
  split; [|split; [|reflexivity]].
  - intros Hw. exists n.
    assert (Hr : 1 <= n <= 5) by lia.
    split; [exact Hr|]. split; [exact Hn|].
    replace (n >? 0) with true by (symmetry; apply Z.gtb_lt; lia).
    replace (n <=? 5) with true by (symmetry; apply Z.leb_le; lia).
    reflexivity.
  - intros Hw.
    destruct (n >? 0) eqn:H0; [|reflexivity].
    destruct (n <=? 5) eqn:H5; [|reflexivity].
    apply Z.gtb_lt in H0. apply Z.leb_le in H5. lia.
Qed.

Lemma getMeetingWarning_window_witness :
  let e := mkEvent "e" "Review" 1120000 2000000 false "w" "w@x.org" 0 google in
  30000 <= start e - 1000000 < 330000
  /\ exists n,
       1 <= n <= 5
       /\ 60000 * n - 30000 <= start e - 1000000 < 60000 * n + 30000
       /\ getMeetingWarning 1000000 (Some e) = Some (meetingWarningText n).
Proof.
  intros e.
  assert (Hw : 30000 <= start e - 1000000 < 330000) by (simpl; lia).
  split; [exact Hw|].
  exact (proj1 (getMeetingWarning_window 1000000 e) Hw).
Defined.

Lemma append_cancel_l s a b :
  String.append s a = String.append s b -> a = b.
Proof.
  induction s as [|c s IH]; simpl; intros E; [exact E|].
  injection E as E. auto.
Qed.

Lemma meetingWarningText_inj n m :
  meetingWarningText n = meetingWarningText m -> n = m.
Proof.
  unfold meetingWarningText. intros E.
  do 2 apply append_cancel_l in E.
  apply append_cancel_r in E. apply numberToString_inj. exact E.
Qed.

Lemma numberToString_head n :
  exists c r,
    numberToString n = String c r /\ (isDigit c = true \/ c = "-"%char).
Proof.
  unfold numberToString. destruct n as [|p|p]; simpl.
  - exists "0"%char, EmptyString. auto.
  - pose proof (DecimalPos.Unsigned.to_uint_nonnil p) as Hnn.
    unfold DecimalString.NilZero.string_of_uint.
    destruct (Pos.to_uint p); try contradiction; simpl;
      eexists; eexists; split; try reflexivity; auto.
  - eexists. eexists. split; [reflexivity | auto].
Qed.

Section TimeStrings.
Context `{LocalTime}.

Lemma formatCountdown_not_Now m : formatCountdown m <> "Now"%string.
Proof.
  unfold formatCountdown.
  destruct (m <? 60); [discriminate|].
  cbv zeta. destruct (Z.rem m 60 =? 0); discriminate.
Qed.

Lemma formatTime_not_Now date : formatTime date <> "Now"%string.
Proof.
  unfold formatTime. cbv zeta.
  destruct (numberToString_head
              (if Z.rem (getHours date) 12 =? 0 then 12
               else Z.rem (getHours date) 12)) as [c [r [-> Hc]]].
  simpl. intros E. injection E as -> _.
  destruct Hc as [Hc | Hc]; discriminate Hc.
Qed.

(** [getMeetingWarning] and [formatEvent] read the clock each, the warning
    first: [warned] and [shown] are the two instants.  The time string is
    [Now] exactly when the event is in progress at [shown].  When the
    warning names [n] minutes, the countdown threshold is 5 minutes or more
    and the clock did not go back between the two reads, the minutes [m]
    that [formatEvent] rounds are [n] at most, [n - 1] at least when less
    than a minute went by, and [n] when no time went by; and as long as [m]
    is positive the time string is the countdown of [m]. *)
Theorem eventTimeStr_agrees (e : CalendarEvent) (config : FullConfig)
  (warned shown : Z) :
  (eventTimeStr e config shown = "Now"%string <-> inProgress shown e = true)
  /\ (forall n,
        getMeetingWarning warned (Some e) = Some (meetingWarningText n) ->
        5 <= countdownThresholdMinutes config ->
        warned <= shown ->
        let m := roundedMinutes (start e - shown) in
        m <= n
        /\ (shown < warned + 60000 -> n - 1 <= m)
        /\ (shown = warned -> m = n)
        /\ (0 < m -> eventTimeStr e config shown = formatCountdown m)).
Proof.
  split.
  - unfold eventTimeStr, inProgress. cbv zeta.
    destruct ((start e <=? shown) && (end_ e >? shown)); [tauto|].
    split; [|discriminate]. intros E. exfalso.
    destruct ((roundedMinutes (start e - shown)
               <=? countdownThresholdMinutes config)
              && (roundedMinutes (start e - shown) >? 0)).
    + apply (formatCountdown_not_Now _ E).
    + apply (formatTime_not_Now _ E).
  - intros n Hwarn Hthreshold Hclock m.
    unfold getMeetingWarning in Hwarn. cbv zeta in Hwarn.
    destruct ((roundedMinutes (start e - warned) >? 0)
              && (roundedMinutes (start e - warned) <=? 5)) eqn:Hn;
      [|discriminate].
    change (Some (meetingWarningText (roundedMinutes (start e - warned)))
            = Some (meetingWarningText n)) in Hwarn.
    assert (Hsame : roundedMinutes (start e - warned) = n).
    { apply meetingWarningText_inj. congruence. }
    apply andb_prop in Hn. destruct Hn as [H0 H5].
    rewrite Hsame in H0, H5.
    apply Z.gtb_lt in H0. apply Z.leb_le in H5.
    pose proof (proj1 (roundedMinutes_window (start e - warned) n) Hsame)
      as Hn.
    pose proof (proj1 (roundedMinutes_window (start e - shown) m) eq_refl)
      as Hm.
    split; [nia|]. split; [intros Hminute; nia|].
    split; [intros ->; nia|].
    intros Hpos. unfold eventTimeStr. cbv zeta. fold m.
    replace (start e <=? shown) with false
      by (symmetry; apply Z.leb_gt; nia).
    replace (m <=? countdownThresholdMinutes config) with true
      by (symmetry; apply Z.leb_le; nia).
    replace (m >? 0) with true
      by (symmetry; apply Z.gtb_lt; exact Hpos).
    reflexivity.
Qed.

End TimeStrings.

(** An event that starts at 300000, a warning given at 29999 and a time
    string made at 30001: the warning names 5 minutes, the time string 4. *)
Lemma eventTimeStr_agrees_witness :
  let e := mkEvent "e" "Review" 300000 2000000 false "w" "w@x.org" 0 google in
  getMeetingWarning 29999 (Some e) = Some (meetingWarningText 5)
  /\ roundedMinutes (start e - 30001) = 4
  /\ @eventTimeStr utcLocalTime e DEFAULT_FULL_CONFIG 30001
     = "In 4m"%string.
Proof.
  intros e.
  assert (Hwarn : getMeetingWarning 29999 (Some e)
                  = Some (meetingWarningText 5)) by reflexivity.
  split; [exact Hwarn|]. split; [reflexivity|].
  destruct (proj2 (@eventTimeStr_agrees utcLocalTime e DEFAULT_FULL_CONFIG
                     29999 30001) 5 Hwarn)
    as (_ & _ & _ & Hshown);
    [simpl; lia | lia |].
  rewrite Hshown; reflexivity.
Defined.

(** While an event of the list is in progress, no warning is given: the
    event selected has started, and the meeting that comes next, however
    close, is not looked at. *)
Theorem getMeetingWarning_silent_in_progress (now : Z)
  (events : list CalendarEvent) (e : CalendarEvent) :
  In e events ->
  inProgress now e = true ->
  getMeetingWarning now (getCurrentOrNextEvent now events) = None.
Proof.
  intros He Hp.
  destruct (currentOrNext_selection now events)
    as [[x [Hx ->]] | [[Hno _] | [Hno _]]].
  - destruct (FirstWith_In _ _ _ Hx) as [_ Hxp].
    apply inProgress_iff in Hxp.
    unfold getMeetingWarning. cbv zeta.
    replace (roundedMinutes (start x - now) >? 0) with false; [reflexivity|].
    symmetry. rewrite Z.gtb_ltb. apply Z.ltb_ge.
    pose proof (proj1 (roundedMinutes_window (start x - now) _) eq_refl).
    lia.
  - unfold NoneWith in Hno. rewrite Forall_forall in Hno.
    rewrite (Hno e He) in Hp. discriminate.
  - unfold NoneWith in Hno. rewrite Forall_forall in Hno.
    rewrite (Hno e He) in Hp. discriminate.
Qed.

Lemma getMeetingWarning_silent_in_progress_witness :
  let current := mkEvent "a" "Workshop" 0 90000 false "w" "w@x.org" 0 google in
  let next := mkEvent "b" "Review" 120000 900000 false "w" "w@x.org" 0 google in
  getMeetingWarning 0 (Some next) <> None
  /\ getMeetingWarning 0 (getCurrentOrNextEvent 0 [current; next]) = None.
Proof.
  intros current next. split; [discriminate|].
  apply (getMeetingWarning_silent_in_progress 0 [current; next] current);
    [left; reflexivity | reflexivity].
Defined.

Lemma dayMinutes_complete h m :
  0 <= h < 24 -> 0 <= m < 60 -> In (h, m) dayMinutes.
Proof.
  intros Hh Hm. unfold dayMinutes. apply in_flat_map.
  exists (Z.to_nat h). split; [apply in_seq; lia|].
  apply in_map_iff. exists (Z.to_nat m).
  split; [f_equal; lia | apply in_seq; lia].
Qed.

Lemma tellsApart_sound f l p q :
  tellsApart f l = true -> In p l -> In q l -> f p = f q -> p = q.
Proof.
  unfold tellsApart. cbv zeta. intros Hall Hp Hq E.
  rewrite forallb_forall in Hall.
  specialize (Hall _ (in_map (fun p => (p, f p)) _ _ Hp)).
  rewrite forallb_forall in Hall.
  specialize (Hall _ (in_map (fun p => (p, f p)) _ _ Hq)).
  cbn [fst snd] in Hall. rewrite E, String.eqb_refl in Hall.
  cbn [implb] in Hall. apply andb_prop in Hall. destruct Hall as [Ha Hb].
  apply Z.eqb_eq in Ha. apply Z.eqb_eq in Hb.
  destruct p, q. cbn [fst snd] in *. congruence.
Qed.

Lemma formatTime_tellsApart :
  tellsApart (fun p => @formatTime (fixedLocalTime p) 0) dayMinutes = true.
Proof. vm_compute. reflexivity. Qed.

(** Times of day are told apart: two dates that [formatTime] writes the
    same way have the same local hour and minute (hours from 0 to 23,
    minutes from 0 to 59). *)
Theorem formatTime_injective `{LocalTime} (d1 d2 : Z) :
  0 <= getHours d1 < 24 -> 0 <= getMinutes d1 < 60 ->
  0 <= getHours d2 < 24 -> 0 <= getMinutes d2 < 60 ->
  formatTime d1 = formatTime d2 ->
  getHours d1 = getHours d2 /\ getMinutes d1 = getMinutes d2.
Proof.
  intros Hh1 Hm1 Hh2 Hm2 E.
  pose proof (tellsApart_sound _ _
                (getHours d1, getMinutes d1) (getHours d2, getMinutes d2)
                formatTime_tellsApart
                (dayMinutes_complete _ _ Hh1 Hm1)
                (dayMinutes_complete _ _ Hh2 Hm2) E) as Hpq.
  injection Hpq as Ha Hb. auto.
Qed.

Lemma formatTime_injective_witness :
  @formatTime utcLocalTime 47100000 = "1:05 PM"%string
  /\ @formatTime utcLocalTime 133500000 = "1:05 PM"%string
  /\ @getHours utcLocalTime 47100000 = @getHours utcLocalTime 133500000
  /\ @getMinutes utcLocalTime 47100000 = @getMinutes utcLocalTime 133500000.
Proof.
  split; [reflexivity|]. split; [reflexivity|].
  apply (@formatTime_injective utcLocalTime 47100000 133500000);
    try (vm_compute; split; congruence); reflexivity.
Defined.

(** ** The configuration file *)

Lemma spread_stringify c : spread DEFAULT_FULL_CONFIG (stringify c) = c.
Proof. destruct c as [[]]. reflexivity. Qed.

Lemma length_zero_nil {A} (l : list A) :
  (List.length l =? 0)%nat = true <-> l = [].
Proof. destruct l; simpl; split; congruence. Qed.

Lemma length_pos_cons {A} (l : list A) :
  (0 <? List.length l)%nat = true <-> l <> [].
Proof.
  destruct l; simpl; split; intros H; try reflexivity; try discriminate.
  now elim H.
Qed.

Lemma loadConfig_loads w :
  exists c, loadConfig w = (Ok c, w) /\ Migrated c.
Proof.
  unfold loadConfig, bind, gets, try_, lift, ret.
  destruct (configFile w) as [| |u]; cbn [existsSync negb readJson].
  - exists DEFAULT_FULL_CONFIG. split; [reflexivity | intros _; reflexivity].
  - exists DEFAULT_FULL_CONFIG. split; [reflexivity | intros _; reflexivity].
  - set (c := spread DEFAULT_FULL_CONFIG u).
    destruct ((0 <? List.length (accounts (base c)))%nat
              && (List.length (gmailAccounts (base c)) =? 0)%nat) eqn:E.
    + eexists. split; [reflexivity|].
      apply andb_prop in E. destruct E as [E _].
      apply length_pos_cons in E.
      unfold Migrated. simpl. intros H. now elim E.
    + exists c. split; [reflexivity|].
      unfold Migrated. intros H.
      apply andb_false_iff in E. destruct E as [E|E].
      * destruct (accounts (base c)); [reflexivity | discriminate].
      * rewrite H in E. discriminate.
Qed.

Lemma loadConfig_withConfigFile c w :
  Migrated c ->
  loadConfig (withConfigFile c w) = (Ok c, withConfigFile c w).
Proof.
  intros Hm. unfold loadConfig, bind, gets, try_, lift, ret.
  cbn [configFile withConfigFile existsSync negb readJson].
  rewrite spread_stringify.
  destruct ((0 <? List.length (accounts (base c)))%nat
            && (List.length (gmailAccounts (base c)) =? 0)%nat) eqn:E;
    [|reflexivity].
  apply andb_prop in E. destruct E as [E1 E2].
  apply length_pos_cons in E1. apply length_zero_nil in E2.
  elim E1. exact (Hm E2).
Qed.

Lemma saveConfig_eq c w :
  saveConfig c w
  = if writable w then (Ok tt, withConfigFile c w) else (Throw, w).
Proof. reflexivity. Qed.

(** What [loadConfig] returned can be saved and is then loaded again: the
    take-over of the legacy list is done once. *)
Theorem loadConfig_saveConfig_roundtrip (w : ConfigWorld) (c : FullConfig) :
  loadConfig w = (Ok c, w) ->
  writable w = true ->
  exists w', saveConfig c w = (Ok tt, w') /\ loadConfig w' = (Ok c, w').
Proof.
  intros Hload Hw.
  destruct (loadConfig_loads w) as [c0 [H0 Hm]].
  rewrite Hload in H0. injection H0 as <-.
  exists (withConfigFile c w). split.
  - rewrite saveConfig_eq, Hw. reflexivity.
  - now apply loadConfig_withConfigFile.
Qed.

Lemma loadConfig_saveConfig_roundtrip_witness :
  exists c w',
    loadConfig legacyWorld = (Ok c, legacyWorld)
    /\ gmailAccounts (base c) = ["alice@gmail.com"; "bob@work.com"]%string
    /\ saveConfig c legacyWorld = (Ok tt, w')
    /\ loadConfig w' = (Ok c, w').
Proof.
  exists (set_gmailAccounts ["alice@gmail.com"; "bob@work.com"]%string
            (spread DEFAULT_FULL_CONFIG legacyFile)).
  destruct (loadConfig_saveConfig_roundtrip legacyWorld
              (set_gmailAccounts ["alice@gmail.com"; "bob@work.com"]%string
                 (spread DEFAULT_FULL_CONFIG legacyFile))
              eq_refl eq_refl)
    as [w' [Hs Hl]].
  exists w'. split; [reflexivity|]. split; [reflexivity|].
  split; [exact Hs | exact Hl].
Defined.

(** ** The [config] command *)

Lemma numberOption_outcome args flag lo hi assign c otherwise w :
  In (lo, hi, assign) numberSettings ->
  ConfigOutcome c w (otherwise w) ->
  ConfigOutcome c w (numberOption args flag lo hi assign c otherwise w).
Proof.
  intros Hin Hother. unfold numberOption.
  destruct (negb (indexOf args flag =? -1)); [|exact Hother].
  destruct (parseInt (argAfter args (indexOf args flag))) as [value|];
    [|left; reflexivity].
  destruct ((value <? lo) || (value >? hi)) eqn:E; [left; reflexivity|].
  right; right. exists (assign value c). split; [|reflexivity].
  apply orb_false_iff in E. destruct E as [E1 E2].
  apply Z.ltb_ge in E1. rewrite Z.gtb_ltb in E2. apply Z.ltb_ge in E2.
  apply change_number with lo hi; [exact Hin | lia].
Qed.

Lemma booleanOption_outcome args flag assign c otherwise w :
  In assign booleanSettings ->
  ConfigOutcome c w (otherwise w) ->
  ConfigOutcome c w (booleanOption args flag assign c otherwise w).
Proof.
  intros Hin Hother. unfold booleanOption.
  destruct (negb (indexOf args flag =? -1)); [|exact Hother].
  cbv zeta.
  destruct (negb (strictEq _ "true") && negb (strictEq _ "false"));
    [left; reflexivity|].
  right; right. eexists. split; [|reflexivity].
  apply change_boolean. exact Hin.
Qed.

Lemma handleConfig_outcome args w c :
  loadConfig w = (Ok c, w) ->
  includes args "--reset" = false ->
  ConfigOutcome c w (handleConfig args w).
Proof.
  intros Hload Hreset. unfold handleConfig, bind at 1. rewrite Hload, Hreset.
  repeat first
    [ apply numberOption_outcome; [simpl; tauto|]
    | apply booleanOption_outcome; [simpl; tauto|] ].
  right; left. reflexivity.
Qed.

(** Every call of [handleConfig] ends in one of four ways. *)
Lemma handleConfig_result args w c :
  loadConfig w = (Ok c, w) ->
  handleConfig args w = (Ok (Exited 1), w)
  \/ handleConfig args w = (Ok Returned, w)
  \/ handleConfig args w = (Throw, w)
  \/ exists c',
       (if includes args "--reset" then c' = resetConfig c
        else SettingChange c c')
       /\ writable w = true
       /\ handleConfig args w = (Ok Returned, withConfigFile c' w).
Proof.
  intros Hload. destruct (includes args "--reset") eqn:Hreset.
  - unfold handleConfig, bind. rewrite Hload, Hreset, saveConfig_eq.
    destruct (writable w) eqn:Hw; [|auto].
    right; right; right. exists (resetConfig c). auto.
  - destruct (handleConfig_outcome args w c Hload Hreset)
      as [H|[H|[c' [Hc H]]]]; auto.
    rewrite H. unfold bind. rewrite saveConfig_eq.
    destruct (writable w) eqn:Hw; [|auto].
    right; right; right. exists c'. auto.
Qed.

Lemma SettingChange_accounts c c' : SettingChange c c' -> SameAccounts c c'.
Proof.
  intros [lo hi assign v Hin _|assign b Hin]; simpl in Hin;
    repeat (destruct Hin as [Hin|Hin]; [|]); try contradiction;
    try (injection Hin as <- <- <-); try subst assign;
    repeat split.
Qed.

Lemma SettingChange_range c c' :
  SettingChange c c' -> SettingsInRange c -> SettingsInRange c'.
Proof.
  unfold SettingsInRange.
  intros [lo hi assign v Hin Hv|assign b Hin] Hc; simpl in Hin;
    repeat (destruct Hin as [Hin|Hin]; [|]); try contradiction;
    try (injection Hin as <- <- <-); try subst assign;
    simpl; intuition lia.
Qed.

Lemma differences_same l : differences l l = 0%nat.
Proof.
  unfold differences. induction l as [|x l IH]; [reflexivity|].
  cbn [combine filter fst snd]. rewrite Z.eqb_refl. exact IH.
Qed.

Lemma sameBut_differences n l l' :
  sameBut n l l' -> (differences l l' <= 1)%nat.
Proof.
  revert n l'. induction l as [|x l IH]; intros n [|y l'] H;
    try (unfold differences; cbn; lia).
  destruct n as [|n]; cbn [sameBut] in H.
  - subst l'. unfold differences. cbn [combine filter fst snd].
    pose proof (differences_same l) as Hl. unfold differences in Hl.
    destruct (negb (x =? y)); cbn [List.length]; rewrite Hl; lia.
  - destruct H as [<- H]. unfold differences.
    cbn [combine filter fst snd]. rewrite Z.eqb_refl. cbn [negb].
    exact (IH n l' H).
Qed.

Ltac changed_place k :=
  apply (sameBut_differences k); cbn [sameBut settings];
  repeat split; reflexivity.

Lemma SettingChange_differences c c' :
  SettingChange c c' -> (differences (settings c) (settings c') <= 1)%nat.
Proof.
  intros [lo hi assign v Hin Hv|assign b Hin]; simpl in Hin;
    repeat (destruct Hin as [Hin|Hin]; [|]); try contradiction;
    try (injection Hin as <- <- <-); try subst assign;
    first [ changed_place 0%nat | changed_place 1%nat | changed_place 2%nat
          | changed_place 3%nat | changed_place 4%nat | changed_place 5%nat
          | changed_place 6%nat | changed_place 7%nat | changed_place 8%nat
          | changed_place 9%nat | changed_place 10%nat
          | changed_place 11%nat | changed_place 12%nat
          | changed_place 13%nat | changed_place 14%nat ].
Qed.

Lemma SettingChange_migrated c c' :
  SettingChange c c' -> Migrated c -> Migrated c'.
Proof.
  intros Hc Hm. destruct (SettingChange_accounts c c' Hc) as [Ha [Hg _]].
  unfold Migrated. rewrite Ha, Hg. exact Hm.
Qed.

Lemma resetConfig_accounts c : SameAccounts c (resetConfig c).
Proof. repeat split. Qed.

Lemma resetConfig_migrated c : Migrated c -> Migrated (resetConfig c).
Proof. intros Hm. exact Hm. Qed.

(** What is loaded after a call of [handleConfig], from what it wrote. *)
Lemma handleConfig_loaded args w c :
  loadConfig w = (Ok c, w) ->
  snd (handleConfig args w) = w
  \/ exists c',
       (if includes args "--reset" then c' = resetConfig c
        else SettingChange c c')
       /\ fst (handleConfig args w) = Ok Returned
       /\ loadConfig (snd (handleConfig args w))
          = (Ok c', snd (handleConfig args w)).
Proof.
  intros Hload.
  destruct (loadConfig_loads w) as [c0 [H0 Hm]].
  rewrite Hload in H0. injection H0 as <-.
  destruct (handleConfig_result args w c Hload)
    as [H|[H|[H|[c' [Hc [Hw H]]]]]]; rewrite H; auto.
  right. exists c'. split; [exact Hc|]. split; [reflexivity|].
  simpl. apply loadConfig_withConfigFile.
  destruct (includes args "--reset").
  - subst c'. now apply resetConfig_migrated.
  - now apply (SettingChange_migrated c).
Qed.

(** No call of [handleConfig] changes the accounts: whatever the arguments,
    the three lists of accounts loaded after the call are those loaded
    before it. *)
Theorem handleConfig_keeps_accounts (args : list string) (w : ConfigWorld) :
  exists c c',
    loadConfig w = (Ok c, w)
    /\ loadConfig (snd (handleConfig args w))
       = (Ok c', snd (handleConfig args w))
    /\ SameAccounts c c'.
Proof.
  destruct (loadConfig_loads w) as [c [Hload _]].
  exists c.
  destruct (handleConfig_loaded args w c Hload) as [H|[c' [Hc [_ H]]]].
  - exists c. rewrite H. repeat split; exact Hload.
  - exists c'. split; [exact Hload|]. split; [exact H|].
    destruct (includes args "--reset").
    + subst c'. apply resetConfig_accounts.
    + now apply SettingChange_accounts.
Qed.

(** The bounds are an invariant of the command: when the numbers loaded are
    within the bounds [handleConfig] checks, so are the numbers loaded after
    any call of it. *)
Theorem handleConfig_keeps_ranges (args : list string) (w : ConfigWorld)
  (c : FullConfig) :
  loadConfig w = (Ok c, w) ->
  SettingsInRange c ->
  exists c',
    loadConfig (snd (handleConfig args w))
    = (Ok c', snd (handleConfig args w))
    /\ SettingsInRange c'.
Proof.
  intros Hload Hr.
  destruct (handleConfig_loaded args w c Hload) as [H|[c' [Hc [_ H]]]].
  - exists c. rewrite H. auto.
  - exists c'. split; [exact H|].
    destruct (includes args "--reset").
    + subst c'. unfold SettingsInRange. simpl. lia.
    + now apply (SettingChange_range c).
Qed.

(** Unless it returns, [handleConfig] has written nothing: a rejected value
    and a failed write leave the world as it was. *)
Theorem handleConfig_writes_on_return (args : list string)
  (w : ConfigWorld) :
  fst (handleConfig args w) <> Ok Returned ->
  snd (handleConfig args w) = w.
Proof.
  intros Hne.
  destruct (loadConfig_loads w) as [c [Hload _]].
  destruct (handleConfig_result args w c Hload)
    as [H|[H|[H|[c' [Hc [Hw H]]]]]]; rewrite H in *; try reflexivity.
  now elim Hne.
Qed.

Lemma handleConfig_keeps_ranges_witness :
  fst (handleConfig ["--lookahead"; "24"]%string legacyWorld) = Ok Returned
  /\ exists c',
       loadConfig (snd (handleConfig ["--lookahead"; "24"]%string legacyWorld))
       = (Ok c', snd (handleConfig ["--lookahead"; "24"]%string legacyWorld))
       /\ SettingsInRange c'.
Proof.
  split; [reflexivity|].
  eapply handleConfig_keeps_ranges; [reflexivity|].
  unfold SettingsInRange. simpl. lia.
Defined.

Lemma handleConfig_writes_on_return_witness :
  fst (handleConfig ["--lookahead"; "0"]%string legacyWorld) = Ok (Exited 1)
  /\ snd (handleConfig ["--lookahead"; "0"]%string legacyWorld) = legacyWorld.
Proof.
  split; [reflexivity|].
  apply handleConfig_writes_on_return. vm_compute. discriminate.
Defined.

(** *** Numbers on the command line *)

Lemma digit_char_facts d :
  isDigit d = true ->
  isWhiteSpace d = false
  /\ Ascii.eqb d "-" = false /\ Ascii.eqb d "+" = false.
Proof.
  destruct d as [[] [] [] [] [] [] [] []]; intros H;
    try discriminate H; repeat split.
Qed.

Lemma leadingDigits_all s :
  stringForall isDigit s = true -> leadingDigits s = s.
Proof.
  induction s as [|c s IH]; simpl; [reflexivity|].
  intros H. apply andb_prop in H. destruct H as [Hc Hs].
  rewrite Hc, (IH Hs). reflexivity.
Qed.

Lemma ToNumber_from_pos u p :
  ToNumber_from (Z.pos p) (DecimalString.NilEmpty.string_of_uint u)
  = Z.pos (Pos.of_uint_acc u p).
Proof.
  revert p. induction u; intros p;
    cbn [DecimalString.NilEmpty.string_of_uint ToNumber_from Pos.of_uint_acc];
    try reflexivity;
    match goal with
    | |- ToNumber_from ?a _ = Z.pos (Pos.of_uint_acc _ ?q) =>
        replace a with (Z.pos q)
          by (unfold digitValue;
              match goal with
              | |- context [nat_of_ascii ?ch] =>
                  let v := eval vm_compute in (nat_of_ascii ch) in
                  change (nat_of_ascii ch) with v
              end; lia)
    end; apply IHu.
Qed.

Lemma ToNumber_from_zero u :
  ToNumber_from 0 (DecimalString.NilEmpty.string_of_uint u)
  = Z.of_N (Pos.of_uint u).
Proof.
  induction u;
    cbn [DecimalString.NilEmpty.string_of_uint ToNumber_from Pos.of_uint];
    try reflexivity; try exact IHu;
    match goal with
    | |- ToNumber_from ?a _ = Z.of_N (N.pos (Pos.of_uint_acc _ ?q)) =>
        change a with (Z.pos q)
    end; apply ToNumber_from_pos.
Qed.

Lemma string_of_uint_pos p :
  DecimalString.NilZero.string_of_uint (Pos.to_uint p)
  = DecimalString.NilEmpty.string_of_uint (Pos.to_uint p).
Proof.
  pose proof (DecimalPos.Unsigned.to_uint_nonnil p) as Hnn.
  unfold DecimalString.NilZero.string_of_uint.
  destruct (Pos.to_uint p); try reflexivity. now elim Hnn.
Qed.

Lemma ToNumber_pos p :
  ToNumber (DecimalString.NilEmpty.string_of_uint (Pos.to_uint p)) = Z.pos p.
Proof.
  unfold ToNumber. rewrite ToNumber_from_zero.
  rewrite DecimalPos.Unsigned.of_to. reflexivity.
Qed.

Lemma string_of_uint_head p :
  exists d rest,
    DecimalString.NilEmpty.string_of_uint (Pos.to_uint p) = String d rest
    /\ isDigit d = true.
Proof.
  pose proof (DecimalPos.Unsigned.to_uint_nonnil p) as Hnn.
  destruct (Pos.to_uint p); try (now elim Hnn); simpl;
    eexists; eexists; split; reflexivity.
Qed.

Lemma parseInt_digits s :
  stringForall isDigit s = true -> s <> EmptyString ->
  parseInt (Some s) = Some (ToNumber s).
Proof.
  intros Hs Hne. destruct s as [|d rest]; [now elim Hne|].
  pose proof Hs as Hd. simpl in Hd. apply andb_prop in Hd.
  destruct Hd as [Hd _].
  destruct (digit_char_facts d Hd) as [Hw [Hm Hp]].
  unfold parseInt. cbn [trimStart]. rewrite Hw, Hm, Hp.
  rewrite (leadingDigits_all _ Hs). rewrite Z.mul_1_l. reflexivity.
Qed.

(** [parseInt] reads back the decimal writing of an integer. *)
Lemma parseInt_numberToString n : parseInt (Some (numberToString n)) = Some n.
Proof.
  unfold numberToString. destruct n as [|p|p].
  - reflexivity.
  - cbn [Z.to_int DecimalString.NilZero.string_of_int].
    rewrite string_of_uint_pos, parseInt_digits.
    + now rewrite ToNumber_pos.
    + apply string_of_uint_digits.
    + destruct (string_of_uint_head p) as [d [rest [E _]]].
      rewrite E. discriminate.
  - cbn [Z.to_int DecimalString.NilZero.string_of_int].
    rewrite string_of_uint_pos.
    destruct (string_of_uint_head p) as [d [rest [E Hd]]].
    pose proof (string_of_uint_digits (Pos.to_uint p)) as Hs.
    pose proof (ToNumber_pos p) as Hv.
    rewrite E in *.
    destruct (digit_char_facts d Hd) as [Hw [Hm Hp]].
    unfold parseInt. cbn [trimStart isWhiteSpace].
    change (isWhiteSpace "-") with false. cbv iota.
    change (Ascii.eqb "-" "-") with true. cbv iota beta.
    rewrite (leadingDigits_all _ Hs), Hv. reflexivity.
Qed.

(** *** The flag a call serves *)

Lemma indexOf_from_bounds xs x k :
  indexOf_from k xs x = -1 \/ k <= indexOf_from k xs x.
Proof.
  revert k. induction xs as [|y rest IH]; intros k; cbn [indexOf_from].
  - now left.
  - destruct (String.eqb y x); [right; lia|].
    destruct (IH (k + 1)) as [E | E]; [now left | right; lia].
Qed.

Lemma includes_indexOf_from args flag k :
  0 <= k -> includes args flag = negb (indexOf_from k args flag =? -1).
Proof.
  revert k. induction args as [|y rest IH]; intros k Hk;
    cbn [includes existsb indexOf_from]; [reflexivity|].
  destruct (String.eqb y flag); cbn [orb].
  - symmetry. apply negb_true_iff. apply Z.eqb_neq. lia.
  - apply (IH (k + 1)). lia.
Qed.

(** [args.includes(flag)] is [args.indexOf(flag) !== -1]. *)
Lemma includes_indexOf args flag :
  includes args flag = negb (indexOf args flag =? -1).
Proof. apply includes_indexOf_from. lia. Qed.

Lemma numberOption_skip args flag lo hi assign c otherwise :
  includes args flag = false ->
  numberOption args flag lo hi assign c otherwise = otherwise.
Proof.
  intros H. rewrite includes_indexOf in H.
  unfold numberOption. rewrite H. reflexivity.
Qed.

Lemma booleanOption_skip args flag assign c otherwise :
  includes args flag = false ->
  booleanOption args flag assign c otherwise = otherwise.
Proof.
  intros H. rewrite includes_indexOf in H.
  unfold booleanOption. rewrite H. reflexivity.
Qed.

Lemma numberOption_found args flag lo hi assign c otherwise otherwise' w :
  includes args flag = true ->
  numberOption args flag lo hi assign c otherwise w
  = numberOption args flag lo hi assign c otherwise' w.
Proof.
  intros H. rewrite includes_indexOf in H.
  unfold numberOption. rewrite H. reflexivity.
Qed.

Lemma booleanOption_found args flag assign c otherwise otherwise' w :
  includes args flag = true ->
  booleanOption args flag assign c otherwise w
  = booleanOption args flag assign c otherwise' w.
Proof.
  intros H. rewrite includes_indexOf in H.
  unfold booleanOption. rewrite H. reflexivity.
Qed.

Ltac serve_flags :=
  lazymatch goal with
  | |- numberOption ?args ?f ?lo ?hi ?a ?c ?o ?w = _ =>
      let E := fresh "E" in
      destruct (includes args f) eqn:E; cbv beta iota;
      [ apply numberOption_found; exact E
      | rewrite (numberOption_skip args f lo hi a c o E); serve_flags ]
  | |- booleanOption ?args ?f ?a ?c ?o ?w = _ =>
      let E := fresh "E" in
      destruct (includes args f) eqn:E; cbv beta iota;
      [ apply booleanOption_found; exact E
      | rewrite (booleanOption_skip args f a c o E); serve_flags ]
  | |- _ => reflexivity
  end.

(** Without [--reset], a call of [handleConfig] runs the block of the flag
    it serves, and that block only. *)
Lemma handleConfig_serves args w c :
  includes args "--reset" = false ->
  loadConfig w = (Ok c, w) ->
  handleConfig args w
  = match servedFlag args with
    | Some (flag, _, numberFlag lo hi assign) =>
        numberOption args flag lo hi assign c (ret Returned) w
    | Some (flag, _, booleanFlag assign) =>
        booleanOption args flag assign c (ret Returned) w
    | None => (Ok Returned, w)
    end.
Proof.
  intros Hreset Hload. unfold handleConfig, bind at 1.
  rewrite Hload, Hreset.
  unfold servedFlag, configFlags. cbn [find fst].
  serve_flags.
Qed.

Lemma servedFlag_listed args entry :
  servedFlag args = Some entry ->
  In entry configFlags /\ includes args (fst (fst entry)) = true.
Proof. intros H. apply find_some in H. exact H. Qed.

Lemma sameBut_same n l : sameBut n l l.
Proof.
  revert n. induction l as [|x l IH]; intros n; [destruct n; exact I|].
  destruct n; cbn [sameBut]; auto.
Qed.

(** The assignment of a flag changes the setting at its place only. *)
Lemma configFlags_places flag place kind c :
  In (flag, place, kind) configFlags ->
  match kind with
  | numberFlag lo hi assign =>
      forall v, sameBut place (settings c) (settings (assign v c))
                /\ nth place (settings (assign v c)) 0 = v
                /\ In (lo, hi, assign) numberSettings
  | booleanFlag assign =>
      forall b, sameBut place (settings c) (settings (assign b c))
                /\ nth place (settings (assign b c)) 0 = Z.b2z b
                /\ In assign booleanSettings
  end.
Proof.
  intros Hin. cbn [configFlags In] in Hin.
  repeat (destruct Hin as [Hin | Hin];
          [injection Hin as <- <- <-; intros v;
           (split; [cbn [sameBut settings]; repeat split; reflexivity|]);
           (split; [reflexivity | simpl; tauto])|]).
  contradiction.
Qed.

(** One call sets one setting, that of the flag it serves: without
    [--reset], the settings loaded after a call of [handleConfig] differ
    from those loaded before it at one place at most, however many flags
    the arguments hold; the place is that of the first flag, in the order
    in which the code looks for them, that is among the arguments, wherever
    it stands among them; and no setting differs when none is. *)
Theorem handleConfig_one_setting (args : list string) (w : ConfigWorld) :
  includes args "--reset" = false ->
  exists c c',
    loadConfig w = (Ok c, w)
    /\ loadConfig (snd (handleConfig args w))
       = (Ok c', snd (handleConfig args w))
    /\ (differences (settings c) (settings c') <= 1)%nat
    /\ match servedFlag args with
       | Some (_, place, _) => sameBut place (settings c) (settings c')
       | None => settings c' = settings c
       end.
Proof.
  intros Hreset.
  destruct (loadConfig_loads w) as [c [Hload Hm]].
  exists c.
  assert (Hsame : forall place,
             exists c',
               loadConfig w = (Ok c', w)
               /\ (differences (settings c) (settings c') <= 1)%nat
               /\ sameBut place (settings c) (settings c')
               /\ settings c' = settings c).
  { intros place. exists c. split; [exact Hload|].
    split; [rewrite differences_same; lia|].
    split; [apply sameBut_same | reflexivity]. }
  assert (Hsaved : forall place c1,
             SettingChange c c1 ->
             sameBut place (settings c) (settings c1) ->
             exists c',
               loadConfig (snd ((_ <~ saveConfig c1 ;; ret Returned) w))
               = (Ok c', snd ((_ <~ saveConfig c1 ;; ret Returned) w))
               /\ (differences (settings c) (settings c') <= 1)%nat
               /\ sameBut place (settings c) (settings c')).
  { intros place c1 Hc Hp. unfold bind. rewrite saveConfig_eq.
    destruct (writable w).
    - exists c1. split.
      + apply loadConfig_withConfigFile.
        now apply (SettingChange_migrated c).
      + split; [now apply SettingChange_differences | exact Hp].
    - exists c. split; [exact Hload|].
      split; [rewrite differences_same; lia | apply sameBut_same]. }
  rewrite (handleConfig_serves args w c Hreset Hload).
  destruct (servedFlag args) as [[[flag place] kind]|] eqn:Hserved.
  - destruct (servedFlag_listed _ _ Hserved) as [Hin _].
    pose proof (configFlags_places flag place kind c Hin) as Hplace.
    destruct kind as [lo hi assign | assign].
    + unfold numberOption.
      destruct (negb (indexOf args flag =? -1)).
      * destruct (parseInt (argAfter args (indexOf args flag)))
          as [value|].
        -- destruct ((value <? lo) || (value >? hi)) eqn:Hv.
           ++ destruct (Hsame place) as [c' (H1 & H2 & H3 & _)].
              exists c'. auto.
           ++ apply orb_false_iff in Hv. destruct Hv as [Hlo Hhi].
              apply Z.ltb_ge in Hlo. rewrite Z.gtb_ltb in Hhi.
              apply Z.ltb_ge in Hhi.
              destruct (Hplace value) as (Hp & _ & Hset).
              destruct (Hsaved place (assign value c)) as [c' (H1 & H2 & H3)];
                [apply change_number with lo hi; [exact Hset | lia]
                | exact Hp |].
              exists c'. auto.
        -- destruct (Hsame place) as [c' (H1 & H2 & H3 & _)].
           exists c'. auto.
      * destruct (Hsame place) as [c' (H1 & H2 & H3 & _)].
        exists c'. auto.
    + unfold booleanOption.
      destruct (negb (indexOf args flag =? -1)).
      * cbv zeta.
        destruct (negb (strictEq _ "true") && negb (strictEq _ "false")).
        -- destruct (Hsame place) as [c' (H1 & H2 & H3 & _)].
           exists c'. auto.
        -- match goal with
           | |- context [saveConfig (assign ?b c)] =>
               destruct (Hplace b) as (Hp & _ & Hset);
               destruct (Hsaved place (assign b c)) as [c' (H1 & H2 & H3)];
                 [apply change_boolean; exact Hset | exact Hp |]
           end.
           exists c'. auto.
      * destruct (Hsame place) as [c' (H1 & H2 & H3 & _)].
        exists c'. auto.
  - destruct (Hsame O) as [c' (H1 & H2 & _ & H4)].
    exists c'. auto.
Qed.

(** With [--max-title 80 --lookahead 24] the flag served is [--lookahead],
    which the code looks for first: the look-ahead becomes 24 and the
    maximal title length stays what it was. *)
Lemma handleConfig_one_setting_witness :
  servedFlag ["--max-title"; "80"; "--lookahead"; "24"]%string
  = Some ("--lookahead"%string, 0%nat, numberFlag 1 168 set_lookaheadHours)
  /\ exists c c',
       loadConfig legacyWorld = (Ok c, legacyWorld)
       /\ loadConfig
            (snd (handleConfig
                    ["--max-title"; "80"; "--lookahead"; "24"]%string
                    legacyWorld))
          = (Ok c',
             snd (handleConfig
                    ["--max-title"; "80"; "--lookahead"; "24"]%string
                    legacyWorld))
       /\ (differences (settings c) (settings c') <= 1)%nat
       /\ sameBut 0 (settings c) (settings c')
       /\ lookaheadHours (base c) = 12
       /\ lookaheadHours (base c') = 24
       /\ maxTitleLength c = 40
       /\ maxTitleLength c' = 40.
Proof.
  split; [reflexivity|].
  destruct (handleConfig_one_setting
              ["--max-title"; "80"; "--lookahead"; "24"]%string legacyWorld
              eq_refl) as [c [c' [Hc [Hc' [Hd Hs]]]]].
  exists c, c'. split; [exact Hc|]. split; [exact Hc'|].
  split; [exact Hd|]. split; [exact Hs|].
  vm_compute in Hc. injection Hc as <-.
  vm_compute in Hc'. injection Hc' as <-.
  repeat split; reflexivity.
Defined.

(** The bounds of a number are the ones of its flag, both included.  When
    the flag served is one for a number and the argument after it is the
    decimal writing of an integer, a call without [--reset] in a
    configuration directory that can be written stores that integer when it
    is within the bounds, and exits with 1 and writes nothing when it is
    not. *)
Theorem handleConfig_number_bounds (args : list string) (flag : string)
  (place : nat) (lo hi : Z) (assign : Z -> FullConfig -> FullConfig)
  (n : Z) (w : ConfigWorld) :
  includes args "--reset" = false ->
  servedFlag args = Some (flag, place, numberFlag lo hi assign) ->
  argAfter args (indexOf args flag) = Some (numberToString n) ->
  writable w = true ->
  (lo <= n <= hi ->
   exists c c',
     loadConfig w = (Ok c, w)
     /\ fst (handleConfig args w) = Ok Returned
     /\ loadConfig (snd (handleConfig args w))
        = (Ok c', snd (handleConfig args w))
     /\ c' = assign n c
     /\ nth place (settings c') 0 = n)
  /\ (~ lo <= n <= hi -> handleConfig args w = (Ok (Exited 1), w)).
Proof.
  intros Hreset Hserved Harg Hw.
  destruct (loadConfig_loads w) as [c [Hload Hm]].
  destruct (servedFlag_listed _ _ Hserved) as [Hin Hflag].
  cbn [fst] in Hflag. rewrite includes_indexOf in Hflag.
  destruct (configFlags_places flag place _ c Hin n) as (_ & Hnth & Hset).
  rewrite (handleConfig_serves args w c Hreset Hload), Hserved.
  unfold numberOption. rewrite Hflag, Harg, parseInt_numberToString.
  split; intros Hn.
  - replace ((n <? lo) || (n >? hi)) with false
      by (symmetry; apply orb_false_iff; rewrite Z.gtb_ltb;
          split; apply Z.ltb_ge; lia).
    unfold bind. rewrite saveConfig_eq, Hw.
    exists c, (assign n c). split; [exact Hload|].
    split; [reflexivity|]. split; [|split; [reflexivity | exact Hnth]].
    apply loadConfig_withConfigFile.
    apply (SettingChange_migrated c); [|exact Hm].
    now apply change_number with lo hi.
  - replace ((n <? lo) || (n >? hi)) with true; [reflexivity|].
    symmetry. apply orb_true_iff. rewrite Z.gtb_ltb.
    destruct (Z.ltb_spec n lo); [now left|].
    right. apply Z.ltb_lt. lia.
Qed.

(** [--lookahead 24 --max-tasks 10]: the flag served is [--lookahead], so
    the number after [--max-tasks] is not looked at; alone, [--max-tasks 10]
    is stored and [--max-tasks 11] rejected. *)
Lemma handleConfig_number_bounds_witness :
  numberToString 10 = "10"%string
  /\ numberToString 11 = "11"%string
  /\ (exists c c',
        loadConfig legacyWorld = (Ok c, legacyWorld)
        /\ fst (handleConfig ["--verbose"; "--max-tasks"; "10"]%string
                  legacyWorld) = Ok Returned
        /\ loadConfig
             (snd (handleConfig ["--verbose"; "--max-tasks"; "10"]%string
                     legacyWorld))
           = (Ok c',
              snd (handleConfig ["--verbose"; "--max-tasks"; "10"]%string
                     legacyWorld))
        /\ c' = set_maxTasksToShow 10 c
        /\ nth 10 (settings c') 0 = 10)
  /\ handleConfig ["--verbose"; "--max-tasks"; "11"]%string legacyWorld
     = (Ok (Exited 1), legacyWorld).
Proof.
  split; [reflexivity|]. split; [reflexivity|]. split.
  - apply (handleConfig_number_bounds
             ["--verbose"; "--max-tasks"; "10"]%string "--max-tasks" 10
             1 10 set_maxTasksToShow 10 legacyWorld);
      try reflexivity; lia.
  - apply (handleConfig_number_bounds
             ["--verbose"; "--max-tasks"; "11"]%string "--max-tasks" 10
             1 10 set_maxTasksToShow 11 legacyWorld);
      try reflexivity; lia.
Defined.

(** ** Removing an account *)

Lemma indexOf_from_removeFirst xs x k :
  In x xs ->
  k <= indexOf_from k xs x < k + Z.of_nat (List.length xs)
  /\ firstn (Z.to_nat (indexOf_from k xs x - k)) xs
     ++ skipn (S (Z.to_nat (indexOf_from k xs x - k))) xs
     = removeFirst x xs.
Proof.
  revert k. induction xs as [|y rest IH]; intros k Hx.
  - contradiction.
  - cbn [indexOf_from removeFirst List.length].
    destruct (String.eqb y x) eqn:E.
    + split; [lia|]. rewrite Z.sub_diag. reflexivity.
    + destruct Hx as [-> | Hx]; [rewrite String.eqb_refl in E; discriminate|].
      destruct (IH (k + 1) Hx) as [Hk Hn]. split; [lia|].
      replace (Z.to_nat (indexOf_from (k + 1) rest x - k))
        with (S (Z.to_nat (indexOf_from (k + 1) rest x - (k + 1)))) by lia.
      cbn [firstn skipn app]. f_equal. exact Hn.
Qed.

Lemma splice1_indexOf xs x :
  In x xs ->
  (indexOf xs x =? -1) = false
  /\ splice1 (indexOf xs x) xs = removeFirst x xs.
Proof.
  intros Hx. destruct (indexOf_from_removeFirst xs x 0 Hx) as [Hk Hn].
  fold (indexOf xs x) in Hk, Hn. split; [apply Z.eqb_neq; lia|].
  unfold splice1.
  replace (indexOf xs x <? 0) with false by (symmetry; apply Z.ltb_ge; lia).
  rewrite Z.min_l by lia. rewrite Z.sub_0_r in Hn. exact Hn.
Qed.

Lemma unlinkIfExists_writable path w :
  writable w = true ->
  exists w',
    unlinkIfExists path w = (Ok tt, w')
    /\ configFile w' = configFile w
    /\ writable w' = true
    /\ tokenExists w' path = false
    /\ (forall p, tokenExists w p = false -> tokenExists w' p = false)
    /\ (forall p, p <> path -> tokenExists w' p = tokenExists w p).
Proof.
  intros Hw. unfold unlinkIfExists.
  destruct (tokenExists w path) eqn:E.
  - rewrite Hw. eexists. split; [reflexivity|]. cbn.
    rewrite String.eqb_refl. repeat split; try assumption.
    + intros p Hp. rewrite Hp. now destruct (String.eqb p path).
    + intros p Hp. apply String.eqb_neq in Hp. now rewrite Hp.
  - exists w. repeat split; auto.
Qed.

(** What is loaded from a file that [saveConfig] wrote. *)
Lemma loadConfig_stored w c1 :
  configFile w = Stored (stringify c1) ->
  exists c',
    loadConfig w = (Ok c', w)
    /\ accounts (base c') = accounts (base c1)
    /\ zohoAccounts (base c') = zohoAccounts (base c1)
    /\ settings c' = settings c1
    /\ gmailAccounts (base c')
       = match gmailAccounts (base c1) with
         | [] => accounts (base c1)
         | l => l
         end.
Proof.
  intros Hf. unfold loadConfig, bind, gets, try_, lift, ret. rewrite Hf.
  cbn [existsSync negb readJson]. rewrite spread_stringify.
  destruct c1 as [[acc gm zo]]. cbn [base accounts gmailAccounts].
  destruct acc, gm; cbn; eexists; (split; [reflexivity|]);
    repeat split.
Qed.

(** The removal of a Google account, in a world that can be written. *)
Lemma handleRemove_google_result args address w c :
  argAfter args (indexOf args "--remove") = Some address ->
  address <> EmptyString ->
  startsWith address "--" = false ->
  loadConfig w = (Ok c, w) ->
  writable w = true ->
  In address (gmailAccounts (base c)) ->
  exists w' c',
    handleRemove args w = (Ok Returned, w')
    /\ tokenExists w' (getGoogleTokenPath address) = false
    /\ tokenExists w' (getLegacyTokenPath address) = false
    /\ (forall p, p <> getGoogleTokenPath address ->
                  p <> getLegacyTokenPath address ->
                  tokenExists w' p = tokenExists w p)
    /\ loadConfig w' = (Ok c', w')
    /\ accounts (base c') = accounts (base c)
    /\ zohoAccounts (base c') = zohoAccounts (base c)
    /\ settings c' = settings c
    /\ gmailAccounts (base c')
       = match removeFirst address (gmailAccounts (base c)) with
         | [] => accounts (base c)
         | l => l
         end.
Proof.
  intros Harg Hne Hdash Hload Hw Hin.
  assert (Htruthy : truthy (Some address) = true).
  { unfold truthy. apply String.eqb_neq in Hne. now rewrite Hne. }
  assert (Horelse : orElse (Some address) "" = address).
  { unfold orElse. apply String.eqb_neq in Hne. now rewrite Hne. }
  assert (Hlen : (0 <? List.length (gmailAccounts (base c)))%nat = true).
  { destruct (gmailAccounts (base c)); [contradiction | reflexivity]. }
  destruct (splice1_indexOf _ _ Hin) as [Hidx Hsplice].
  set (c1 := set_gmailAccounts
               (removeFirst address (gmailAccounts (base c))) c).
  destruct (unlinkIfExists_writable (getGoogleTokenPath address)
              (withConfigFile c1 w) Hw)
    as [w1 [Hu1 [Hf1 [Hw1 [Hg1 [Hkeep1 Hother1]]]]]].
  destruct (unlinkIfExists_writable (getLegacyTokenPath address) w1 Hw1)
    as [w2 [Hu2 [Hf2 [Hw2 [Hg2 [Hkeep2 Hother2]]]]]].
  assert (Hfile : configFile w2 = Stored (stringify c1)).
  { rewrite Hf2, Hf1. reflexivity. }
  destruct (loadConfig_stored w2 c1 Hfile)
    as [c' [Hl [Ha [Hz [Hs Hg]]]]].
  exists w2, c'. split.
  - unfold handleRemove. cbv zeta. rewrite Harg, Htruthy, Horelse, Hdash.
    cbn [negb orb]. unfold bind at 1. rewrite Hload.
    cbv beta iota zeta. rewrite Hlen, Hidx. cbn [negb]. rewrite Hsplice.
    fold c1. unfold bind. rewrite saveConfig_eq, Hw, Hu1, Hu2. reflexivity.
  - split; [apply Hkeep2, Hg1|]. split; [exact Hg2|].
    split.
    { intros p Hp1 Hp2. rewrite (Hother2 p Hp2), (Hother1 p Hp1).
      reflexivity. }
    split; [exact Hl|].
    split; [rewrite Ha; destruct c as [[]]; reflexivity|].
    split; [rewrite Hz; destruct c as [[]]; reflexivity|].
    split; [rewrite Hs; destruct c as [[]]; reflexivity|].
    rewrite Hg. destruct c as [[]]. reflexivity.
Qed.

(** When the arguments make it serve [--remove], [handleAuth] runs the
    block of [--remove], whatever the blocks it does not reach do. *)
Lemma handleAuth_serves_remove addAccount authenticateAll args :
  ServesRemove args ->
  handleAuth addAccount authenticateAll args = handleRemove args.
Proof.
  intros (Hlist & Hadd & Hremove). unfold handleAuth.
  rewrite includes_indexOf in Hadd, Hremove.
  rewrite Hlist. cbv zeta. rewrite Hremove.
  apply negb_false_iff in Hadd. rewrite Hadd. reflexivity.
Qed.

(** [auth --remove] of a Google account that is not the last one, where the
    configuration directory can be written.  The arguments hold [--remove]
    and neither [--list] nor [--add]; the address after [--remove] is a
    Google account and another one remains.  Then the command returns, the
    first entry with that address leaves the list, the two token files of
    the address are gone, and the legacy list, the Zoho accounts, the
    settings and the other token files stay. *)
Theorem handleAuth_removes_google
  (addAccount : list string -> Z -> M ConfigWorld Status)
  (authenticateAll : M ConfigWorld Status)
  (args : list string) (address : string) (w : ConfigWorld)
  (c : FullConfig) :
  ServesRemove args ->
  argAfter args (indexOf args "--remove") = Some address ->
  address <> EmptyString ->
  startsWith address "--" = false ->
  loadConfig w = (Ok c, w) ->
  writable w = true ->
  In address (gmailAccounts (base c)) ->
  removeFirst address (gmailAccounts (base c)) <> [] ->
  exists w' c',
    handleAuth addAccount authenticateAll args w = (Ok Returned, w')
    /\ loadConfig w' = (Ok c', w')
    /\ gmailAccounts (base c')
       = removeFirst address (gmailAccounts (base c))
    /\ accounts (base c') = accounts (base c)
    /\ zohoAccounts (base c') = zohoAccounts (base c)
    /\ settings c' = settings c
    /\ tokenExists w' (getGoogleTokenPath address) = false
    /\ tokenExists w' (getLegacyTokenPath address) = false
    /\ (forall p, p <> getGoogleTokenPath address ->
                  p <> getLegacyTokenPath address ->
                  tokenExists w' p = tokenExists w p).
Proof.
  intros Hserves Harg Hne Hdash Hload Hw Hin Hrest.
  rewrite (handleAuth_serves_remove _ _ _ Hserves).
  destruct (handleRemove_google_result args address w c
              Harg Hne Hdash Hload Hw Hin)
    as [w' [c' [Hr [Hg [Hl [Ho [Hload' [Ha [Hz [Hs Hgm]]]]]]]]]].
  exists w', c'. repeat split; try assumption.
  rewrite Hgm.
  destruct (removeFirst address (gmailAccounts (base c)));
    [now elim Hrest | reflexivity].
Qed.

Lemma handleAuth_removes_google_witness :
  ServesRemove ["--remove"; "alice@gmail.com"]%string
  /\ exists w' c',
       handleAuth (fun _ _ => throw) throw
         ["--remove"; "alice@gmail.com"]%string legacyWorld
       = (Ok Returned, w')
       /\ loadConfig w' = (Ok c', w')
       /\ gmailAccounts (base c') = ["bob@work.com"]%string
       /\ tokenExists legacyWorld "alice@gmail.com.json" = true
       /\ tokenExists w' "alice@gmail.com.json" = false.
Proof.
  assert (Hs : ServesRemove ["--remove"; "alice@gmail.com"]%string)
    by (repeat split; reflexivity).
  split; [exact Hs|].
  destruct (handleAuth_removes_google (fun _ _ => throw) throw
              ["--remove"; "alice@gmail.com"]%string
              "alice@gmail.com" legacyWorld
              (set_gmailAccounts ["alice@gmail.com"; "bob@work.com"]%string
                 (spread DEFAULT_FULL_CONFIG legacyFile)) Hs)
    as [w' [c' [Hr [Hl [Hg [_ [_ [_ [_ [Ht _]]]]]]]]]];
    try reflexivity; try discriminate; [simpl; tauto|].
  exists w', c'. repeat split; assumption.
Defined.

(** [auth --remove] of the last Google account does not remove it when the
    legacy list is not empty.  The arguments hold [--remove] and neither
    [--list] nor [--add], the configuration directory can be written, and
    the address after [--remove] is the only Google account.  Then the
    command returns and deletes the token files, and the next [loadConfig]
    takes the legacy list over again as the Google accounts. *)
Theorem handleAuth_remove_last_account
  (addAccount : list string -> Z -> M ConfigWorld Status)
  (authenticateAll : M ConfigWorld Status)
  (args : list string) (address : string) (w : ConfigWorld)
  (c : FullConfig) :
  ServesRemove args ->
  argAfter args (indexOf args "--remove") = Some address ->
  address <> EmptyString ->
  startsWith address "--" = false ->
  loadConfig w = (Ok c, w) ->
  writable w = true ->
  gmailAccounts (base c) = [address] ->
  exists w' c',
    handleAuth addAccount authenticateAll args w = (Ok Returned, w')
    /\ tokenExists w' (getGoogleTokenPath address) = false
    /\ tokenExists w' (getLegacyTokenPath address) = false
    /\ loadConfig w' = (Ok c', w')
    /\ gmailAccounts (base c') = accounts (base c).
Proof.
  intros Hserves Harg Hne Hdash Hload Hw Hgm.
  rewrite (handleAuth_serves_remove _ _ _ Hserves).
  destruct (handleRemove_google_result args address w c
              Harg Hne Hdash Hload Hw)
    as [w' [c' [Hr [Hg [Hl [Ho [Hload' [Ha [Hz [Hs Hgm']]]]]]]]]].
  { rewrite Hgm. now left. }
  exists w', c'. repeat split; try assumption.
  rewrite Hgm', Hgm. cbn [removeFirst]. rewrite String.eqb_refl.
  reflexivity.
Qed.

Lemma handleAuth_remove_last_account_witness :
  ServesRemove ["--remove"; "alice@gmail.com"]%string
  /\ exists w' c',
       handleAuth (fun _ _ => throw) throw
         ["--remove"; "alice@gmail.com"]%string soloWorld
       = (Ok Returned, w')
       /\ tokenExists soloWorld "google_alice@gmail.com.json" = true
       /\ tokenExists w' "google_alice@gmail.com.json" = false
       /\ loadConfig w' = (Ok c', w')
       /\ gmailAccounts (base c') = ["alice@gmail.com"]%string.
Proof.
  assert (Hs : ServesRemove ["--remove"; "alice@gmail.com"]%string)
    by (repeat split; reflexivity).
  split; [exact Hs|].
  destruct (handleAuth_remove_last_account (fun _ _ => throw) throw
              ["--remove"; "alice@gmail.com"]%string
              "alice@gmail.com" soloWorld
              (set_gmailAccounts ["alice@gmail.com"]%string
                 (spread DEFAULT_FULL_CONFIG soloFile)) Hs)
    as [w' [c' [Hr [Hg [_ [Hl Hgm]]]]]];
    try reflexivity; try discriminate.
  exists w', c'. repeat split; assumption.
Defined.

Lemma indexOf_from_absent xs x k : ~ In x xs -> indexOf_from k xs x = -1.
Proof.
  revert k. induction xs as [|y rest IH]; intros k Hx; [reflexivity|].
  cbn [indexOf_from]. destruct (String.eqb y x) eqn:E.
  - apply String.eqb_eq in E. elim Hx. now left.
  - apply IH. intros H. apply Hx. now right.
Qed.

Lemma findIndex_from_removeFirstWith {A} (p : A -> bool) xs k :
  existsb p xs = true ->
  k <= findIndex_from k p xs < k + Z.of_nat (List.length xs)
  /\ firstn (Z.to_nat (findIndex_from k p xs - k)) xs
     ++ skipn (S (Z.to_nat (findIndex_from k p xs - k))) xs
     = removeFirstWith p xs.
Proof.
  revert k. induction xs as [|y rest IH]; intros k Hx.
  - discriminate.
  - cbn [findIndex_from removeFirstWith List.length existsb] in *.
    destruct (p y) eqn:E.
    + split; [lia|]. rewrite Z.sub_diag. reflexivity.
    + cbn [orb] in Hx.
      destruct (IH (k + 1) Hx) as [Hk Hn]. split; [lia|].
      replace (Z.to_nat (findIndex_from (k + 1) p rest - k))
        with (S (Z.to_nat (findIndex_from (k + 1) p rest - (k + 1))))
        by lia.
      cbn [firstn skipn app]. f_equal. exact Hn.
Qed.

Lemma findIndex_from_absent {A} (p : A -> bool) xs k :
  existsb p xs = false -> findIndex_from k p xs = -1.
Proof.
  revert k. induction xs as [|y rest IH]; intros k Hx; [reflexivity|].
  cbn [findIndex_from existsb] in *. apply orb_false_iff in Hx.
  destruct Hx as [Hy Hx]. rewrite Hy. now apply IH.
Qed.

Lemma splice1_findIndex {A} (p : A -> bool) xs :
  existsb p xs = true ->
  (findIndex p xs =? -1) = false
  /\ splice1 (findIndex p xs) xs = removeFirstWith p xs.
Proof.
  intros Hx. destruct (findIndex_from_removeFirstWith p xs 0 Hx) as [Hk Hn].
  fold (findIndex p xs) in Hk, Hn. split; [apply Z.eqb_neq; lia|].
  unfold splice1.
  replace (findIndex p xs <? 0) with false
    by (symmetry; apply Z.ltb_ge; lia).
  rewrite Z.min_l by lia. rewrite Z.sub_0_r in Hn. exact Hn.
Qed.

(** The list [handleRemove] searches for a Google account is the list of
    Google accounts that [loadConfig] returned. *)
Lemma migrated_gmail c :
  Migrated c ->
  (if (0 <? List.length (gmailAccounts (base c)))%nat
   then gmailAccounts (base c) else accounts (base c))
  = gmailAccounts (base c).
Proof.
  intros Hm. destruct (gmailAccounts (base c)) eqn:E; [|reflexivity].
  simpl. now apply Hm.
Qed.

(** The removal of a Zoho account, in a world that can be written. *)
Lemma handleRemove_zoho_result (args : list string)
  (address : string) (w : ConfigWorld) (c : FullConfig) :
  argAfter args (indexOf args "--remove") = Some address ->
  address <> EmptyString ->
  startsWith address "--" = false ->
  loadConfig w = (Ok c, w) ->
  writable w = true ->
  ~ In address (gmailAccounts (base c)) ->
  existsb (fun z => String.eqb (email z) address) (zohoAccounts (base c))
  = true ->
  exists w' c',
    handleRemove args w = (Ok Returned, w')
    /\ loadConfig w' = (Ok c', w')
    /\ zohoAccounts (base c')
       = removeFirstWith (fun z => String.eqb (email z) address)
           (zohoAccounts (base c))
    /\ gmailAccounts (base c') = gmailAccounts (base c)
    /\ settings c' = settings c
    /\ tokenExists w' (getZohoTokenPath address) = false
    /\ (forall p, p <> getZohoTokenPath address ->
                  tokenExists w' p = tokenExists w p).
Proof.
  intros Harg Hne Hdash Hload Hw Hnot Hz.
  destruct (loadConfig_loads w) as [c0 [H0 Hm]].
  rewrite Hload in H0. injection H0 as <-.
  assert (Htruthy : truthy (Some address) = true).
  { unfold truthy. apply String.eqb_neq in Hne. now rewrite Hne. }
  assert (Horelse : orElse (Some address) "" = address).
  { unfold orElse. apply String.eqb_neq in Hne. now rewrite Hne. }
  destruct (splice1_findIndex _ _ Hz) as [Hidx Hsplice].
  set (c1 := set_zohoAccounts
               (removeFirstWith (fun z => String.eqb (email z) address)
                  (zohoAccounts (base c))) c).
  destruct (unlinkIfExists_writable (getZohoTokenPath address)
              (withConfigFile c1 w) Hw)
    as [w1 [Hu1 [Hf1 [Hw1 [Hg1 [Hkeep1 Hother1]]]]]].
  destruct (loadConfig_stored w1 c1 Hf1)
    as [c' [Hl [Ha [Hzo [Hs Hg]]]]].
  exists w1, c'. split.
  - unfold handleRemove. cbv zeta. rewrite Harg, Htruthy, Horelse, Hdash.
    cbn [negb orb]. unfold bind at 1. rewrite Hload.
    cbv beta iota zeta. rewrite (migrated_gmail c Hm).
    unfold indexOf. rewrite (indexOf_from_absent _ _ 0 Hnot).
    change (-1 =? -1) with true. cbn [negb].
    rewrite Hidx. cbn [negb]. rewrite Hsplice.
    fold c1. unfold bind. rewrite saveConfig_eq, Hw, Hu1. reflexivity.
  - split; [exact Hl|].
    split; [rewrite Hzo; destruct c as [[]]; reflexivity|].
    split.
    { rewrite Hg. unfold Migrated in Hm. destruct c as [[acc gm zo]].
      cbn in *. destruct gm; [now apply Hm | reflexivity]. }
    split; [rewrite Hs; destruct c as [[]]; reflexivity|].
    split; [exact Hg1|].
    intros p Hp. rewrite (Hother1 p Hp). reflexivity.
Qed.

(** [auth --remove] of a Zoho account, where the configuration directory
    can be written.  The arguments hold [--remove] and neither [--list] nor
    [--add]; the address after [--remove] is no Google account and is the
    address of a Zoho account.  Then the command returns, the first Zoho
    account with that address leaves the list, its token file is gone, and
    the Google accounts, the settings and the other token files stay. *)
Theorem handleAuth_removes_zoho
  (addAccount : list string -> Z -> M ConfigWorld Status)
  (authenticateAll : M ConfigWorld Status)
  (args : list string) (address : string) (w : ConfigWorld)
  (c : FullConfig) :
  ServesRemove args ->
  argAfter args (indexOf args "--remove") = Some address ->
  address <> EmptyString ->
  startsWith address "--" = false ->
  loadConfig w = (Ok c, w) ->
  writable w = true ->
  ~ In address (gmailAccounts (base c)) ->
  existsb (fun z => String.eqb (email z) address) (zohoAccounts (base c))
  = true ->
  exists w' c',
    handleAuth addAccount authenticateAll args w = (Ok Returned, w')
    /\ loadConfig w' = (Ok c', w')
    /\ zohoAccounts (base c')
       = removeFirstWith (fun z => String.eqb (email z) address)
           (zohoAccounts (base c))
    /\ gmailAccounts (base c') = gmailAccounts (base c)
    /\ settings c' = settings c
    /\ tokenExists w' (getZohoTokenPath address) = false
    /\ (forall p, p <> getZohoTokenPath address ->
                  tokenExists w' p = tokenExists w p).
Proof.
  intros Hserves Harg Hne Hdash Hload Hw Hnot Hz.
  rewrite (handleAuth_serves_remove _ _ _ Hserves).
  exact (handleRemove_zoho_result args address w c
           Harg Hne Hdash Hload Hw Hnot Hz).
Qed.

Lemma handleAuth_removes_zoho_witness :
  ServesRemove ["--remove"; "bob@work.com"]%string
  /\ exists w' c',
       handleAuth (fun _ _ => throw) throw
         ["--remove"; "bob@work.com"]%string mixedWorld
       = (Ok Returned, w')
       /\ loadConfig w' = (Ok c', w')
       /\ zohoAccounts (base c') = []
       /\ gmailAccounts (base c') = ["alice@gmail.com"]%string
       /\ tokenExists mixedWorld "zoho_bob@work.com.json" = true
       /\ tokenExists w' "zoho_bob@work.com.json" = false
       /\ tokenExists w' "google_alice@gmail.com.json" = true.
Proof.
  assert (Hs : ServesRemove ["--remove"; "bob@work.com"]%string)
    by (repeat split; reflexivity).
  split; [exact Hs|].
  destruct (handleAuth_removes_zoho (fun _ _ => throw) throw
              ["--remove"; "bob@work.com"]%string
              "bob@work.com" mixedWorld
              (spread DEFAULT_FULL_CONFIG mixedFile) Hs)
    as [w' [c' [Hr [Hl [Hz [Hg [_ [Ht Ho]]]]]]]];
    try reflexivity; try discriminate.
  { simpl. intros [H|[]]. discriminate. }
  exists w', c'. repeat split; try assumption.
  rewrite Ho; [reflexivity | discriminate].
Defined.

(** The block of [--remove] on an address that is no account. *)
Lemma handleRemove_unknown_result (args : list string)
  (w : ConfigWorld) (c : FullConfig) :
  loadConfig w = (Ok c, w) ->
  (forall address,
     argAfter args (indexOf args "--remove") = Some address ->
     ~ In address (gmailAccounts (base c))
     /\ ~ In address (map email (zohoAccounts (base c)))) ->
  handleRemove args w = (Ok (Exited 1), w).
Proof.
  intros Hload Hnone.
  destruct (loadConfig_loads w) as [c0 [H0 Hm]].
  rewrite Hload in H0. injection H0 as <-.
  unfold handleRemove. cbv zeta.
  destruct (argAfter args (indexOf args "--remove")) as [address|];
    [|reflexivity].
  destruct (negb (truthy (Some address))
            || startsWith (orElse (Some address) "") "--") eqn:E;
    [reflexivity|].
  apply orb_false_iff in E. destruct E as [E _].
  apply negb_false_iff in E.
  assert (Horelse : orElse (Some address) "" = address).
  { unfold orElse. unfold truthy in E.
    destruct (String.eqb address ""); [discriminate | reflexivity]. }
  destruct (Hnone address eq_refl) as [Hg Hz].
  rewrite Horelse. unfold bind at 1. rewrite Hload.
  cbv beta iota zeta. rewrite (migrated_gmail c Hm).
  unfold indexOf. rewrite (indexOf_from_absent _ _ 0 Hg).
  change (-1 =? -1) with true. cbn [negb]. unfold findIndex.
  rewrite findIndex_from_absent; [reflexivity|].
  destruct (existsb _ (zohoAccounts (base c))) eqn:Ex; [|reflexivity].
  apply existsb_exists in Ex. destruct Ex as [z [Hin Hz']].
  apply String.eqb_eq in Hz'. elim Hz. rewrite <- Hz'.
  now apply in_map.
Qed.

(** [auth --remove] of an address that is no account.  The arguments hold
    [--remove] and neither [--list] nor [--add], and what follows
    [--remove], if anything does, is neither a Google account nor the
    address of a Zoho account.  Then the command exits with 1 and the world
    is as it was. *)
Theorem handleAuth_remove_unknown
  (addAccount : list string -> Z -> M ConfigWorld Status)
  (authenticateAll : M ConfigWorld Status)
  (args : list string) (w : ConfigWorld) (c : FullConfig) :
  ServesRemove args ->
  loadConfig w = (Ok c, w) ->
  (forall address,
     argAfter args (indexOf args "--remove") = Some address ->
     ~ In address (gmailAccounts (base c))
     /\ ~ In address (map email (zohoAccounts (base c)))) ->
  handleAuth addAccount authenticateAll args w = (Ok (Exited 1), w).
Proof.
  intros Hserves Hload Hnone.
  rewrite (handleAuth_serves_remove _ _ _ Hserves).
  exact (handleRemove_unknown_result args w c Hload Hnone).
Qed.

(** An unknown address, and no address; with [--list] among the arguments
    the command lists and returns instead. *)
Lemma handleAuth_remove_unknown_witness :
  handleAuth (fun _ _ => throw) throw
    ["--remove"; "carol@gmail.com"]%string mixedWorld
  = (Ok (Exited 1), mixedWorld)
  /\ handleAuth (fun _ _ => throw) throw ["--remove"]%string mixedWorld
     = (Ok (Exited 1), mixedWorld)
  /\ handleAuth (fun _ _ => throw) throw
       ["--remove"; "--list"]%string mixedWorld
     = (Ok Returned, mixedWorld).
Proof.
  split; [|split].
  - apply (handleAuth_remove_unknown _ _ _ mixedWorld
             (spread DEFAULT_FULL_CONFIG mixedFile));
      [repeat split; reflexivity | reflexivity |].
    intros address H. cbv in H. injection H as <-.
    split; simpl; intros [H|[]]; discriminate.
  - apply (handleAuth_remove_unknown _ _ _ mixedWorld
             (spread DEFAULT_FULL_CONFIG mixedFile));
      [repeat split; reflexivity | reflexivity |].
    intros address H. discriminate.
  - reflexivity.
Defined.
